(** * shell-mcp: a shallow embedding of [shell_mcp_server.py]

    The development follows the classes of the source file:
    [CommandFilter] (black/white list policy and the dangerous-command
    classifier), [SessionManager], the two executors, the request
    dispatcher of [TerminalMCPServer], and the stdio and SSE transports.

    Conventions of the embedding.
    - A Python [str] is a Rocq [string]; an [ascii] stands for the code
      point of the same number, so the model covers the strings whose
      code points are below 256.
    - Clock readings ([time.time()]) are exact integers (ticks).
    - Calls into the operating system, [re], [paramiko] and [aiohttp]
      are oracles passed as arguments; a call that may raise returns a
      [result].
    - Writes to the log are left out, except in [CommandFilter.__init__]
      where the dropped patterns are collected. *)

From Stdlib Require Import Bool Arith ZArith Lia List Ascii String.
From Stdlib Require Import DecimalString.
Import ListNotations.

Local Open Scope string_scope.
Local Open Scope bool_scope.
Local Open Scope nat_scope.

(* ================================================================== *)
(** * Python strings *)

Module Py.

(** [str.isspace] on one character, for the code points below 256:
    TAB..CR, FS..US, SPACE, NEL and NBSP. The same set is the class
    [\s] of a [str] pattern and the separator set of [split(None)]. *)
Definition isspace (a : ascii) : bool :=
  let n := nat_of_ascii a in
  ((9 <=? n) && (n <=? 13)) || ((28 <=? n) && (n <=? 32))
  || (n =? 133) || (n =? 160).

(** [str.lower] on one character: A..Z, and the Latin-1 capitals
    U+00C0..U+00DE without the multiplication sign U+00D7. *)
Definition lower_char (a : ascii) : ascii :=
  let n := nat_of_ascii a in
  if ((65 <=? n) && (n <=? 90))
     || ((192 <=? n) && (n <=? 222) && negb (n =? 215))
  then ascii_of_nat (n + 32) else a.

Fixpoint lower (s : string) : string :=
  match s with
  | EmptyString => EmptyString
  | String a t => String (lower_char a) (lower t)
  end.

(** [s.startswith(p)]. *)
Fixpoint startswith (p s : string) : bool :=
  match p, s with
  | EmptyString, _ => true
  | String a p', String b s' => Ascii.eqb a b && startswith p' s'
  | String _ _, EmptyString => false
  end.

(** [p in s]. *)
Fixpoint contains (p s : string) : bool :=
  startswith p s
  || match s with
     | EmptyString => false
     | String _ t => contains p t
     end.

Fixpoint lstrip (s : string) : string :=
  match s with
  | EmptyString => EmptyString
  | String a t => if isspace a then lstrip t else s
  end.

Fixpoint rstrip (s : string) : string :=
  match s with
  | EmptyString => EmptyString
  | String a t =>
      match rstrip t with
      | EmptyString => if isspace a then EmptyString else String a EmptyString
      | t' => String a t'
      end
  end.

(** [s.strip()]. *)
Definition strip (s : string) : string := rstrip (lstrip s).

(** The first whitespace-free run of [s] and what follows it. *)
Fixpoint span_token (s : string) : string * string :=
  match s with
  | EmptyString => (EmptyString, EmptyString)
  | String a t =>
      if isspace a then (EmptyString, s)
      else let (tok, rest) := span_token t in (String a tok, rest)
  end.

(** [s.split(None, 1)]: leading whitespace is skipped, the first token
    is cut, the whitespace after it is skipped, and the remainder (if
    any is left) is kept up to the end of the string. *)
Definition split_ws_1 (s : string) : list string :=
  match lstrip s with
  | EmptyString => []
  | s1 =>
      let (tok, rest) := span_token s1 in
      match lstrip rest with
      | EmptyString => [tok]
      | rest' => [tok; rest']
      end
  end.

(** [s.split(c)[0]]: the text before the first [c] (all of [s] when
    there is none). *)
Fixpoint split_0 (c : ascii) (s : string) : string :=
  match s with
  | EmptyString => EmptyString
  | String a t => if Ascii.eqb a c then EmptyString else String a (split_0 c t)
  end.

(** [parts[i]] for an index known to be in range. *)
Definition item (parts : list string) (i : nat) : string :=
  nth i parts EmptyString.

Definition Z_to_str (z : Z) : string :=
  NilZero.string_of_int (Z.to_int z).

(** A one-character string from its code point. *)
Definition chr (n : nat) : string := String (ascii_of_nat n) EmptyString.

End Py.

(* ================================================================== *)
(** * Exceptions and results *)

Module Exn.

(** The exception classes the handlers of the source tell apart.
    [ConnectionError] is a subclass of [OSError] and
    [json.JSONDecodeError] one of [ValueError]; all of them are
    subclasses of [Exception]. [Other] stands for every other class
    ([OverflowError], [AttributeError], a bare [Exception], ...). *)
Inductive cls : Type :=
| ConnectionError | OSError | RuntimeError | KeyError | ValueError
| JSONDecodeError | Other.

Record t : Type := mk { class : cls; str : string }.

(** [except (ConnectionError, OSError, RuntimeError)]. *)
Definition is_connection_error (e : t) : bool :=
  match class e with
  | ConnectionError | OSError | RuntimeError => true
  | _ => false
  end.

End Exn.

Inductive result (A : Type) : Type :=
| Ok (a : A)
| Raise (e : Exn.t).
Arguments Ok {A} a.
Arguments Raise {A} e.

(* ================================================================== *)
(** * Regular expressions

    [re.compile] is an oracle of the embedding: a compiled pattern is
    its two matchers, [match] (at the start of the subject) and [search]
    (anywhere in it). The patterns the source spells out itself are given
    as terms of a small regular-expression syntax and run by derivatives;
    for a pattern without back-references or look-around the existence of
    a match does not depend on the order in which a backtracking matcher
    tries the alternatives. *)

Module Re.

Record Pattern : Type := mkPattern {
  re_match : string -> bool;
  re_search : string -> bool
}.

Inductive re : Type :=
| Void
| Eps
| Chr (a : ascii)
| Space                 (* \s *)
| Dot                   (* .  : any character but a newline *)
| Seq (r s : re)
| Alt (r s : re)
| Star (r : re).

Definition newline : ascii := ascii_of_nat 10.

Fixpoint nullable (r : re) : bool :=
  match r with
  | Void | Chr _ | Space | Dot => false
  | Eps | Star _ => true
  | Seq r s => nullable r && nullable s
  | Alt r s => nullable r || nullable s
  end.

Fixpoint deriv (a : ascii) (r : re) : re :=
  match r with
  | Void | Eps => Void
  | Chr b => if Ascii.eqb a b then Eps else Void
  | Space => if Py.isspace a then Eps else Void
  | Dot => if Ascii.eqb a newline then Void else Eps
  | Seq r s =>
      if nullable r then Alt (Seq (deriv a r) s) (deriv a s)
      else Seq (deriv a r) s
  | Alt r s => Alt (deriv a r) (deriv a s)
  | Star r => Seq (deriv a r) (Star r)
  end.

(** Some prefix of [s] is a word of [r]. *)
Fixpoint matches_at (r : re) (s : string) : bool :=
  nullable r
  || match s with
     | EmptyString => false
     | String a t => matches_at (deriv a r) t
     end.

(** Some factor of [s] is a word of [r]. *)
Fixpoint matches_in (r : re) (s : string) : bool :=
  matches_at r s
  || match s with
     | EmptyString => false
     | String _ t => matches_in r t
     end.

(** The compiled form of a pattern whose body is [r]; [anchored] says
    that the pattern text starts with [^], which pins [search] to the
    start of the subject as well. *)
Definition of_re (anchored : bool) (r : re) : Pattern :=
  {| re_match := matches_at r;
     re_search := if anchored then matches_at r else matches_in r |}.

(** The words of a regular expression. *)
Inductive lang : re -> string -> Prop :=
| L_eps : lang Eps EmptyString
| L_chr a : lang (Chr a) (String a EmptyString)
| L_space a : Py.isspace a = true -> lang Space (String a EmptyString)
| L_dot a : Ascii.eqb a newline = false -> lang Dot (String a EmptyString)
| L_seq r s u v : lang r u -> lang s v -> lang (Seq r s) (u ++ v)
| L_alt_l r s u : lang r u -> lang (Alt r s) u
| L_alt_r r s u : lang s u -> lang (Alt r s) u
| L_star_nil r : lang (Star r) EmptyString
| L_star_app r u v : lang r u -> lang (Star r) v -> lang (Star r) (u ++ v).

(** A literal word. *)
Fixpoint word (w : string) : re :=
  match w with
  | EmptyString => Eps
  | String a t => Seq (Chr a) (word t)
  end.

(** What [re.compile(pattern)] does: it returns the compiled pattern,
    raises [re.error] for a pattern that is not well formed, or raises
    an exception of another class ([OverflowError] for a repeat count
    that is too large, [RecursionError]). *)
Inductive Compile : Type :=
| Compiled (regex : Pattern)
| Error
| Raises (e : Exn.t).

End Re.

(* ================================================================== *)
(** * class CommandFilter *)

Module CommandFilter.

(** The [command_filter] section of the configuration:
    [config.get("whitelist", [])] and [config.get("blacklist", [])]. *)
Record Config : Type := mkConfig {
  whitelist : list string;
  blacklist : list string
}.

(** A rule is the pair [(pattern, regex)]. *)
Definition Rule : Type := (string * Re.Pattern)%type.

Record t : Type := mkFilter {
  whitelist_patterns : list string;
  blacklist_patterns : list string;
  whitelist_enabled : bool;
  whitelist_rules : list Rule;
  blacklist_rules : list Rule
}.

Inductive LogEntry : Type :=
| WhitelistCompileError (pattern : string)
| BlacklistCompileError (pattern : string)
| InitInfo (n_black n_black_patterns n_white n_white_patterns : nat)
           (enabled : bool)
| BlacklistWarning (failed_count : nat).

(** One compiling loop of [__init__]: the rules that compiled, in
    order, and the patterns that raised [re.error] and were logged.
    The loop catches [re.error] only: the first pattern whose
    compilation raises anything else ends the loop, and the
    construction, with that exception. *)
Fixpoint compile_rules (compile : string -> Re.Compile)
         (patterns : list string) : result (list Rule) * list string :=
  match patterns with
  | [] => (Ok [], [])
  | pattern :: rest =>
      match compile pattern with
      | Re.Compiled regex =>
          let (rules, failed) := compile_rules compile rest in
          (match rules with
           | Ok rules => Ok ((pattern, regex) :: rules)
           | Raise e => Raise e
           end, failed)
      | Re.Error =>
          let (rules, failed) := compile_rules compile rest in
          (rules, pattern :: failed)
      | Re.Raises e => (Raise e, [])
      end
  end.

(** [bool(a_list)]. *)
Definition truthy {A : Type} (l : list A) : bool :=
  match l with [] => false | _ :: _ => true end.

(** [__init__]: the filter, or the exception that ended the
    construction, and what was logged until then. *)
Definition __init__ (compile : string -> Re.Compile)
           (config : Config) : result t * list LogEntry :=
  let whitelist_patterns := whitelist config in
  let blacklist_patterns := blacklist config in
  let whitelist_enabled := truthy whitelist_patterns in
  let (white, white_failed) := compile_rules compile whitelist_patterns in
  match white with
  | Raise e => (Raise e, map WhitelistCompileError white_failed)
  | Ok whitelist_rules =>
      let (black, black_failed) := compile_rules compile blacklist_patterns in
      match black with
      | Raise e =>
          (Raise e,
           (map WhitelistCompileError white_failed
            ++ map BlacklistCompileError black_failed)%list)
      | Ok blacklist_rules =>
          let log :=
            (map WhitelistCompileError white_failed
             ++ map BlacklistCompileError black_failed
             ++ [InitInfo (List.length blacklist_rules)
                          (List.length blacklist_patterns)
                          (List.length whitelist_rules)
                          (List.length whitelist_patterns)
                          whitelist_enabled]
             ++ (if List.length blacklist_rules
                    <? List.length blacklist_patterns
                 then [BlacklistWarning
                         (List.length blacklist_patterns
                          - List.length blacklist_rules)]
                 else []))%list in
          (Ok {| whitelist_patterns := whitelist_patterns;
                 blacklist_patterns := blacklist_patterns;
                 whitelist_enabled := whitelist_enabled;
                 whitelist_rules := whitelist_rules;
                 blacklist_rules := blacklist_rules |}, log)
      end
  end.

Definition hash : ascii := ascii_of_nat 35.

Definition _extract_main_command (command : string) : string :=
  let command := Py.strip command in
  let command :=
    if Py.contains "=" command && negb (Py.startswith "=" command) then
      let parts := Py.split_ws_1 command in
      if (1 <? List.length parts) && Py.contains "=" (Py.item parts 0)
         && negb (Py.startswith "=" (Py.item parts 0))
      then (if 1 <? List.length parts then Py.item parts 1 else command)
      else command
    else command in
  let command :=
    if Py.contains "#" command
    then Py.strip (Py.split_0 hash command)
    else command in
  Py.strip command.

(** [re.compile(r'^\s*rm\s+')]. *)
Definition rm_re : Re.re :=
  Re.Seq (Re.Star Re.Space)
         (Re.Seq (Re.word "rm") (Re.Seq Re.Space (Re.Star Re.Space))).

Definition rm_pattern : Re.Pattern := Re.of_re true rm_re.

Definition help_patterns : list string :=
  ["--help"; "--version"; "-h"; "-v"; "--usage"].

(** The category the source reports for a deletion command. *)
Definition deletion_command : string := "删除命令".

Definition check_dangerous_command (command : string) : bool * string :=
  let main_command := _extract_main_command command in
  if Re.re_match rm_pattern main_command then
    let command_lower := Py.lower main_command in
    if existsb (fun help_pattern => Py.contains help_pattern command_lower)
               help_patterns
    then (false, "")
    else (true, deletion_command)
  else (false, "").

Definition Decision : Type := (bool * string * option string)%type.

(** The blacklist loop of [is_allowed]: the pattern of the first rule
    that hits. The matchers of a compiled pattern raise nothing on a
    [str] subject, so the [except Exception] around them (log and go on
    to the next rule) has no case here. *)
Fixpoint blacklist_hit (rules : list Rule) (main_command : string)
  : option string :=
  match rules with
  | [] => None
  | (pattern, regex) :: rest =>
      if Py.startswith "^" pattern then
        if Re.re_match regex main_command then Some pattern
        else blacklist_hit rest main_command
      else
        if Re.re_match regex main_command then Some pattern
        else if Re.re_search regex main_command then Some pattern
        else blacklist_hit rest main_command
  end.

(** The whitelist loop of [is_allowed]. *)
Fixpoint whitelist_hit (rules : list Rule) (main_command : string) : bool :=
  match rules with
  | [] => false
  | (_, regex) :: rest =>
      if Re.re_match regex main_command || Re.re_search regex main_command
      then true
      else whitelist_hit rest main_command
  end.

Definition is_allowed (self : t) (command : string) : Decision :=
  let main_command := _extract_main_command command in
  match blacklist_hit (blacklist_rules self) main_command with
  | Some pattern =>
      (false, "命令被黑名单规则拒绝: " ++ pattern, Some pattern)
  | None =>
      if whitelist_enabled self then
        if whitelist_hit (whitelist_rules self) main_command
        then (true, "命令通过白名单检查", None)
        else (false, "命令不在白名单中", None)
      else (true, "命令通过过滤检查", None)
  end.

End CommandFilter.

(* ================================================================== *)
(** * Python dictionaries *)

(** A [dict] with [str] keys, in insertion order; every key occurs once. *)
Module Dict.

Definition t (V : Type) : Type := list (string * V).

Fixpoint get {V : Type} (d : t V) (k : string) : option V :=
  match d with
  | [] => None
  | (k', v) :: rest => if String.eqb k k' then Some v else get rest k
  end.

(** [d[k] = v]: the value is replaced in place, a new key goes last. *)
Fixpoint set {V : Type} (d : t V) (k : string) (v : V) : t V :=
  match d with
  | [] => [(k, v)]
  | (k', v') :: rest =>
      if String.eqb k k' then (k', v) :: rest else (k', v') :: set rest k v
  end.

(** [del d[k]] for a key of [d]. *)
Fixpoint del {V : Type} (d : t V) (k : string) : t V :=
  match d with
  | [] => []
  | (k', v) :: rest =>
      if String.eqb k k' then rest else (k', v) :: del rest k
  end.

(** [d.update(other)]. *)
Definition update {V : Type} (d other : t V) : t V :=
  fold_left (fun acc kv => set acc (fst kv) (snd kv)) other d.

Definition keys {V : Type} (d : t V) : list string := map fst d.

End Dict.

(** [bool(s)] for an optional string: [None] and the empty string are
    false. *)
Definition truthy_str (s : option string) : bool :=
  match s with
  | None | Some EmptyString => false
  | Some _ => true
  end.

(* ================================================================== *)
(** * class SessionManager *)

Module SessionManager.

(** An open [paramiko.SSHClient], by identity. *)
Definition Conn : Type := nat.

(** A session dictionary. [obj] is the identity of the dictionary
    object: two values with the same [obj] are the same Python object. *)
Record Session : Type := mkSession {
  obj : nat;
  host : option string;
  username : option string;
  ssh_client : option Conn;
  created : Z;
  last_used : Z;
  local_env : Dict.t string
}.

Record t : Type := mk {
  sessions : Dict.t Session;
  session_timeout : Z;
  next_obj : nat
}.

Definition __init__ (session_timeout : Z) : t :=
  {| sessions := []; session_timeout := session_timeout; next_obj := 0 |}.

(** [_cleanup_session]: the store after the call, and the connections
    whose [close()] was called. The bare [except: pass] drops whatever
    [close] raises. *)
Definition _cleanup_session (close : Conn -> result unit) (self : t)
           (session_id : string) : t * list Conn :=
  match Dict.get (sessions self) session_id with
  | Some session =>
      let closed :=
        match ssh_client session with
        | Some client =>
            match close client with
            | Ok _ => [client]
            | Raise _ => [client]
            end
        | None => []
        end in
      ({| sessions := Dict.del (sessions self) session_id;
          session_timeout := session_timeout self;
          next_obj := next_obj self |}, closed)
  | None => (self, [])
  end.

Definition is_expired (self : t) (current_time : Z) (session_data : Session)
  : bool :=
  (session_timeout self <? current_time - last_used session_data)%Z.

Definition expired_sessions (self : t) (current_time : Z) : list string :=
  map fst (filter (fun kv => is_expired self current_time (snd kv))
                  (sessions self)).

Fixpoint cleanup_all (close : Conn -> result unit) (self : t)
         (sids : list string) : t * list Conn :=
  match sids with
  | [] => (self, [])
  | sid :: rest =>
      let (self1, closed1) := _cleanup_session close self sid in
      let (self2, closed2) := cleanup_all close self1 rest in
      (self2, (closed1 ++ closed2)%list)
  end.

Definition touch (session : Session) (current_time : Z) : Session :=
  {| obj := obj session; host := host session;
     username := username session; ssh_client := ssh_client session;
     created := created session; last_used := current_time;
     local_env := local_env session |}.

(** The body of [get_session] under [with self.lock], for the clock
    reading [current_time]: the session returned, the store after the
    call and the connections closed by the sweep. *)
Definition get_session (close : Conn -> result unit) (self : t)
           (current_time : Z) (session_id : string)
           (host username : option string) : Session * t * list Conn :=
  let (self1, closed) :=
    cleanup_all close self (expired_sessions self current_time) in
  match Dict.get (sessions self1) session_id with
  | None =>
      let session :=
        {| obj := next_obj self1; host := host; username := username;
           ssh_client := None; created := current_time;
           last_used := current_time; local_env := [] |} in
      (session,
       {| sessions := Dict.set (sessions self1) session_id session;
          session_timeout := session_timeout self1;
          next_obj := S (next_obj self1) |},
       closed)
  | Some old =>
      let session := touch old current_time in
      (session,
       {| sessions := Dict.set (sessions self1) session_id session;
          session_timeout := session_timeout self1;
          next_obj := next_obj self1 |},
       closed)
  end.

(** A write through a session reference, [session[key] = value]: the
    dictionary object [o] changes wherever the store holds it. *)
Definition mutate (self : t) (o : nat) (f : Session -> Session) : t :=
  {| sessions :=
       map (fun kv => if obj (snd kv) =? o then (fst kv, f (snd kv)) else kv)
           (sessions self);
     session_timeout := session_timeout self;
     next_obj := next_obj self |}.

Definition set_ssh_client (client : Conn) (session : Session) : Session :=
  {| obj := obj session; host := host session;
     username := username session; ssh_client := Some client;
     created := created session; last_used := last_used session;
     local_env := local_env session |}.

Definition set_local_env (env : Dict.t string) (session : Session) : Session :=
  {| obj := obj session; host := host session;
     username := username session; ssh_client := ssh_client session;
     created := created session; last_used := last_used session;
     local_env := env |}.

End SessionManager.

(* ================================================================== *)
(** * Protocol values *)

(** [@dataclass ExecuteResult]. *)
Record ExecuteResult : Type := mkExecuteResult {
  stdout : string;
  stderr : string;
  exit_code : Z;
  execution_time : Z
}.

(** The dictionary a tool call returns: the text of its one content
    item, [isError], and the two keys only the confirmation answer
    carries. *)
Record ToolResult : Type := mkToolResult {
  text : string;
  isError : bool;
  requires_confirmation : option bool;
  dangerous_command : option string
}.

(** A JSON-RPC id that is not [null]. *)
Inductive Id : Type :=
| IdInt (z : Z)
| IdStr (s : string).

Inductive ResultBody : Type :=
| RInitialize                  (* protocolVersion, capabilities, serverInfo *)
| RTools                       (* {"tools": list(self.tools.values())} *)
| RPong (timestamp : Z)        (* {"status": "pong", "timestamp": ...} *)
| RTool (r : ToolResult).

Inductive Payload : Type :=
| PResult (b : ResultBody)
| PError (code : Z) (message : string).

(** A response dictionary ([jsonrpc] is always ["2.0"]). [resp_id] is
    [None] when the dictionary has no ["id"] key and [Some None] when
    the key holds [null]. *)
Record Response : Type := mkResponse {
  payload : Payload;
  resp_id : option (option Id)
}.

(** The arguments of [execute_command], typed as the tool's
    [inputSchema] declares them; [None] is a key the caller left out. *)
Record Args : Type := mkArgs {
  arg_command : option string;
  arg_host : option string;
  arg_username : option string;
  arg_password : option string;
  arg_key_file : option string;
  arg_port : option Z;
  arg_session : option string;
  arg_env : option (Dict.t string);
  arg_cwd : option string;
  arg_force_execute : option bool
}.

Record Params : Type := mkParams {
  name : option string;
  arguments : Args
}.

(** A key of a JSON object: not there, there with [null], or there
    with a value. *)
Inductive Field (A : Type) : Type :=
| Missing
| Null
| Value (a : A).
Arguments Missing {A}.
Arguments Null {A}.
Arguments Value {A} a.

(** A decoded request object. [jsonrpc] is [request.get("jsonrpc")] and
    [req_id] is [request.get("id")]: [None] when the key is missing or
    holds [null]. For the method the object itself is kept, since the
    POST handler asks whether the key is there. *)
Record Request : Type := mkRequest {
  jsonrpc : option string;
  method_field : Field string;
  params : Params;
  req_id : option Id
}.

(** [request.get("method")]. *)
Definition method (request : Request) : option string :=
  match method_field request with
  | Value m => Some m
  | Missing | Null => None
  end.

(** An open SSE stream response, by identity. *)
Definition Chan : Type := nat.

(* ================================================================== *)
(** * The world: oracles, state and the monad of effects *)

Inductive Event : Type :=
| EvSpawn (command : string) (env : Dict.t string) (cwd : option string)
| EvExecCommand (client : SessionManager.Conn) (full_command : string)
| EvConnect (host username : string) (port : Z)
| EvClose (client : SessionManager.Conn)
| EvPrint (line : Response)
| EvWrite (stream : Chan) (message : Response) (written : bool).

Module Sys.

(** A spawned shell: what [communicate()] gives and [returncode]. *)
Record Process : Type := mkProcess {
  communicate : result (string * string);
  returncode : option Z
}.

(** The environment of the server. The first argument of an oracle is
    the number of events before the call, so that equal calls at
    different moments may answer differently. *)
Record t : Type := mk {
  clock : nat -> Z;
  environ : Dict.t string;
  ssh_available : bool;              (* the module's [SSH_AVAILABLE] *)
  create_subprocess_shell :
    nat -> string -> Dict.t string -> option string -> result Process;
  decode : string -> string;
  exec_command :
    nat -> SessionManager.Conn -> string -> result (string * string * Z);
  create_ssh_client :
    nat -> string -> string -> option string -> option string -> Z
    -> result unit;
  transport_active : nat -> SessionManager.Conn -> bool;
  close : nat -> SessionManager.Conn -> result unit;
  format_2f : Z -> string;
  is_connection_alive : nat -> Chan -> bool;
  write : nat -> Chan -> Response -> result unit
}.

End Sys.

Record World : Type := mkWorld {
  reads : nat;                       (* readings of the clock so far *)
  trace : list Event;                (* oldest first *)
  session_manager : SessionManager.t;
  active_streams : Dict.t Chan;
  next_conn : SessionManager.Conn    (* the next new [SSHClient] object *)
}.

Definition M (A : Type) : Type := World -> result A * World.

Definition ret {A : Type} (a : A) : M A := fun w => (Ok a, w).

Definition bind {A B : Type} (m : M A) (k : A -> M B) : M B :=
  fun w =>
    match m w with
    | (Ok a, w') => k a w'
    | (Raise e, w') => (Raise e, w')
    end.

Definition raise {A : Type} (e : Exn.t) : M A := fun w => (Raise e, w).

(** [try: m  except Exception as e: handler e]. *)
Definition try_except {A : Type} (m : M A) (handler : Exn.t -> M A) : M A :=
  fun w =>
    match m w with
    | (Ok a, w') => (Ok a, w')
    | (Raise e, w') => handler e w'
    end.

Definition lift {A : Type} (r : result A) : M A := fun w => (r, w).

Declare Scope monad_scope.
Delimit Scope monad_scope with monad.
Notation "x <- m ;; k" := (bind m (fun x => k))
  (at level 61, m at next level, right associativity) : monad_scope.
Notation "m ;;; k" := (bind m (fun _ => k))
  (at level 61, right associativity) : monad_scope.
Local Open Scope monad_scope.

(** [time.time()]. *)
Definition time_time (sys : Sys.t) : M Z :=
  fun w =>
    (Ok (Sys.clock sys (reads w)),
     {| reads := S (reads w); trace := trace w;
        session_manager := session_manager w;
        active_streams := active_streams w;
        next_conn := next_conn w |}).

Definition emit (ev : Event) : M unit :=
  fun w =>
    (Ok tt,
     {| reads := reads w; trace := (trace w ++ [ev])%list;
        session_manager := session_manager w;
        active_streams := active_streams w;
        next_conn := next_conn w |}).

(** The number of events so far, the moment an oracle is asked at. *)
Definition moment : M nat := fun w => (Ok (List.length (trace w)), w).

Definition get_manager : M SessionManager.t :=
  fun w => (Ok (session_manager w), w).

Definition put_manager (sm : SessionManager.t) : M unit :=
  fun w =>
    (Ok tt,
     {| reads := reads w; trace := trace w; session_manager := sm;
        active_streams := active_streams w;
        next_conn := next_conn w |}).

(** A new [paramiko.SSHClient()]: an object no session holds yet. *)
Definition new_client : M SessionManager.Conn :=
  fun w =>
    (Ok (next_conn w),
     {| reads := reads w; trace := trace w;
        session_manager := session_manager w;
        active_streams := active_streams w;
        next_conn := S (next_conn w) |}).

Definition get_streams : M (Dict.t Chan) :=
  fun w => (Ok (active_streams w), w).

Definition put_streams (d : Dict.t Chan) : M unit :=
  fun w =>
    (Ok tt,
     {| reads := reads w; trace := trace w;
        session_manager := session_manager w; active_streams := d;
        next_conn := next_conn w |}).

Fixpoint emit_all (evs : list Event) : M unit :=
  match evs with
  | [] => ret tt
  | ev :: rest => emit ev ;;; emit_all rest
  end.

Definition nl : string := Py.chr 10.
Definition dq : string := Py.chr 34.

(** [sep.join(parts)]. *)
Fixpoint join (sep : string) (parts : list string) : string :=
  match parts with
  | [] => ""
  | [x] => x
  | x :: rest => x ++ sep ++ join sep rest
  end.

(* ================================================================== *)
(** * class LocalExecutor, class SSHExecutor *)

Module LocalExecutor.

Definition execute_command (sys : Sys.t) (command : string)
           (env : option (Dict.t string)) (cwd : option string)
  : M ExecuteResult :=
  start_time <- time_time sys ;;
  try_except
    (let exec_env := Sys.environ sys in
     let exec_env :=
       match env with
       | Some e => if CommandFilter.truthy e then Dict.update exec_env e
                   else exec_env
       | None => exec_env
       end in
     n <- moment ;;
     emit (EvSpawn command exec_env cwd) ;;;
     process <- lift (Sys.create_subprocess_shell sys n command exec_env cwd) ;;
     data <- lift (Sys.communicate process) ;;
     now <- time_time sys ;;
     let execution_time := (now - start_time)%Z in
     ret {| stdout := Sys.decode sys (fst data);
            stderr := Sys.decode sys (snd data);
            exit_code :=
              match Sys.returncode process with
              | Some code => if (code =? 0)%Z then 0%Z else code
              | None => 0%Z
              end;
            execution_time := execution_time |})
    (fun e =>
       now <- time_time sys ;;
       let execution_time := (now - start_time)%Z in
       ret {| stdout := "";
              stderr := "本地命令执行失败: " ++ Exn.str e;
              exit_code := 1%Z;
              execution_time := execution_time |}).

End LocalExecutor.

Module SSHExecutor.

Definition env_str (env : option (Dict.t string)) : string :=
  match env with
  | Some ((_ :: _) as e) =>
      join "; " (map (fun kv => "export " ++ fst kv ++ "='" ++ snd kv ++ "'") e)
      ++ "; "
  | _ => ""
  end.

Definition execute_command (sys : Sys.t) (ssh_client : SessionManager.Conn)
           (command : string) (env : option (Dict.t string))
  : M ExecuteResult :=
  start_time <- time_time sys ;;
  try_except
    (let full_command := env_str env ++ command in
     n <- moment ;;
     emit (EvExecCommand ssh_client full_command) ;;;
     data <- lift (Sys.exec_command sys n ssh_client full_command) ;;
     now <- time_time sys ;;
     let execution_time := (now - start_time)%Z in
     ret {| stdout := Sys.decode sys (fst (fst data));
            stderr := Sys.decode sys (snd (fst data));
            exit_code := snd data;
            execution_time := execution_time |})
    (fun e =>
       now <- time_time sys ;;
       let execution_time := (now - start_time)%Z in
       ret {| stdout := "";
              stderr := "SSH命令执行失败: " ++ Exn.str e;
              exit_code := 1%Z;
              execution_time := execution_time |}).

End SSHExecutor.

(* ================================================================== *)
(** * class TerminalMCPServer *)

Module TerminalMCPServer.

Record t : Type := mk {
  command_filter : CommandFilter.t
}.

(** [self.session_manager.get_session(...)], the clock read under the
    lock and the [close()] calls of the sweep recorded. *)
Definition get_session (sys : Sys.t) (session_id : string)
           (host username : option string) : M SessionManager.Session :=
  current_time <- time_time sys ;;
  n <- moment ;;
  sm <- get_manager ;;
  let '(session, sm', closed) :=
    SessionManager.get_session (Sys.close sys n) sm current_time
                               session_id host username in
  put_manager sm' ;;;
  emit_all (map EvClose closed) ;;;
  ret session.

Definition mutate_session (o : nat)
           (f : SessionManager.Session -> SessionManager.Session) : M unit :=
  sm <- get_manager ;;
  put_manager (SessionManager.mutate sm o f).

(** [SSHExecutor.create_ssh_client]: without [paramiko] it raises at
    once; else a new client object is made and returned when [connect]
    succeeds (the choice of the key file is the oracle's). When
    [connect] raises, the handler closes the client and raises the
    connection error; what that [close()] raises is not caught and
    goes out in its place. *)
Definition create_ssh_client (sys : Sys.t) (host username : string)
           (key_file password : option string) (port : Z)
  : M SessionManager.Conn :=
  if negb (Sys.ssh_available sys) then
    raise (Exn.mk Exn.Other
                  "SSH功能不可用，请安装paramiko: pip install paramiko")
  else
    client <- new_client ;;
    n <- moment ;;
    emit (EvConnect host username port) ;;;
    match Sys.create_ssh_client sys n host username key_file password port
    with
    | Ok _ => ret client
    | Raise e =>
        n' <- moment ;;
        emit (EvClose client) ;;;
        match Sys.close sys n' client with
        | Ok _ => raise (Exn.mk Exn.Other ("SSH连接失败: " ++ Exn.str e))
        | Raise e' => raise e'
        end
    end.

Definition _execute_remote_command (sys : Sys.t)
           (session : SessionManager.Session) (command host username : string)
           (password key_file : option string) (port : Z)
           (env : Dict.t string) : M ExecuteResult :=
  try_except
    (n <- moment ;;
     ssh_client <-
       match SessionManager.ssh_client session with
       | Some client =>
           if Sys.transport_active sys n client then ret client
           else
             client' <- create_ssh_client sys host username key_file
                                          password port ;;
             mutate_session (SessionManager.obj session)
                            (SessionManager.set_ssh_client client') ;;;
             ret client'
       | None =>
           client' <- create_ssh_client sys host username key_file
                                        password port ;;
           mutate_session (SessionManager.obj session)
                          (SessionManager.set_ssh_client client') ;;;
           ret client'
       end ;;
     SSHExecutor.execute_command sys ssh_client command (Some env))
    (fun e =>
       ret {| stdout := "";
              stderr := "远程命令执行失败: " ++ Exn.str e;
              exit_code := 1%Z;
              execution_time := 0%Z |}).

Definition _execute_local_command (sys : Sys.t)
           (session : SessionManager.Session) (command : string)
           (env : Dict.t string) (cwd : option string) : M ExecuteResult :=
  let session_env := Dict.update (SessionManager.local_env session) env in
  (* [session_env] is the session's own dictionary: the update shows in
     the store at once *)
  mutate_session (SessionManager.obj session)
                 (SessionManager.set_local_env session_env) ;;;
  result <- LocalExecutor.execute_command sys command (Some session_env) cwd ;;
  mutate_session (SessionManager.obj session)
                 (SessionManager.set_local_env session_env) ;;;
  ret result.

Definition warning_msg (command danger_type : string) : string :=
  "⚠️ **危险命令警告**" ++ nl ++ nl
  ++ "检测到危险操作：`" ++ command ++ "`" ++ nl ++ nl
  ++ "**命令类型**: " ++ danger_type ++ nl
  ++ "**风险说明**: 此操作可能导致数据丢失或系统损坏" ++ nl ++ nl
  ++ "**如需执行此命令，请确认后使用 `force_execute=true` 参数重新提交。**"
  ++ nl ++ nl
  ++ "示例：" ++ nl
  ++ "```json" ++ nl
  ++ "{" ++ nl
  ++ "  " ++ dq ++ "command" ++ dq ++ ": " ++ dq ++ command ++ dq ++ "," ++ nl
  ++ "  " ++ dq ++ "force_execute" ++ dq ++ ": true" ++ nl
  ++ "}" ++ nl
  ++ "```".

Definition is_blank (s : string) : bool :=
  match Py.strip s with EmptyString => true | _ => false end.

(** The text of a finished execution. *)
Definition format_output (sys : Sys.t) (result : ExecuteResult) : string :=
  let stdout_part :=
    if is_blank (stdout result) then []
    else ["标准输出:" ++ nl ++ stdout result] in
  let stderr_part :=
    if is_blank (stderr result) then []
    else ["标准错误:" ++ nl ++ stderr result] in
  let output_parts :=
    List.app stdout_part
      (List.app stderr_part
         ["退出码: " ++ Py.Z_to_str (exit_code result);
          "执行时间: " ++ Sys.format_2f sys (execution_time result) ++ "秒"])
  in
  join (nl ++ nl) output_parts.

Definition default {A : Type} (o : option A) (d : A) : A :=
  match o with Some a => a | None => d end.

(** The part of [_execute_command] after the two checks: the session
    is resolved and the command handed to an executor. *)
Definition run_command (sys : Sys.t) (command : string) (args : Args)
  : M ToolResult :=
  let host := arg_host args in
  let username := arg_username args in
  let session_id := default (arg_session args) "default" in
  let env := default (arg_env args) [] in
  session <- get_session sys session_id host username ;;
  if truthy_str host then
    if negb (truthy_str username) then
      ret {| text := "远程执行需要提供username参数"; isError := true;
             requires_confirmation := None; dangerous_command := None |}
    else
      result <- _execute_remote_command sys session command
                  (default host "") (default username "")
                  (arg_password args) (arg_key_file args)
                  (default (arg_port args) 22%Z) env ;;
      ret {| text := format_output sys result;
             isError := negb (exit_code result =? 0)%Z;
             requires_confirmation := None; dangerous_command := None |}
  else
    result <- _execute_local_command sys session command env (arg_cwd args) ;;
    ret {| text := format_output sys result;
           isError := negb (exit_code result =? 0)%Z;
           requires_confirmation := None; dangerous_command := None |}.

Definition _execute_command (sys : Sys.t) (self : t) (args : Args)
  : M ToolResult :=
  try_except
    (command <-
       match arg_command args with
       | Some c => ret c
       | None => raise (Exn.mk Exn.KeyError "'command'")
       end ;;
     let force_execute := default (arg_force_execute args) false in
     match
       (if negb force_execute then
          let (needs_confirmation, danger_type) :=
            CommandFilter.check_dangerous_command command in
          if needs_confirmation then
            Some {| text := warning_msg command danger_type;
                    isError := false;
                    requires_confirmation := Some true;
                    dangerous_command := Some command |}
          else None
        else None)
     with
     | Some confirmation => ret confirmation
     | None =>
         match
           (if force_execute then None
            else
              let '(allowed, reason, matched_rule) :=
                CommandFilter.is_allowed (command_filter self) command in
              if negb allowed then
                Some {| text := "命令被拒绝执行: " ++ reason;
                        isError := true;
                        requires_confirmation := None;
                        dangerous_command := None |}
              else None)
         with
         | Some denial => ret denial
         | None => run_command sys command args
         end
     end)
    (fun e =>
       ret {| text := "命令执行失败: " ++ Exn.str e; isError := true;
              requires_confirmation := None; dangerous_command := None |}).

Definition _handle_initialize (params : Params) : M Response :=
  ret {| payload := PResult RInitialize; resp_id := None |}.

Definition _handle_list_tools : M Response :=
  ret {| payload := PResult RTools; resp_id := None |}.

Definition _handle_ping (sys : Sys.t) (params : Params) : M Response :=
  timestamp <- time_time sys ;;
  ret {| payload := PResult (RPong timestamp); resp_id := None |}.

(** [f"{x}"] for an optional string. *)
Definition fmt (o : option string) : string := default o "None".

Definition is_name (o : option string) (s : string) : bool :=
  match o with Some x => String.eqb x s | None => false end.

Definition _handle_call_tool (sys : Sys.t) (self : t) (params : Params)
  : M Response :=
  let tool_name := name params in
  let arguments := arguments params in
  if is_name tool_name "execute_command" || is_name tool_name "execute" then
    result <- _execute_command sys self arguments ;;
    ret {| payload := PResult (RTool result); resp_id := None |}
  else if is_name tool_name "get_tools" then
    ret {| payload := PResult RTools; resp_id := None |}
  else
    ret {| payload := PError (-32602) ("Unknown tool: " ++ fmt tool_name);
           resp_id := None |}.

(** [if request_id is not None: response["id"] = request_id]. *)
Definition with_id (request_id : option Id) (response : Response) : Response :=
  match request_id with
  | Some i => {| payload := payload response; resp_id := Some (Some i) |}
  | None => response
  end.

Definition handle_request (sys : Sys.t) (self : t) (request : Request)
  : M (option Response) :=
  try_except
    (let method := method request in
     let params := params request in
     let request_id := req_id request in
     if is_name method "initialize" then
       response <- _handle_initialize params ;;
       ret (Some (with_id request_id response))
     else if is_name method "tools/list" then
       response <- _handle_list_tools ;;
       ret (Some (with_id request_id response))
     else if is_name method "tools/call" then
       response <- _handle_call_tool sys self params ;;
       ret (Some (with_id request_id response))
     else if is_name method "ping" then
       match request_id with
       | Some _ =>
           response <- _handle_ping sys params ;;
           ret (Some (with_id request_id response))
       | None => ret None
       end
     else
       ret (Some (with_id request_id
                    {| payload :=
                         PError (-32601) ("Method not found: " ++ fmt method);
                       resp_id := None |})))
    (fun e =>
       ret (Some (with_id (req_id request)
                    {| payload :=
                         PError (-32603) ("Internal error: " ++ Exn.str e);
                       resp_id := None |}))).

End TerminalMCPServer.

(* ================================================================== *)
(** * class StdioTransport *)

Module StdioTransport.

(** One turn of the loop of [start] for a line taken off the queue.
    [loads] is [json.loads] on a text that holds a JSON object, if it
    holds JSON at all. Its [JSONDecodeError] is answered with a parse
    error; a turn that raises anything else is abandoned
    ([except Exception: continue]). *)
Definition on_line (sys : Sys.t) (server : TerminalMCPServer.t)
           (loads : string -> result Request) (line : string) : M unit :=
  try_except
    (match line with
     | EmptyString => ret tt
     | _ =>
         let line := Py.strip line in
         match line with
         | EmptyString => ret tt
         | _ =>
             match loads line with
             | Raise e =>
                 match Exn.class e with
                 | Exn.JSONDecodeError =>
                     emit (EvPrint
                             {| payload :=
                                  PError (-32700)
                                         ("Parse error: " ++ Exn.str e);
                                resp_id := Some None |})
                 | _ => raise e
                 end
             | Ok request =>
                 response <-
                   TerminalMCPServer.handle_request sys server request ;;
                 match response with
                 | Some r => emit (EvPrint r)
                 | None => ret tt
                 end
             end
         end
     end)
    (fun _ => ret tt).

(** The lines a run has written to the standard output. *)
Definition printed (w : World) : list Response :=
  flat_map (fun ev => match ev with EvPrint r => [r] | _ => [] end) (trace w).

End StdioTransport.

(* ================================================================== *)
(** * class SSETransport *)

Module SSETransport.

(** What [_handle_mcp_message] answers: the status and the JSON body
    ([None] for a response without a body). *)
Record HttpResponse : Type := mkHttp {
  status : nat;
  body : option Response
}.

(** [_send_sse_message]: the event is written to the stream, and what
    [response.write] raises is raised again. *)
Definition _send_sse_message (sys : Sys.t) (response : Chan)
           (data : Response) : M unit :=
  n <- moment ;;
  match Sys.write sys n response data with
  | Ok _ => emit (EvWrite response data true)
  | Raise e => emit (EvWrite response data false) ;;; raise e
  end.

Definition mentions_closed (e : Exn.t) : bool :=
  let error_msg := Py.lower (Exn.str e) in
  Py.contains "closing" error_msg || Py.contains "closed" error_msg
  || Py.contains "write" error_msg.

(** The first loop of [_broadcast_message] over the snapshot
    [list(self.active_streams.items())]: the streams marked dead. *)
Fixpoint broadcast_loop (sys : Sys.t) (items : list (string * Chan))
         (message : Response) (dead_streams : list string)
  : M (list string) :=
  match items with
  | [] => ret dead_streams
  | (stream_id, response) :: rest =>
      dead_streams' <-
        try_except
          (n <- moment ;;
           if negb (Sys.is_connection_alive sys n response) then
             ret (dead_streams ++ [stream_id])%list
           else
             _send_sse_message sys response message ;;;
             ret dead_streams)
          (fun e =>
             if Exn.is_connection_error e then
               ret (dead_streams ++ [stream_id])%list
             else if mentions_closed e then
               ret (dead_streams ++ [stream_id])%list
             else ret dead_streams) ;;
      broadcast_loop sys rest message dead_streams'
  end.

(** The second loop: [if stream_id in self.active_streams: del ...]. *)
Fixpoint remove_dead (streams : Dict.t Chan) (dead_streams : list string)
  : Dict.t Chan :=
  match dead_streams with
  | [] => streams
  | stream_id :: rest =>
      match Dict.get streams stream_id with
      | Some _ => remove_dead (Dict.del streams stream_id) rest
      | None => remove_dead streams rest
      end
  end.

Definition _broadcast_message (sys : Sys.t) (message : Response) : M unit :=
  streams <- get_streams ;;
  if negb (CommandFilter.truthy streams) then ret tt
  else
    dead_streams <- broadcast_loop sys streams message [] ;;
    streams' <- get_streams ;;
    put_streams (remove_dead streams' dead_streams).

Definition error_body (code : Z) (message : string) (data : Request)
  : Response :=
  {| payload := PError code message; resp_id := Some (req_id data) |}.

(** [_handle_mcp_message] for a body that parsed to the object [data]. *)
Definition _handle_mcp_message (sys : Sys.t) (server : TerminalMCPServer.t)
           (data : Request) : M HttpResponse :=
  try_except
    (match jsonrpc data with
     | Some "2.0" => ret tt
     | _ => raise (Exn.mk Exn.ValueError "必须指定 jsonrpc: '2.0'")
     end ;;;
     match method_field data with
     | Missing => raise (Exn.mk Exn.ValueError "缺少 method 字段")
     | Null | Value _ => ret tt
     end ;;;
     let request_id := req_id data in
     response_data <- TerminalMCPServer.handle_request sys server data ;;
     match response_data with
     | None => ret {| status := 204; body := None |}
     | Some response_data =>
         let response_data :=
           match resp_id response_data with
           | None => TerminalMCPServer.with_id request_id response_data
           | Some _ => response_data
           end in
         streams <- get_streams ;;
         (if CommandFilter.truthy streams
          then _broadcast_message sys response_data
          else ret tt) ;;;
         ret {| status := 200; body := Some response_data |}
     end)
    (fun e =>
       match Exn.class e with
       | Exn.JSONDecodeError =>
           ret {| status := 400;
                  body := Some {| payload :=
                                    PError (-32700)
                                           ("Parse error: " ++ Exn.str e);
                                  resp_id := Some None |} |}
       | Exn.ValueError =>
           ret {| status := 400;
                  body := Some (error_body (-32600)
                                  ("Invalid Request: " ++ Exn.str e) data) |}
       | _ =>
           ret {| status := 500;
                  body := Some (error_body (-32603)
                                  ("Internal error: " ++ Exn.str e) data) |}
       end).

(** The streams a run has written a message to. *)
Definition delivered (w : World) : list Chan :=
  flat_map (fun ev =>
              match ev with
              | EvWrite c _ true => [c]
              | _ => []
              end) (trace w).

End SSETransport.

(* ================================================================== *)
(** * Notions for the statements, and the machines of the examples *)

(** No character of [s] is white space. *)
Fixpoint all_space (s : string) : bool :=
  match s with
  | EmptyString => true
  | String a t => Py.isspace a && all_space t
  end.

(** [s] does not start with white space. *)
Definition no_lead (s : string) : bool :=
  match s with
  | EmptyString => true
  | String a _ => negb (Py.isspace a)
  end.

(** The test of [_extract_main_command] for a leading assignment, on
    the trimmed command. *)
Definition strips_assignment (s : string) : bool :=
  Py.contains "=" s && negb (Py.startswith "=" s)
  && ((1 <? List.length (Py.split_ws_1 s))
      && Py.contains "=" (Py.item (Py.split_ws_1 s) 0)
      && negb (Py.startswith "=" (Py.item (Py.split_ws_1 s) 0))).

(** The trimmed command without its leading assignment token. *)
Definition drop_assignment (s : string) : string :=
  if strips_assignment s then Py.item (Py.split_ws_1 s) 1 else s.

(** [p] occurs in [s]. *)
Definition occurs (p s : string) : Prop := exists u v, s = u ++ p ++ v.

(** [m] begins with [rm] and a white space character. *)
Definition begins_with_rm (m : string) : Prop :=
  exists w rest, m = "rm" ++ String w rest /\ Py.isspace w = true.

(** A deny rule matches: at the start only when the pattern begins with
    [^], at the start or anywhere otherwise. *)
Definition deny_matches (rule : CommandFilter.Rule) (m : string) : bool :=
  if Py.startswith "^" (fst rule) then Re.re_match (snd rule) m
  else Re.re_match (snd rule) m || Re.re_search (snd rule) m.

(** An allow rule matches: at the start or anywhere. *)
Definition allow_matches (rule : CommandFilter.Rule) (m : string) : bool :=
  Re.re_match (snd rule) m || Re.re_search (snd rule) m.

Definition denied_by (pattern : string) : CommandFilter.Decision :=
  (false, "命令被黑名单规则拒绝: " ++ pattern, Some pattern).

Definition allowed (d : CommandFilter.Decision) : bool := fst (fst d).

(** The rules of [patterns] that compile, in order. *)
Definition compiled (compile : string -> Re.Compile)
           (patterns : list string) : list CommandFilter.Rule :=
  flat_map (fun p => match compile p with
                     | Re.Compiled regex => [(p, regex)]
                     | Re.Error | Re.Raises _ => []
                     end) patterns.

(** The exception of the first of [patterns] on which [re.compile]
    raises something else than [re.error], if there is one. *)
Fixpoint crash_of (compile : string -> Re.Compile) (patterns : list string)
  : option Exn.t :=
  match patterns with
  | [] => None
  | p :: rest =>
      match compile p with
      | Re.Raises e => Some e
      | Re.Compiled _ | Re.Error => crash_of compile rest
      end
  end.

(** [re.compile(p)] raises [re.error]. *)
Definition fails (compile : string -> Re.Compile) (p : string) : bool :=
  match compile p with Re.Error => true | _ => false end.

(** The filter a construction that returns builds, and its log. *)
Definition built (compile : string -> Re.Compile)
           (config : CommandFilter.Config) : CommandFilter.t :=
  {| CommandFilter.whitelist_patterns := CommandFilter.whitelist config;
     CommandFilter.blacklist_patterns := CommandFilter.blacklist config;
     CommandFilter.whitelist_enabled :=
       CommandFilter.truthy (CommandFilter.whitelist config);
     CommandFilter.whitelist_rules :=
       compiled compile (CommandFilter.whitelist config);
     CommandFilter.blacklist_rules :=
       compiled compile (CommandFilter.blacklist config) |}.

Definition build_log (compile : string -> Re.Compile)
           (config : CommandFilter.Config) : list CommandFilter.LogEntry :=
  let white := CommandFilter.whitelist config in
  let black := CommandFilter.blacklist config in
  (map CommandFilter.WhitelistCompileError (filter (fails compile) white)
   ++ map CommandFilter.BlacklistCompileError (filter (fails compile) black)
   ++ [CommandFilter.InitInfo
         (List.length (compiled compile black)) (List.length black)
         (List.length (compiled compile white)) (List.length white)
         (CommandFilter.truthy white)]
   ++ (if List.length (compiled compile black) <? List.length black
       then [CommandFilter.BlacklistWarning
               (List.length black - List.length (compiled compile black))]
       else []))%list.

(** [re.compile] on the patterns of the examples below; the pattern
    ["("] is one that raises [re.error], and the repeat count of
    ["a{99999999999999999999}"] makes it raise [OverflowError]. A
    pattern that is not listed is treated as one that raises
    [re.error]. *)
Definition compile_table (pattern : string) : Re.Compile :=
  if String.eqb pattern "df"
  then Re.Compiled (Re.of_re false (Re.word "df"))
  else if String.eqb pattern "ip"
  then Re.Compiled (Re.of_re false (Re.word "ip"))
  else if String.eqb pattern "ifconfig"
  then Re.Compiled (Re.of_re false (Re.word "ifconfig"))
  else if String.eqb pattern "^\s*shutdown"
  then Re.Compiled
         (Re.of_re true (Re.Seq (Re.Star Re.Space) (Re.word "shutdown")))
  else if String.eqb pattern ".*;\s*rm\s+-rf"
  then Re.Compiled
         (Re.of_re false
            (Re.Seq (Re.Star Re.Dot)
               (Re.Seq (Re.Chr ";")
                  (Re.Seq (Re.Star Re.Space)
                     (Re.Seq (Re.word "rm")
                        (Re.Seq Re.Space
                           (Re.Seq (Re.Star Re.Space)
                                   (Re.word "-rf"))))))))
  else if String.eqb pattern "a{99999999999999999999}"
  then Re.Raises (Exn.mk Exn.Other "the repetition number is too large")
  else Re.Error.

(** The policy of the examples: two deny rules and the allow list of
    the default configuration. *)
Definition example_config : CommandFilter.Config :=
  {| CommandFilter.whitelist := ["ifconfig"; "ip"; "df"];
     CommandFilter.blacklist := [".*;\s*rm\s+-rf"; "^\s*shutdown"] |}.

(** The filter [CommandFilter(example_config)] builds. *)
Definition example_filter : CommandFilter.t :=
  {| CommandFilter.whitelist_patterns :=
       CommandFilter.whitelist example_config;
     CommandFilter.blacklist_patterns :=
       CommandFilter.blacklist example_config;
     CommandFilter.whitelist_enabled := true;
     CommandFilter.whitelist_rules :=
       compiled compile_table (CommandFilter.whitelist example_config);
     CommandFilter.blacklist_rules :=
       compiled compile_table (CommandFilter.blacklist example_config) |}.


(** The result an executor builds from an exception. *)
Definition failure (label : string) (e : Exn.t) (elapsed : Z) : ExecuteResult :=
  {| stdout := ""; stderr := label ++ Exn.str e; exit_code := 1%Z;
     execution_time := elapsed |}.

(** The environment a local command runs in. *)
Definition exec_env (sys : Sys.t) (env : option (Dict.t string))
  : Dict.t string :=
  match env with
  | Some ((_ :: _) as e) => Dict.update (Sys.environ sys) e
  | _ => Sys.environ sys
  end.

(** The store as Python keeps it: every key once, every session
    dictionary an object made before [next_obj], and no client held by
    two sessions. *)
Definition clients (d : Dict.t SessionManager.Session)
  : list SessionManager.Conn :=
  flat_map (fun kv => match SessionManager.ssh_client (snd kv) with
                      | Some client => [client]
                      | None => []
                      end) d.

Record store_ok (self : SessionManager.t) : Prop := mk_store_ok {
  keys_once : NoDup (Dict.keys (SessionManager.sessions self));
  objs_made : Forall (fun kv => SessionManager.obj (snd kv)
                                < SessionManager.next_obj self)
                     (SessionManager.sessions self);
  clients_once : NoDup (clients (SessionManager.sessions self))
}.

Definition with_sessions (self : SessionManager.t)
           (d : Dict.t SessionManager.Session) : SessionManager.t :=
  {| SessionManager.sessions := d;
     SessionManager.session_timeout := SessionManager.session_timeout self;
     SessionManager.next_obj := SessionManager.next_obj self |}.

Definition client_of (kv : string * SessionManager.Session)
  : list SessionManager.Conn :=
  match SessionManager.ssh_client (snd kv) with
  | Some client => [client]
  | None => []
  end.

(** The sessions that outlive the sweep at [now], the clients the
    sweep closes, and a session made at [now]. *)
Definition kept (self : SessionManager.t) (now : Z)
  : Dict.t SessionManager.Session :=
  filter (fun kv => negb (SessionManager.is_expired self now (snd kv)))
         (SessionManager.sessions self).

Definition swept (self : SessionManager.t) (now : Z)
  : list SessionManager.Conn :=
  clients (filter (fun kv => SessionManager.is_expired self now (snd kv))
                  (SessionManager.sessions self)).

Definition fresh_session (self : SessionManager.t) (now : Z)
           (host username : option string) : SessionManager.Session :=
  {| SessionManager.obj := SessionManager.next_obj self;
     SessionManager.host := host;
     SessionManager.username := username;
     SessionManager.ssh_client := None;
     SessionManager.created := now;
     SessionManager.last_used := now;
     SessionManager.local_env := [] |}.

Definition confirmation (command : string) : ToolResult :=
  {| text := TerminalMCPServer.warning_msg command
               CommandFilter.deletion_command;
     isError := false;
     requires_confirmation := Some true;
     dangerous_command := Some command |}.

(** A filter whose one deny rule matches every command. *)
Definition deny_all : CommandFilter.t :=
  {| CommandFilter.whitelist_patterns := [];
     CommandFilter.blacklist_patterns := [".*"];
     CommandFilter.whitelist_enabled := false;
     CommandFilter.whitelist_rules := [];
     CommandFilter.blacklist_rules :=
       [(".*", Re.of_re false (Re.Star Re.Dot))] |}.

(** An executor was invoked: a shell was spawned, a command sent over
    SSH or a connection attempted. *)
Definition is_execution (ev : Event) : bool :=
  match ev with
  | EvSpawn _ _ _ | EvExecCommand _ _ | EvConnect _ _ _ => true
  | _ => false
  end.

(** A machine for the examples: the clock counts its readings, every
    shell command prints nothing and exits with 0, every SSH connection
    is refused, and every write to a stream succeeds. *)
Definition example_sys : Sys.t :=
  {| Sys.clock := fun k => Z.of_nat k;
     Sys.environ := [("PATH", "/usr/bin:/bin")];
     Sys.ssh_available := true;
     Sys.create_subprocess_shell :=
       fun _ _ _ _ => Ok {| Sys.communicate := Ok ("", "");
                            Sys.returncode := Some 0%Z |};
     Sys.decode := fun b => b;
     Sys.exec_command :=
       fun _ _ _ => Raise (Exn.mk Exn.OSError "Socket is closed");
     Sys.create_ssh_client :=
       fun _ _ _ _ _ _ => Raise (Exn.mk Exn.OSError "Connection refused");
     Sys.transport_active := fun _ _ => false;
     Sys.close := fun _ _ => Ok tt;
     Sys.format_2f := fun t => Py.Z_to_str t ++ ".00";
     Sys.is_connection_alive := fun _ _ => true;
     Sys.write := fun _ _ _ => Ok tt |}.

Definition empty_world : World :=
  {| reads := 0; trace := [];
     session_manager := SessionManager.__init__ 1200%Z;
     active_streams := []; next_conn := 0 |}.

Definition just_command (command : string) (force : option bool) : Args :=
  {| arg_command := Some command; arg_host := None; arg_username := None;
     arg_password := None; arg_key_file := None; arg_port := None;
     arg_session := None; arg_env := None; arg_cwd := None;
     arg_force_execute := force |}.

(** [m] returns a value in every world. *)
Definition total {A : Type} (m : M A) : Prop :=
  forall w, exists a w', m w = (Ok a, w').

Definition no_args : Args :=
  {| arg_command := None; arg_host := None; arg_username := None;
     arg_password := None; arg_key_file := None; arg_port := None;
     arg_session := None; arg_env := None; arg_cwd := None;
     arg_force_execute := None |}.

(** [request.get("params", {})] of a request without parameters. *)
Definition no_params : Params := {| name := None; arguments := no_args |}.

Definition example_server : TerminalMCPServer.t :=
  {| TerminalMCPServer.command_filter := example_filter |}.

(** The world [w] after one more line on the standard output. *)
Definition after_print (w : World) (r : Response) : World :=
  snd (emit (EvPrint r) w).

(** An [initialize] request without an id, and the line it comes in. *)
Definition initialize_notification : Request :=
  {| jsonrpc := Some "2.0"; method_field := Value "initialize";
     params := no_params; req_id := None |}.

Definition initialize_line : string :=
  "{" ++ dq ++ "jsonrpc" ++ dq ++ ": " ++ dq ++ "2.0" ++ dq ++ ", "
  ++ dq ++ "method" ++ dq ++ ": " ++ dq ++ "initialize" ++ dq ++ "}".

Definition ping_notification : Request :=
  {| jsonrpc := Some "2.0"; method_field := Value "ping";
     params := no_params; req_id := None |}.

Definition ping_line : string :=
  "{" ++ dq ++ "jsonrpc" ++ dq ++ ": " ++ dq ++ "2.0" ++ dq ++ ", "
  ++ dq ++ "method" ++ dq ++ ": " ++ dq ++ "ping" ++ dq ++ "}".

(** [json.loads] on the two lines of the examples. *)
Definition example_loads (line : string) : result Request :=
  if String.eqb line initialize_line then Ok initialize_notification
  else if String.eqb line ping_line then Ok ping_notification
  else Raise (Exn.mk Exn.JSONDecodeError
                     "Expecting value: line 1 column 1 (char 0)").

(** A decoder that runs out of stack on every line: [json.loads] raises
    [RecursionError], which is no [json.JSONDecodeError]. *)
Definition deep_loads (line : string) : result Request :=
  Raise (Exn.mk Exn.RuntimeError "maximum recursion depth exceeded").

(** What happens to one stream in a broadcast. *)
Inductive fate : Type :=
| Delivered           (* the write succeeded *)
| Dead_probe          (* [_is_connection_alive] said no: nothing written *)
| Dead_write          (* the write failed and the stream is marked dead *)
| Kept_after_error.   (* the write failed and the stream is only logged *)

(** The fate of the stream [response] when it is reached at the moment
    [n]. *)
Definition fate_at (sys : Sys.t) (n : nat) (response : Chan)
           (message : Response) : fate :=
  if negb (Sys.is_connection_alive sys n response) then Dead_probe
  else match Sys.write sys n response message with
       | Ok _ => Delivered
       | Raise e =>
           if Exn.is_connection_error e || SSETransport.mentions_closed e
           then Dead_write else Kept_after_error
       end.

Definition stays (f : fate) : bool :=
  match f with
  | Delivered | Kept_after_error => true
  | Dead_probe | Dead_write => false
  end.

Definition event_of (message : Response) (x : string * Chan * fate)
  : list Event :=
  match snd x with
  | Delivered => [EvWrite (snd (fst x)) message true]
  | Dead_probe => []
  | Dead_write | Kept_after_error => [EvWrite (snd (fst x)) message false]
  end.

Definition dropped (fates : list (string * Chan * fate)) : list string :=
  map (fun x => fst (fst x)) (filter (fun x => negb (stays (snd x))) fates).

Definition with_events (w : World) (evs : list Event) : World :=
  {| reads := reads w; trace := (trace w ++ evs)%list;
     session_manager := session_manager w;
     active_streams := active_streams w;
     next_conn := next_conn w |}.


(** Three open streams. *)
Definition three_streams : World :=
  {| reads := 0; trace := [];
     session_manager := SessionManager.__init__ 1200%Z;
     active_streams := [("a", 1); ("b", 2); ("c", 3)];
     next_conn := 0 |}.


(** The filter of a configuration, when its construction returns. *)
Definition filter_of (compile : string -> Re.Compile)
           (white black : list string) : result CommandFilter.t :=
  fst (CommandFilter.__init__
         compile {| CommandFilter.whitelist := white;
                    CommandFilter.blacklist := black |}).

(** The decision was taken by a deny rule. *)
Definition denied_by_rule (d : CommandFilter.Decision) : bool :=
  match snd d with Some _ => true | None => false end.

(** The text one entry of [env] puts before a remote command. *)
Definition export_of (kv : string * string) : string :=
  "export " ++ fst kv ++ "='" ++ snd kv ++ "'; ".

(** The connections [_cleanup_session] closes for a session. *)
Definition session_clients (session : option SessionManager.Session)
  : list SessionManager.Conn :=
  match session with
  | Some s => match SessionManager.ssh_client s with
              | Some client => [client]
              | None => []
              end
  | None => []
  end.

(** The world after one call of an executor: the clock was read twice
    and the one event [ev] recorded. *)
Definition after_call (w : World) (ev : Event) : World :=
  {| reads := S (S (reads w)); trace := (trace w ++ [ev])%list;
     session_manager := session_manager w;
     active_streams := active_streams w;
     next_conn := next_conn w |}.

(** [e] if the key is in [later], else what [earlier] has. *)
Definition overlay (later earlier : option string) : option string :=
  match later with Some v => Some v | None => earlier end.

(** The world with another session store. *)
Definition with_manager (w : World) (sm : SessionManager.t) : World :=
  {| reads := reads w; trace := trace w; session_manager := sm;
     active_streams := active_streams w; next_conn := next_conn w |}.

(** A machine on which the transport of the client 7 is alive and every
    connection succeeds; the rest is [example_sys]. *)
Definition online_sys : Sys.t :=
  {| Sys.clock := Sys.clock example_sys;
     Sys.environ := Sys.environ example_sys;
     Sys.ssh_available := true;
     Sys.create_subprocess_shell := Sys.create_subprocess_shell example_sys;
     Sys.decode := Sys.decode example_sys;
     Sys.exec_command := fun _ _ _ => Ok ("", "", 0%Z);
     Sys.create_ssh_client := fun _ _ _ _ _ _ => Ok tt;
     Sys.transport_active := fun _ client => client =? 7;
     Sys.close := Sys.close example_sys;
     Sys.format_2f := Sys.format_2f example_sys;
     Sys.is_connection_alive := Sys.is_connection_alive example_sys;
     Sys.write := Sys.write example_sys |}.

(** [example_sys] without [paramiko]: [SSH_AVAILABLE] is false. *)
Definition offline_sys : Sys.t :=
  {| Sys.clock := Sys.clock example_sys;
     Sys.environ := Sys.environ example_sys;
     Sys.ssh_available := false;
     Sys.create_subprocess_shell := Sys.create_subprocess_shell example_sys;
     Sys.decode := Sys.decode example_sys;
     Sys.exec_command := Sys.exec_command example_sys;
     Sys.create_ssh_client := Sys.create_ssh_client example_sys;
     Sys.transport_active := Sys.transport_active example_sys;
     Sys.close := Sys.close example_sys;
     Sys.format_2f := Sys.format_2f example_sys;
     Sys.is_connection_alive := Sys.is_connection_alive example_sys;
     Sys.write := Sys.write example_sys |}.

(** A session that holds the client 7, and the store that holds it. *)
Definition session_seven : SessionManager.Session :=
  {| SessionManager.obj := 0; SessionManager.host := Some "alpha";
     SessionManager.username := Some "root";
     SessionManager.ssh_client := Some 7;
     SessionManager.created := 0%Z; SessionManager.last_used := 0%Z;
     SessionManager.local_env := [("LANG", "C")] |}.

Definition world_seven : World :=
  {| reads := 0; trace := [];
     session_manager :=
       {| SessionManager.sessions := [("default", session_seven)];
          SessionManager.session_timeout := 1200%Z;
          SessionManager.next_obj := 1 |};
     active_streams := []; next_conn := 8 |}.

(** The session holds no client with a live transport at the moment of
    [w]: [_execute_remote_command] has to connect. *)
Definition needs_connection (sys : Sys.t) (w : World)
           (session : SessionManager.Session) : bool :=
  match SessionManager.ssh_client session with
  | Some client =>
      negb (Sys.transport_active sys (List.length (trace w)) client)
  | None => true
  end.

(** A session that holds no client. *)
Definition session_zero : SessionManager.Session :=
  fresh_session (session_manager empty_world) 0%Z (Some "alpha") (Some "root").

(** The tool result that reports an error with [text]. *)
Definition tool_error (text : string) : ToolResult :=
  {| text := text; isError := true;
     requires_confirmation := None; dangerous_command := None |}.

(** The request names the tool [execute_command], under either name. *)
Definition calls_execute (request : Request) : bool :=
  TerminalMCPServer.is_name (method request) "tools/call"
  && (TerminalMCPServer.is_name (name (params request)) "execute_command"
      || TerminalMCPServer.is_name (name (params request)) "execute").

(** A [tools/call] request for [execute_command] with the arguments
    [args]. *)
Definition call_execute (args : Args) (request_id : option Id) : Request :=
  {| jsonrpc := Some "2.0"; method_field := Value "tools/call";
     params := {| name := Some "execute_command"; arguments := args |};
     req_id := request_id |}.

(** The exit code of a local execution whose shell is spawned at the
    moment [n]: 1 when the spawn or [communicate] raises, else the
    return code, 0 when there is none. *)
Definition local_exit (sys : Sys.t) (n : nat) (command : string)
           (env : Dict.t string) (cwd : option string) : Z :=
  match Sys.create_subprocess_shell sys n command env cwd with
  | Raise _ => 1%Z
  | Ok process =>
      match Sys.communicate process with
      | Raise _ => 1%Z
      | Ok _ => match Sys.returncode process with
                | Some code => code
                | None => 0%Z
                end
      end
  end.

(** The last two parts of the text of a finished execution. *)
Definition status_lines (sys : Sys.t) (result : ExecuteResult) : string :=
  "退出码: " ++ Py.Z_to_str (exit_code result) ++ nl ++ nl
  ++ "执行时间: " ++ Sys.format_2f sys (execution_time result) ++ "秒".

(** A remote call that names no user. *)
Definition remote_without_user : Args :=
  {| arg_command := Some "uptime"; arg_host := Some "alpha";
     arg_username := None; arg_password := None; arg_key_file := None;
     arg_port := None; arg_session := Some "s1"; arg_env := None;
     arg_cwd := None; arg_force_execute := None |}.

(** An event of the executors and of the session store: a shell
    spawned, a connection opened, a command sent over it, a client
    closed. The other events are the lines on the standard output and
    the writes to the streams. *)
Definition is_backend (ev : Event) : bool :=
  match ev with
  | EvSpawn _ _ _ | EvExecCommand _ _ | EvConnect _ _ _ | EvClose _ => true
  | EvPrint _ | EvWrite _ _ _ => false
  end.

(** [m] adds only events of the executors and of the session store,
    and leaves the set of streams as it is. *)
Definition backend_only {A : Type} (m : M A) : Prop :=
  forall w, exists evs,
    trace (snd (m w)) = (trace w ++ evs)%list
    /\ forallb is_backend evs = true
    /\ active_streams (snd (m w)) = active_streams w.

(** The line the stdio loop prints for a line that does not parse. *)
Definition parse_error (e : Exn.t) : Response :=
  {| payload := PError (-32700) ("Parse error: " ++ Exn.str e);
     resp_id := Some None |}.

(* ================================================================== *)
(** * More of the source: the probe of a stream, the credentials of a
      connection, the configuration file *)

(** [SSETransport._is_connection_alive]. The response object is seen
    through the attributes the probe reads: an attribute the object
    does not have is [None], and so is a [transport] that holds
    [None]; [is_closing] is a method, which may raise. *)
Module Probe.

Record Transport : Type := mkTransport {
  is_closing : option (result bool);
  _closed : option bool;
  _conn_lost : option bool
}.

Record StreamResponse : Type := mkStreamResponse {
  transport : option Transport
}.

Definition _is_connection_alive (response : option StreamResponse) : bool :=
  match response with
  | None => false
  | Some r =>
      match transport r with
      | None => true
      | Some t =>
          match is_closing t with
          | Some (Raise _) => true        (* [return response is not None] *)
          | Some (Ok true) => false
          | _ =>
              match _closed t with
              | Some true => false
              | _ =>
                  match _conn_lost t with
                  | Some true => false
                  | _ => true
                  end
              end
          end
      end
  end.

End Probe.

(** The part of [SSHExecutor.create_ssh_client] that chooses how to
    authenticate: what [connect_kwargs] holds besides the host, the
    port and the user name. [expanduser] and [path_exists] are
    [os.path.expanduser] and [os.path.exists]. *)
Module Credentials.

Record Os : Type := mkOs {
  expanduser : string -> string;
  path_exists : string -> bool
}.

Inductive Kwarg : Type :=
| key_filename (path : string)
| password (secret : string).

Definition default_keys (os : Os) : list string :=
  [expanduser os "~/.ssh/id_rsa"; expanduser os "~/.ssh/id_ed25519";
   expanduser os "~/.ssh/id_ecdsa"].

(** [for default_key in default_keys: if os.path.exists(default_key):
    ...; break]. *)
Definition first_default (os : Os) : option Kwarg :=
  option_map key_filename (find (path_exists os) (default_keys os)).

Definition connect_kwargs (os : Os) (key_file pass : option string)
  : option Kwarg :=
  let key_file :=
    if truthy_str key_file then option_map (expanduser os) key_file
    else key_file in
  match key_file with
  | Some (String a k) =>
      if path_exists os (String a k) then Some (key_filename (String a k))
      else if truthy_str pass then option_map password pass
      else first_default os
  | _ =>
      if truthy_str pass then option_map password pass
      else first_default os
  end.

End Credentials.

(** A home directory that holds [id_ed25519] and nothing else. *)
Definition example_os : Credentials.Os :=
  {| Credentials.expanduser :=
       fun p => match p with
                | String "~" rest => "/root" ++ rest
                | _ => p
                end;
     Credentials.path_exists :=
       fun p => String.eqb p "/root/.ssh/id_ed25519" |}.

(** [TerminalMCPServer._load_config] and the part of
    [TerminalMCPServer.__init__] that reads the configuration. The
    configuration is seen through the two keys the server reads,
    [config.get("session_timeout", 1200)] and
    [config.get("command_filter", {})]; a key the dictionary does not
    have is [None]. [load] is [open] and [json.load] on a file that
    holds a JSON object, [dump] is [open(..., "w")] and [json.dump]. *)
Module Config.

Record t : Type := mk {
  session_timeout : option Z;
  command_filter : option CommandFilter.Config
}.

(** The dictionary [{}]. *)
Definition empty : t := {| session_timeout := None; command_filter := None |}.

Record Files : Type := mkFiles {
  path_exists : string -> bool;
  load : string -> result t;
  dump : string -> t -> result unit
}.

Definition default_config : t :=
  {| session_timeout := Some 1200%Z;
     command_filter :=
       Some
         {| CommandFilter.whitelist := ["ifconfig"; "ip"; "df"];
            CommandFilter.blacklist :=
         ["^\s*rm\s+-rf\s+/(\s|$)";
          "^\s*rm\s+-rf\s+/home";
          "^\s*rm\s+-rf\s+/etc";
          "^\s*rm\s+-rf\s+/boot";
          "^\s*rm\s+-rf\s+/var";
          "^\s*rm\s+-rf\s+/root";
          "^\s*rm\s+-rf\s+/usr";
          "^\s*rm\s+-rf\s+/lib";
          "^\s*rm\s+-rf\s+/opt";
          "^\s*rm\s+-rf\s+--no-preserve-root";
          "^\s*rm\s+-fr\s+--no-preserve-root";
          "^\s*mkfs\.";
          "^\s*dd\s+.*of=/dev/";
          "^\s*parted";
          "^\s*fdisk";
          "^\s*mklabel";
          "^\s*mkswap";
          "^\s*wipefs";
          "^\s*:\(\)\{\s*:\|:\s*;\s*\};:";
          "^\s*shutdown";
          "^\s*reboot";
          "^\s*halt";
          "^\s*poweroff";
          "^\s*init\s+";
          "^\s*crontab\s+-r";
          "^\s*userdel";
          "^\s*passwd\s+root";
          "^\s*chmod\s+777\s+/";
          "^\s*chown\s+.*:/";
          "^\s*>\s*/dev/";
          "^\s*>\s*/etc/";
          "^\s*>\s*/boot/";
          "^\s*>\s*/root/";
          "^\s*curl.*\|.*sh";
          "^\s*wget.*\|.*sh";
          "^\s*killall";
          "^\s*pkill";
          "^\s*kill\s+-9\s+1";
          "^\s*kill\s+-9\s+[0-9]+";
          ".*;\s*rm\s+-rf";
          ".*&&\s*rm\s+-rf";
          ".*\|\s*sh\s*$"] |} |}.

Definition _load_config (files : Files) (config_file : string) : t :=
  if path_exists files config_file then
    match load files config_file with
    | Ok config => config
    | Raise _ => empty
    end
  else
    match dump files config_file default_config with
    | Ok _ => default_config
    | Raise _ => empty
    end.

(** [__init__]: the filter and the session manager of the server, or
    the exception the construction of the filter raised. *)
Definition __init__ (files : Files) (compile : string -> Re.Compile)
           (config_file : string)
  : result (TerminalMCPServer.t * SessionManager.t) :=
  let config := _load_config files config_file in
  match fst (CommandFilter.__init__
               compile
               (TerminalMCPServer.default
                  (command_filter config)
                  {| CommandFilter.whitelist := [];
                     CommandFilter.blacklist := [] |}))
  with
  | Ok command_filter =>
      Ok ({| TerminalMCPServer.command_filter := command_filter |},
          SessionManager.__init__
            (TerminalMCPServer.default (session_timeout config) 1200%Z))
  | Raise e => Raise e
  end.

End Config.

(** The decision of a filter without a rule. *)
Definition passes : CommandFilter.Decision :=
  (true, "命令通过过滤检查", None).

(** Loading the configuration raised: the file is there and cannot be
    read, or is not there and cannot be written. *)
Definition load_failed (files : Config.Files) (config_file : string) : Prop :=
  (Config.path_exists files config_file = true
   /\ exists e, Config.load files config_file = Raise e)
  \/ (Config.path_exists files config_file = false
      /\ exists e,
           Config.dump files config_file Config.default_config = Raise e).

(** A directory that cannot be written and holds no configuration. *)
Definition read_only_files : Config.Files :=
  {| Config.path_exists := fun _ => false;
     Config.load := fun _ => Raise (Exn.mk Exn.OSError "No such file");
     Config.dump :=
       fun _ _ => Raise (Exn.mk Exn.OSError "Read-only file system") |}.

(** The store keeps every session id once, and every session keeps
    every variable of its environment once: what Python dictionaries
    give. *)
Definition envs_ok (self : SessionManager.t) : Prop :=
  NoDup (Dict.keys (SessionManager.sessions self))
  /\ Forall (fun kv => NoDup (Dict.keys (SessionManager.local_env (snd kv))))
            (SessionManager.sessions self).

(** The session [get_session] gives to a call made in the world [w]. *)
Definition session_for (sys : Sys.t) (args : Args) (w : World)
  : SessionManager.Session * SessionManager.t * list SessionManager.Conn :=
  SessionManager.get_session
    (Sys.close sys (List.length (trace w))) (session_manager w)
    (Sys.clock sys (reads w))
    (TerminalMCPServer.default (arg_session args) "default")
    (arg_host args) (arg_username args).

(** The environment a local call leaves in its session. *)
Definition merged_env (sys : Sys.t) (args : Args) (w : World)
  : Dict.t string :=
  Dict.update (SessionManager.local_env (fst (fst (session_for sys args w))))
              (TerminalMCPServer.default (arg_env args) []).

(** A local call of [command] that sets the variables [env] in the
    session [session_id]. *)
Definition local_call (command : string) (session_id : string)
           (env : Dict.t string) : Args :=
  {| arg_command := Some command; arg_host := None; arg_username := None;
     arg_password := None; arg_key_file := None; arg_port := None;
     arg_session := Some session_id; arg_env := Some env; arg_cwd := None;
     arg_force_execute := None |}.




(* ================================================================== *)
(** * Properties of the string operations *)

Section PyFacts.

Lemma append_nil_r (s : string) : s ++ "" = s.
Proof. induction s as [|a s IH]; simpl; [reflexivity | now rewrite IH]. Qed.

Lemma append_assoc (s t u : string) : (s ++ t) ++ u = s ++ t ++ u.
Proof. induction s as [|a s IH]; simpl; [reflexivity | now rewrite IH]. Qed.

Lemma startswith_iff (p s : string) :
  Py.startswith p s = true <-> exists v, s = p ++ v.
Proof.
  revert s; induction p as [|a p IH]; intros s; simpl.
  - split; [intros _; now exists s | reflexivity].
  - destruct s as [|b s].
    + split; [discriminate | intros [v H]; discriminate].
    + rewrite andb_true_iff, Ascii.eqb_eq, IH. split.
      * intros [-> [v ->]]. now exists v.
      * intros [v H]. injection H as -> ->. split; [reflexivity | now exists v].
Qed.

Lemma contains_iff (p s : string) :
  Py.contains p s = true <-> exists u v, s = u ++ p ++ v.
Proof.
  induction s as [|b s IH].
  - cbn [Py.contains]. rewrite orb_false_r, startswith_iff. split.
    + intros [v H]. now exists "", v.
    + intros [u [v H]]. destruct u; [now exists v | discriminate].
  - cbn [Py.contains]. rewrite orb_true_iff, startswith_iff, IH. split.
    + intros [[v H] | [u [v H]]].
      * now exists "", v.
      * exists (String b u), v. simpl. now rewrite H.
    + intros [u [v H]]. destruct u as [|c u].
      * left. now exists v.
      * right. simpl in H. injection H as _ H. now exists u, v.
Qed.

Lemma contains_app_r (p u s : string) :
  Py.contains p s = true -> Py.contains p (u ++ s) = true.
Proof.
  rewrite !contains_iff. intros [x [y ->]]. exists (u ++ x), y.
  now rewrite append_assoc.
Qed.


Lemma lstrip_no_lead (s : string) : no_lead (Py.lstrip s) = true.
Proof.
  induction s as [|a s IH]; simpl; [reflexivity |].
  destruct (Py.isspace a) eqn:E; [exact IH | simpl; now rewrite E].
Qed.

Lemma lstrip_id (s : string) : no_lead s = true -> Py.lstrip s = s.
Proof.
  destruct s as [|a s]; simpl; [reflexivity |].
  destruct (Py.isspace a); [discriminate | reflexivity].
Qed.

Lemma lstrip_split (s : string) :
  exists w, s = w ++ Py.lstrip s /\ all_space w = true.
Proof.
  induction s as [|a s [w [H1 H2]]]; simpl.
  - now exists "".
  - destruct (Py.isspace a) eqn:E.
    + exists (String a w). simpl. rewrite E, H2. split; [now rewrite <- H1 | reflexivity].
    + now exists "".
Qed.

Lemma rstrip_no_lead (s : string) : no_lead s = true -> no_lead (Py.rstrip s) = true.
Proof.
  destruct s as [|a s]; simpl; [reflexivity |].
  intros H. destruct (Py.rstrip s); [|exact H].
  destruct (Py.isspace a) eqn:E; [reflexivity | simpl; now rewrite E].
Qed.

Lemma strip_no_lead (s : string) : no_lead (Py.strip s) = true.
Proof. apply rstrip_no_lead, lstrip_no_lead. Qed.

Lemma rstrip_idem (s : string) : Py.rstrip (Py.rstrip s) = Py.rstrip s.
Proof.
  induction s as [|a s IH]; simpl; [reflexivity |].
  destruct (Py.rstrip s) as [|b t] eqn:E.
  - destruct (Py.isspace a) eqn:Ea; simpl; [reflexivity | now rewrite Ea].
  - cbn [Py.rstrip]. cbn [Py.rstrip] in IH. now rewrite IH.
Qed.

Lemma strip_idem (s : string) : Py.strip (Py.strip s) = Py.strip s.
Proof.
  unfold Py.strip. rewrite (lstrip_id (Py.rstrip _)).
  - apply rstrip_idem.
  - apply rstrip_no_lead, lstrip_no_lead.
Qed.

End PyFacts.

(* ================================================================== *)
(** * The derivative matcher finds exactly the words of the pattern *)

Section ReFacts.

Lemma lang_seq_inv (r s : Re.re) (w : string) :
  Re.lang (Re.Seq r s) w ->
  exists u v, w = u ++ v /\ Re.lang r u /\ Re.lang s v.
Proof. intros H. inversion H; subst. now exists u, v. Qed.

Lemma lang_alt_inv (r s : Re.re) (w : string) :
  Re.lang (Re.Alt r s) w -> Re.lang r w \/ Re.lang s w.
Proof. intros H. inversion H; subst; [now left | now right]. Qed.

(** A non-empty word of a star starts with a non-empty word of its body. *)
Lemma lang_star_cons (r : Re.re) (a : ascii) (t : string) :
  Re.lang (Re.Star r) (String a t) ->
  exists u v, t = u ++ v /\ Re.lang r (String a u) /\ Re.lang (Re.Star r) v.
Proof.
  intros H. remember (Re.Star r) as q eqn:Eq. remember (String a t) as w eqn:Ew.
  revert t Ew. induction H; intros t Ew; try discriminate.
  injection Eq as ->. destruct u as [|b u].
  - simpl in Ew. now apply IHlang2.
  - simpl in Ew. injection Ew as -> <-. now exists u, v.
Qed.

Lemma nullable_iff (r : Re.re) : Re.nullable r = true <-> Re.lang r "".
Proof.
  induction r as [| |a| | |r IHr s IHs|r IHr s IHs|r IHr]; simpl.
  - split; [discriminate | intros H; inversion H].
  - split; [constructor | reflexivity].
  - split; [discriminate | intros H; inversion H].
  - split; [discriminate | intros H; inversion H].
  - split; [discriminate | intros H; inversion H].
  - rewrite andb_true_iff, IHr, IHs. split.
    + intros [H1 H2]. exact (Re.L_seq _ _ _ _ H1 H2).
    + intros H. apply lang_seq_inv in H as [u [v [E [H1 H2]]]].
      destruct u; [|discriminate]. destruct v; [|discriminate]. now split.
  - rewrite orb_true_iff, IHr, IHs. split.
    + intros [H | H]; [now apply Re.L_alt_l | now apply Re.L_alt_r].
    + apply lang_alt_inv.
  - split; [constructor | reflexivity].
Qed.

Lemma deriv_iff (a : ascii) (r : Re.re) (w : string) :
  Re.lang (Re.deriv a r) w <-> Re.lang r (String a w).
Proof.
  revert w.
  induction r as [| |b| | |r IHr s IHs|r IHr s IHs|r IHr]; intros w; simpl.
  - split; intros H; inversion H.
  - split; intros H; inversion H.
  - destruct (Ascii.eqb a b) eqn:E.
    + apply Ascii.eqb_eq in E as ->. split; intros H; inversion H; constructor.
    + split; intros H; inversion H; subst. now rewrite Ascii.eqb_refl in E.
  - destruct (Py.isspace a) eqn:E.
    + split; intros H; inversion H; now constructor.
    + split; intros H; inversion H; subst; congruence.
  - destruct (Ascii.eqb a Re.newline) eqn:E.
    + split; intros H; inversion H; subst; congruence.
    + split; intros H; inversion H; now constructor.
  - assert (Hseq : Re.lang (Re.Seq (Re.deriv a r) s) w ->
                   Re.lang (Re.Seq r s) (String a w)).
    { intros H. apply lang_seq_inv in H as [u [v [-> [H1 H2]]]].
      apply IHr in H1. exact (Re.L_seq _ _ _ _ H1 H2). }
    assert (Hinv : Re.lang (Re.Seq r s) (String a w) ->
                   Re.lang (Re.Seq (Re.deriv a r) s) w
                   \/ (Re.lang r "" /\ Re.lang s (String a w))).
    { intros H. apply lang_seq_inv in H as [u [v [E [H1 H2]]]].
      destruct u as [|c u]; simpl in E.
      - right. subst v. now split.
      - injection E as <- ->. left. apply IHr in H1.
        exact (Re.L_seq _ _ _ _ H1 H2). }
    destruct (Re.nullable r) eqn:En.
    + split.
      * intros H. apply lang_alt_inv in H as [H | H]; [now apply Hseq |].
        apply IHs in H. apply nullable_iff in En.
        exact (Re.L_seq _ _ _ _ En H).
      * intros H. apply Hinv in H as [H | [_ H]].
        -- now apply Re.L_alt_l.
        -- apply Re.L_alt_r. now apply IHs.
    + split; [exact Hseq |].
      intros H. apply Hinv in H as [H | [H _]]; [exact H |].
      apply nullable_iff in H. congruence.
  - split.
    + intros H. apply lang_alt_inv in H as [H | H].
      * apply Re.L_alt_l. now apply IHr.
      * apply Re.L_alt_r. now apply IHs.
    + intros H. apply lang_alt_inv in H as [H | H].
      * apply Re.L_alt_l. now apply IHr.
      * apply Re.L_alt_r. now apply IHs.
  - split.
    + intros H. apply lang_seq_inv in H as [u [v [-> [H1 H2]]]].
      apply IHr in H1. exact (Re.L_star_app _ _ _ H1 H2).
    + intros H. apply lang_star_cons in H as [u [v [-> [H1 H2]]]].
      apply IHr in H1. exact (Re.L_seq _ _ _ _ H1 H2).
Qed.

(** [match]: some prefix of the subject is a word of the pattern. *)
Lemma matches_at_iff (r : Re.re) (s : string) :
  Re.matches_at r s = true <-> exists u v, s = u ++ v /\ Re.lang r u.
Proof.
  revert r. induction s as [|a s IH]; intros r; cbn [Re.matches_at].
  - rewrite orb_false_r, nullable_iff. split.
    + intros H. now exists "", "".
    + intros [u [v [E H]]]. destruct u; [exact H | discriminate].
  - rewrite orb_true_iff, nullable_iff, IH. split.
    + intros [H | [u [v [-> H]]]].
      * now exists "", (String a s).
      * exists (String a u), v. split; [reflexivity | now apply deriv_iff].
    + intros [u [v [E H]]]. destruct u as [|b u]; simpl in E.
      * now left.
      * injection E as <- ->. right. exists u, v.
        split; [reflexivity | now apply deriv_iff].
Qed.

(** [search]: some factor of the subject is a word of the pattern. *)
Lemma matches_in_iff (r : Re.re) (s : string) :
  Re.matches_in r s = true <-> exists p u v, s = p ++ u ++ v /\ Re.lang r u.
Proof.
  induction s as [|a s IH]; cbn [Re.matches_in].
  - rewrite orb_false_r, matches_at_iff. split.
    + intros [u [v [E H]]]. now exists "", u, v.
    + intros [p [u [v [E H]]]]. destruct p; [now exists u, v | discriminate].
  - rewrite orb_true_iff, matches_at_iff, IH. split.
    + intros [[u [v [E H]]] | [p [u [v [E H]]]]].
      * now exists "", u, v.
      * exists (String a p), u, v. simpl. now rewrite E.
    + intros [p [u [v [E H]]]]. destruct p as [|b p]; simpl in E.
      * left. now exists u, v.
      * injection E as _ E. right. now exists p, u, v.
Qed.

Lemma lang_star_space (w : string) :
  Re.lang (Re.Star Re.Space) w <-> all_space w = true.
Proof.
  split.
  - intros H. remember (Re.Star Re.Space) as q eqn:Eq.
    induction H; try discriminate; [reflexivity |].
    injection Eq as ->. inversion H; subst. simpl.
    rewrite IHlang2 by reflexivity.
    match goal with E : Py.isspace _ = true |- _ => now rewrite E end.
  - induction w as [|a w IH]; simpl; [constructor |].
    rewrite andb_true_iff. intros [Ha Hw].
    change (String a w) with (String a "" ++ w).
    apply Re.L_star_app; [now constructor | now apply IH].
Qed.

Lemma lang_word (p w : string) : Re.lang (Re.word p) w <-> w = p.
Proof.
  revert w. induction p as [|a p IH]; intros w; simpl.
  - split; [intros H; now inversion H | intros ->; constructor].
  - split.
    + intros H. apply lang_seq_inv in H as [u [v [-> [H1 H2]]]].
      inversion H1; subst. apply IH in H2 as ->. reflexivity.
    + intros ->. change (String a p) with (String a "" ++ p).
      apply Re.L_seq; [constructor | now apply IH].
Qed.

End ReFacts.

(* ================================================================== *)
(** * CommandFilter: the normal form of the command *)

Section FilterFacts.

Lemma split_0_absent (c : ascii) (s : string) :
  Py.contains (String c "") s = false -> Py.split_0 c s = s.
Proof.
  induction s as [|a s IH]; [reflexivity |].
  cbn [Py.contains Py.startswith Py.split_0]. rewrite andb_true_r.
  rewrite orb_false_iff. intros [Ha Hs]. rewrite Ascii.eqb_sym, Ha.
  now rewrite IH.
Qed.

Lemma cut_comment (x : string) :
  Py.strip (if Py.contains "#" x
            then Py.strip (Py.split_0 CommandFilter.hash x) else x)
  = Py.strip (Py.split_0 CommandFilter.hash x).
Proof.
  destruct (Py.contains "#" x) eqn:E.
  - apply strip_idem.
  - now rewrite (split_0_absent CommandFilter.hash x E).
Qed.

Lemma extract_normal_form (command : string) :
  CommandFilter._extract_main_command command
  = Py.strip (Py.split_0 CommandFilter.hash
                         (drop_assignment (Py.strip command))).
Proof.
  unfold CommandFilter._extract_main_command, drop_assignment,
    strips_assignment.
  cbv zeta. rewrite cut_comment. do 2 f_equal.
  remember (Py.contains "=" (Py.strip command)
            && negb (Py.startswith "=" (Py.strip command))) as c1 eqn:E1.
  remember ((1 <? List.length (Py.split_ws_1 (Py.strip command)))
            && Py.contains "=" (Py.item (Py.split_ws_1 (Py.strip command)) 0)
            && negb (Py.startswith "="
                       (Py.item (Py.split_ws_1 (Py.strip command)) 0)))
    as c2 eqn:E2.
  destruct c1, c2; try reflexivity.
  symmetry in E2. apply andb_true_iff in E2 as [E2 _].
  apply andb_true_iff in E2 as [E2 _]. now rewrite E2.
Qed.

Lemma extract_no_lead (command : string) :
  no_lead (CommandFilter._extract_main_command command) = true.
Proof. rewrite extract_normal_form. apply strip_no_lead. Qed.

Lemma lang_rm_re (u : string) :
  Re.lang CommandFilter.rm_re u <->
  exists w0 w ws, u = w0 ++ "rm" ++ String w ws
                  /\ all_space w0 = true /\ Py.isspace w = true
                  /\ all_space ws = true.
Proof.
  unfold CommandFilter.rm_re. split.
  - intros H. apply lang_seq_inv in H as [w0 [x [-> [H0 H]]]].
    apply lang_seq_inv in H as [rm [y [-> [Hrm H]]]].
    apply lang_seq_inv in H as [w1 [ws [-> [Hw Hws]]]].
    apply lang_star_space in H0, Hws. apply lang_word in Hrm as ->.
    inversion Hw; subst. now exists w0, a, ws.
  - intros [w0 [w [ws [-> [H0 [Hw Hws]]]]]].
    apply Re.L_seq; [now apply lang_star_space |].
    apply Re.L_seq; [now apply lang_word |].
    change (String w ws) with (String w "" ++ ws).
    apply Re.L_seq; [now constructor | now apply lang_star_space].
Qed.

(** On a text without leading white space, [rm_pattern.match] says
    that the text begins with [rm] and a white space character. *)
Lemma rm_pattern_match_iff (m : string) :
  no_lead m = true ->
  Re.re_match CommandFilter.rm_pattern m = true <-> begins_with_rm m.
Proof.
  intros Hm. cbn [Re.re_match CommandFilter.rm_pattern Re.of_re].
  rewrite matches_at_iff. split.
  - intros [u [v [-> H]]]. apply lang_rm_re in H as [w0 [w [ws [-> [H0 [Hw _]]]]]].
    destruct w0 as [|a w0].
    + exists w, (ws ++ v). split; [reflexivity | exact Hw].
    + simpl in Hm, H0. apply andb_true_iff in H0 as [Ha _].
      rewrite Ha in Hm. discriminate.
  - intros [w [rest [-> Hw]]]. exists ("rm" ++ String w ""), rest.
    split; [reflexivity |]. apply lang_rm_re. now exists "", w, "".
Qed.

Lemma no_help_iff (t : string) :
  existsb (fun h => Py.contains h t) CommandFilter.help_patterns = false
  <-> forall h, In h CommandFilter.help_patterns -> ~ occurs h t.
Proof.
  split.
  - intros H h Hin Hocc. apply contains_iff in Hocc.
    assert (E : existsb (fun h => Py.contains h t)
                        CommandFilter.help_patterns = true)
      by (apply existsb_exists; now exists h).
    congruence.
  - intros H. apply not_true_is_false. intros E.
    apply existsb_exists in E as [h [Hin Hc]].
    apply contains_iff in Hc. exact (H h Hin Hc).
Qed.

End FilterFacts.

(** C4 (as the code has it). For every command, [check_dangerous_command]
    works on the normal form of the command (trimmed, a leading token
    with [=] dropped, cut at the first [#], trimmed) and answers
    [(True, "删除命令")] exactly when that text begins with [rm] and a
    white space character and none of [--help], [--version], [-h], [-v],
    [--usage] occurs in its lower-cased form; in every other case it
    answers [(False, "")]. [rm -rf /tmp/x] needs confirmation,
    [rm --help] does not. *)
Theorem C4_check_dangerous_command (command : string) :
  let m := CommandFilter._extract_main_command command in
  m = Py.strip (Py.split_0 CommandFilter.hash
                           (drop_assignment (Py.strip command)))
  /\ (CommandFilter.check_dangerous_command command
      = (true, CommandFilter.deletion_command)
      <-> begins_with_rm m
          /\ forall h, In h CommandFilter.help_patterns
                       -> ~ occurs h (Py.lower m))
  /\ (CommandFilter.check_dangerous_command command
      = (true, CommandFilter.deletion_command)
      \/ CommandFilter.check_dangerous_command command = (false, ""))
  /\ CommandFilter.check_dangerous_command "rm -rf /tmp/x"
     = (true, CommandFilter.deletion_command)
  /\ CommandFilter.check_dangerous_command "rm --help" = (false, "").
Proof.
  intros m. split; [apply extract_normal_form |].
  assert (Hm : no_lead m = true) by apply extract_no_lead.
  pose proof (rm_pattern_match_iff m Hm) as Hrm.
  pose proof (no_help_iff (Py.lower m)) as Hhelp.
  unfold CommandFilter.check_dangerous_command. fold m.
  destruct (Re.re_match CommandFilter.rm_pattern m) eqn:E1;
    destruct (existsb (fun h => Py.contains h (Py.lower m))
                      CommandFilter.help_patterns) eqn:E2.
  - repeat split; try (now right); try reflexivity; try discriminate.
    intros [_ H]. apply Hhelp in H. discriminate.
  - repeat split; try (now left); try reflexivity.
    + now apply Hrm.
    + now apply Hhelp.
  - repeat split; try (now right); try reflexivity; try discriminate.
    intros [H _]. apply Hrm in H. discriminate.
  - repeat split; try (now right); try reflexivity; try discriminate.
    intros [H _]. apply Hrm in H. discriminate.
Qed.

(** C4, the claim as written fails: the help words are looked for in
    the lower-cased text, so [rm -rf My-Videos] begins with [rm], holds
    none of the five help words, and still needs no confirmation. *)
Lemma C4_case_sensitive_reading_fails :
  ~ (forall command,
       CommandFilter.check_dangerous_command command
       = (true, CommandFilter.deletion_command)
       <-> begins_with_rm (CommandFilter._extract_main_command command)
           /\ forall h, In h CommandFilter.help_patterns
                        -> ~ occurs h (CommandFilter._extract_main_command
                                         command)).
Proof.
  intros H. specialize (H "rm -rf My-Videos").
  assert (E : CommandFilter.check_dangerous_command "rm -rf My-Videos"
              = (false, "")) by reflexivity.
  rewrite E in H. destruct H as [_ H].
  assert (F : (false, "") = (true, CommandFilter.deletion_command));
    [| discriminate F].
  apply H. split.
  - exists " "%char, "-rf My-Videos". split; reflexivity.
  - apply no_help_iff. reflexivity.
Qed.

(* ================================================================== *)
(** * CommandFilter: the decision *)

Section DecisionFacts.

Lemma blacklist_hit_find (rules : list CommandFilter.Rule) (m : string) :
  CommandFilter.blacklist_hit rules m
  = option_map fst (find (fun rule => deny_matches rule m) rules).
Proof.
  induction rules as [|[pattern regex] rest IH]; [reflexivity |].
  cbn [CommandFilter.blacklist_hit find]. unfold deny_matches at 1.
  cbn [fst snd].
  destruct (Py.startswith "^" pattern); destruct (Re.re_match regex m);
    try destruct (Re.re_search regex m); cbn [orb option_map fst];
    auto.
Qed.

Lemma whitelist_hit_existsb (rules : list CommandFilter.Rule) (m : string) :
  CommandFilter.whitelist_hit rules m
  = existsb (fun rule => allow_matches rule m) rules.
Proof.
  induction rules as [|[pattern regex] rest IH]; [reflexivity |].
  cbn [CommandFilter.whitelist_hit existsb]. unfold allow_matches at 1.
  cbn [snd]. now destruct (Re.re_match regex m || Re.re_search regex m).
Qed.

(** The decision of [is_allowed] on any filter. *)
Lemma is_allowed_eq (self : CommandFilter.t) (command : string) :
  CommandFilter.is_allowed self command
  = let m := CommandFilter._extract_main_command command in
    match find (fun rule => deny_matches rule m)
               (CommandFilter.blacklist_rules self) with
    | Some rule => denied_by (fst rule)
    | None =>
        if CommandFilter.whitelist_enabled self then
          if existsb (fun rule => allow_matches rule m)
                     (CommandFilter.whitelist_rules self)
          then (true, "命令通过白名单检查", None)
          else (false, "命令不在白名单中", None)
        else (true, "命令通过过滤检查", None)
    end.
Proof.
  unfold CommandFilter.is_allowed. cbv zeta.
  rewrite blacklist_hit_find, whitelist_hit_existsb.
  now destruct (find _ (CommandFilter.blacklist_rules self)).
Qed.

Lemma find_first {A : Type} (p : A -> bool) (before : list A) (x : A)
      (after : list A) :
  p x = true -> (forall y, In y before -> p y = false) ->
  find p (before ++ x :: after)%list = Some x.
Proof.
  intros Hx. induction before as [|y before IH]; intros H; simpl.
  - now rewrite Hx.
  - rewrite (H y) by now left. apply IH. intros z Hz. apply H. now right.
Qed.

Lemma find_none_iff {A : Type} (p : A -> bool) (l : list A) :
  find p l = None <-> forall x, In x l -> p x = false.
Proof.
  split; [apply find_none |].
  induction l as [|y l IH]; intros H; simpl; [reflexivity |].
  rewrite (H y) by now left. apply IH. intros z Hz. apply H. now right.
Qed.

Lemma crash_of_app (compile : string -> Re.Compile) (l1 l2 : list string) :
  crash_of compile (l1 ++ l2)%list
  = match crash_of compile l1 with
    | Some e => Some e
    | None => crash_of compile l2
    end.
Proof.
  induction l1 as [|p l1 IH]; [reflexivity |]. cbn [List.app crash_of].
  now destruct (compile p).
Qed.

(** No exception but [re.error]: said of every pattern. *)
Lemma crash_of_none (compile : string -> Re.Compile) (patterns : list string) :
  crash_of compile patterns = None
  <-> forall p e, In p patterns -> compile p <> Re.Raises e.
Proof.
  induction patterns as [|q rest IH]; cbn [crash_of].
  - split; [intros _ p e [] | reflexivity].
  - split.
    + intros H p e [<- | Hin].
      * destruct (compile q); [discriminate | discriminate |].
        discriminate.
      * destruct (compile q); try discriminate; now apply IH.
    + intros H. destruct (compile q) as [regex| |e] eqn:E.
      * apply IH. intros p e Hin. apply H. now right.
      * apply IH. intros p e Hin. apply H. now right.
      * now elim (H q e (or_introl eq_refl)).
Qed.

(** The first pattern that raises something else than [re.error]. *)
Lemma crash_of_some (compile : string -> Re.Compile) (patterns : list string)
      (e : Exn.t) :
  crash_of compile patterns = Some e
  <-> exists before p after,
        patterns = (before ++ p :: after)%list
        /\ crash_of compile before = None
        /\ compile p = Re.Raises e.
Proof.
  split.
  - induction patterns as [|q rest IH]; cbn [crash_of]; [discriminate |].
    destruct (compile q) as [regex| |e'] eqn:E.
    + intros H. destruct (IH H) as (before & p & after & -> & Hb & Hp).
      exists (q :: before), p, after. cbn [List.app crash_of]. rewrite E.
      now repeat split.
    + intros H. destruct (IH H) as (before & p & after & -> & Hb & Hp).
      exists (q :: before), p, after. cbn [List.app crash_of]. rewrite E.
      now repeat split.
    + intros [= ->]. exists [], q, rest. now repeat split.
  - intros (before & p & after & -> & Hb & Hp).
    rewrite crash_of_app, Hb. cbn [crash_of]. now rewrite Hp.
Qed.

Lemma compile_rules_eq (compile : string -> Re.Compile)
      (patterns : list string) :
  fst (CommandFilter.compile_rules compile patterns)
  = match crash_of compile patterns with
    | Some e => Raise e
    | None => Ok (compiled compile patterns)
    end
  /\ (crash_of compile patterns = None ->
      snd (CommandFilter.compile_rules compile patterns)
      = filter (fails compile) patterns).
Proof.
  induction patterns as [|p rest [IH1 IH2]]; [now split |].
  cbn [CommandFilter.compile_rules crash_of]. unfold compiled, fails.
  cbn [flat_map filter]. fold (compiled compile rest). fold (fails compile).
  destruct (compile p) as [regex| |e].
  - destruct (CommandFilter.compile_rules compile rest) as [rules failed].
    cbn [fst snd] in *. rewrite IH1.
    split; [now destruct (crash_of compile rest) | exact IH2].
  - destruct (CommandFilter.compile_rules compile rest) as [rules failed].
    cbn [fst snd] in *. rewrite IH1.
    split; [now destruct (crash_of compile rest) |].
    intros H. now rewrite IH2.
  - split; [reflexivity | discriminate].
Qed.

(** What the construction gives. *)
Lemma init_fst (compile : string -> Re.Compile)
      (config : CommandFilter.Config) :
  fst (CommandFilter.__init__ compile config)
  = match crash_of compile (CommandFilter.whitelist config
                            ++ CommandFilter.blacklist config)%list with
    | Some e => Raise e
    | None => Ok (built compile config)
    end.
Proof.
  unfold CommandFilter.__init__. cbv zeta. rewrite crash_of_app.
  destruct (compile_rules_eq compile (CommandFilter.whitelist config))
    as [W _].
  destruct (compile_rules_eq compile (CommandFilter.blacklist config))
    as [B _].
  destruct (CommandFilter.compile_rules compile
              (CommandFilter.whitelist config)) as [white wf].
  cbn [fst] in W. rewrite W.
  destruct (crash_of compile (CommandFilter.whitelist config));
    [reflexivity |].
  destruct (CommandFilter.compile_rules compile
              (CommandFilter.blacklist config)) as [black bf].
  cbn [fst] in B. rewrite B.
  now destruct (crash_of compile (CommandFilter.blacklist config)).
Qed.

Lemma init_ok (compile : string -> Re.Compile)
      (config : CommandFilter.Config) :
  crash_of compile (CommandFilter.whitelist config
                    ++ CommandFilter.blacklist config)%list = None ->
  CommandFilter.__init__ compile config
  = (Ok (built compile config), build_log compile config).
Proof.
  rewrite crash_of_app. intros H.
  destruct (crash_of compile (CommandFilter.whitelist config)) eqn:Hw;
    [discriminate |].
  unfold CommandFilter.__init__, build_log. cbv zeta.
  destruct (compile_rules_eq compile (CommandFilter.whitelist config))
    as [W1 W2].
  destruct (compile_rules_eq compile (CommandFilter.blacklist config))
    as [B1 B2].
  rewrite Hw in W1. rewrite H in B1. specialize (W2 Hw). specialize (B2 H).
  destruct (CommandFilter.compile_rules compile
              (CommandFilter.whitelist config)) as [white wf].
  destruct (CommandFilter.compile_rules compile
              (CommandFilter.blacklist config)) as [black bf].
  cbn [fst snd] in *. now subst.
Qed.

(** A construction that returned: no pattern raised anything but
    [re.error], and the filter and the log are the ones above. *)
Lemma init_inv (compile : string -> Re.Compile)
      (config : CommandFilter.Config) (self : CommandFilter.t)
      (log : list CommandFilter.LogEntry) :
  CommandFilter.__init__ compile config = (Ok self, log) ->
  crash_of compile (CommandFilter.whitelist config
                    ++ CommandFilter.blacklist config)%list = None
  /\ self = built compile config
  /\ log = build_log compile config.
Proof.
  intros H. pose proof (init_fst compile config) as F. rewrite H in F.
  cbn [fst] in F.
  destruct (crash_of compile (CommandFilter.whitelist config
                              ++ CommandFilter.blacklist config)%list)
    eqn:E; [discriminate |].
  rewrite (init_ok compile config E) in H. injection H as H1 H2.
  now repeat split.
Qed.

Lemma filter_of_inv (compile : string -> Re.Compile)
      (white black : list string) (self : CommandFilter.t) :
  filter_of compile white black = Ok self ->
  self = built compile {| CommandFilter.whitelist := white;
                          CommandFilter.blacklist := black |}
  /\ crash_of compile (white ++ black)%list = None.
Proof.
  unfold filter_of. rewrite init_fst.
  cbn [CommandFilter.whitelist CommandFilter.blacklist].
  destruct (crash_of compile (white ++ black)%list); [discriminate |].
  intros [= <-]. now split.
Qed.

Lemma truthy_iff {A : Type} (l : list A) :
  CommandFilter.truthy l = true <-> l <> [].
Proof. destruct l; simpl; split; congruence. Qed.

End DecisionFacts.

(** C1 (as the code has it). For the filter built from any
    configuration and for every command, with [m] the normal form of
    the command: [is_allowed] is decided by the first deny rule that
    matches [m] (a rule whose pattern begins with [^] by a start match
    only, any other rule by a start match or a search), whatever the
    allow list holds; when no deny rule matches and the configured
    allow pattern list is not empty, whether or not any of its patterns
    compiled, the command is allowed exactly when some allow rule
    matches (start match or search); when no deny rule matches and the
    configured allow pattern list is empty the command is allowed. *)
Theorem C1_is_allowed (compile : string -> Re.Compile)
        (config : CommandFilter.Config) (self : CommandFilter.t)
        (log : list CommandFilter.LogEntry) (command : string) :
  CommandFilter.__init__ compile config = (Ok self, log) ->
  let m := CommandFilter._extract_main_command command in
  let deny := CommandFilter.blacklist_rules self in
  let allow := CommandFilter.whitelist_rules self in
  CommandFilter.is_allowed self command
  = match find (fun rule => deny_matches rule m) deny with
    | Some rule => denied_by (fst rule)
    | None =>
        if CommandFilter.truthy (CommandFilter.whitelist config) then
          if existsb (fun rule => allow_matches rule m) allow
          then (true, "命令通过白名单检查", None)
          else (false, "命令不在白名单中", None)
        else (true, "命令通过过滤检查", None)
    end
  /\ (forall before rule after,
        deny = (before ++ rule :: after)%list ->
        deny_matches rule m = true ->
        (forall r, In r before -> deny_matches r m = false) ->
        CommandFilter.is_allowed self command = denied_by (fst rule))
  /\ ((exists rule, In rule deny /\ deny_matches rule m = true) ->
      allowed (CommandFilter.is_allowed self command) = false)
  /\ ((forall rule, In rule deny -> deny_matches rule m = false) ->
      (CommandFilter.whitelist config <> [] ->
       (allowed (CommandFilter.is_allowed self command) = true
        <-> exists rule, In rule allow /\ allow_matches rule m = true))
      /\ (CommandFilter.whitelist config = [] ->
          allowed (CommandFilter.is_allowed self command) = true)).
Proof.
  intros Hinit m deny allow.
  destruct (init_inv compile config self log Hinit) as (_ & Hself & _).
  assert (Heq : CommandFilter.is_allowed self command
    = match find (fun rule => deny_matches rule m) deny with
      | Some rule => denied_by (fst rule)
      | None =>
          if CommandFilter.truthy (CommandFilter.whitelist config) then
            if existsb (fun rule => allow_matches rule m) allow
            then (true, "命令通过白名单检查", None)
            else (false, "命令不在白名单中", None)
          else (true, "命令通过过滤检查", None)
      end).
  { rewrite is_allowed_eq. cbv zeta. subst deny allow m.
    now rewrite Hself. }
  split; [exact Heq |]. rewrite Heq. clear Heq. clearbody deny allow.
  repeat split.
  - intros before rule after -> Hrule Hbefore.
    now rewrite (find_first (fun r => deny_matches r m) before rule after
                            Hrule Hbefore).
  - intros [rule [Hin Hrule]].
    destruct (find (fun rule => deny_matches rule m) deny) as [r|] eqn:E;
      [reflexivity |].
    rewrite (find_none _ _ E rule Hin) in Hrule. discriminate.
  - apply find_none_iff in H. rewrite H.
    apply truthy_iff in H0. rewrite H0.
    destruct (existsb (fun rule => allow_matches rule m) allow) eqn:E;
      [| discriminate].
    intros _. now apply existsb_exists.
  - apply find_none_iff in H. rewrite H.
    apply truthy_iff in H0. rewrite H0.
    intros Hex. apply existsb_exists in Hex. now rewrite Hex.
  - intros Hw. apply find_none_iff in H. rewrite H, Hw. reflexivity.
Qed.

(** C1 at the policy of the examples: [shutdown -h now] is denied by
    the second deny rule, whatever the allow list, and [df -h], which no
    deny rule matches, is allowed by the allow rule [df]. *)
Lemma C1_is_allowed_witness :
  CommandFilter.is_allowed example_filter "shutdown -h now"
  = denied_by "^\s*shutdown"
  /\ allowed (CommandFilter.is_allowed example_filter "df -h") = true.
Proof.
  assert (Hinit : CommandFilter.__init__ compile_table example_config
                  = (Ok example_filter,
                     snd (CommandFilter.__init__ compile_table
                                                 example_config)))
    by reflexivity.
  destruct (C1_is_allowed compile_table example_config example_filter _
                          "shutdown -h now" Hinit)
    as (_ & H & _).
  destruct (C1_is_allowed compile_table example_config example_filter _
                          "df -h" Hinit)
    as (_ & _ & _ & G).
  split.
  - refine (H [(".*;\s*rm\s+-rf", _)] ("^\s*shutdown", _) [] eq_refl
              eq_refl _).
    intros r [<- | []]. reflexivity.
  - refine (proj2 (proj1 (G _) _) _).
    + intros rule [<- | [<- | []]]; reflexivity.
    + discriminate.
    + eexists. split; [right; right; left; reflexivity | reflexivity].
Defined.

(** C1, the claim as written fails. With the one allow pattern ["("],
    which raises [re.error], the construction returns a filter whose
    allow rules are empty; no deny rule matches [ls], and yet [ls] is
    refused: the allow list that [is_allowed] asks about is the
    configured one, not the rules that compiled. *)
Lemma C1_no_allow_rule_yet_refused :
  let config := {| CommandFilter.whitelist := ["("];
                   CommandFilter.blacklist := ["^\s*shutdown"] |} in
  exists self log,
    CommandFilter.__init__ compile_table config = (Ok self, log)
    /\ CommandFilter.whitelist_rules self = []
    /\ (forall rule,
          In rule (CommandFilter.blacklist_rules self) ->
          deny_matches rule (CommandFilter._extract_main_command "ls")
          = false)
    /\ CommandFilter.is_allowed self "ls" = (false, "命令不在白名单中", None)
    /\ ~ (CommandFilter.whitelist_rules self = [] ->
          allowed (CommandFilter.is_allowed self "ls") = true).
Proof.
  cbv zeta. eexists. eexists. split; [reflexivity |].
  split; [reflexivity |]. split; [| split; [reflexivity |]].
  - intros rule [<- | []]. reflexivity.
  - intros H. specialize (H eq_refl). discriminate.
Qed.

(** C3 (as the code has it). The construction of a filter returns
    exactly when [re.compile] raises nothing but [re.error] on the
    configured patterns; the first pattern, allow list first, on which
    it raises anything else ends the construction with that exception.
    When the construction returns, the flag [whitelist_enabled] is true
    exactly when the configured allow pattern list is not empty: it is
    set before any pattern is compiled. The rules are the patterns that
    compile, in order, and a pattern that raises [re.error] is dropped
    with a log entry. When the allow list is not empty and each of its
    patterns raises [re.error], the allow list stays active with no
    rule, and every command that no deny rule matches is refused as not
    being in the allow list. *)
Theorem C3_whitelist_enabled (compile : string -> Re.Compile)
        (config : CommandFilter.Config) :
  let patterns := (CommandFilter.whitelist config
                   ++ CommandFilter.blacklist config)%list in
  (forall self log,
     CommandFilter.__init__ compile config = (Ok self, log) ->
     (forall p e, In p patterns -> compile p <> Re.Raises e)
     /\ (CommandFilter.whitelist_enabled self = true
         <-> CommandFilter.whitelist config <> [])
     /\ CommandFilter.whitelist_rules self
        = compiled compile (CommandFilter.whitelist config)
     /\ CommandFilter.blacklist_rules self
        = compiled compile (CommandFilter.blacklist config)
     /\ (forall p, In p (CommandFilter.whitelist config) ->
                   compile p = Re.Error ->
                   In (CommandFilter.WhitelistCompileError p) log)
     /\ (forall p, In p (CommandFilter.blacklist config) ->
                   compile p = Re.Error ->
                   In (CommandFilter.BlacklistCompileError p) log)
     /\ (CommandFilter.whitelist config <> [] ->
         (forall p, In p (CommandFilter.whitelist config) ->
                    compile p = Re.Error) ->
         CommandFilter.whitelist_rules self = []
         /\ CommandFilter.whitelist_enabled self = true
         /\ forall command,
              (forall rule, In rule (CommandFilter.blacklist_rules self) ->
                 deny_matches rule
                   (CommandFilter._extract_main_command command) = false) ->
              CommandFilter.is_allowed self command
              = (false, "命令不在白名单中", None)))
  /\ ((forall p e, In p patterns -> compile p <> Re.Raises e) ->
      exists self log, CommandFilter.__init__ compile config = (Ok self, log))
  /\ (forall before p after e,
        patterns = (before ++ p :: after)%list ->
        (forall q e', In q before -> compile q <> Re.Raises e') ->
        compile p = Re.Raises e ->
        fst (CommandFilter.__init__ compile config) = Raise e).
Proof.
  intros patterns. split; [| split].
  - intros self log Hinit.
    destruct (init_inv compile config self log Hinit)
      as (Hcrash & Hself & Hlog).
    split; [now apply crash_of_none |].
    assert (Hnone : (forall p, In p (CommandFilter.whitelist config) ->
                               compile p = Re.Error) ->
                    compiled compile (CommandFilter.whitelist config) = []).
    { clear. induction (CommandFilter.whitelist config) as [|p l IH];
        intros H; [reflexivity |]. unfold compiled. cbn [flat_map].
      rewrite (H p) by now left. apply IH. intros q Hq. apply H.
      now right. }
    subst self log. unfold built, build_log.
    cbn [CommandFilter.whitelist_enabled CommandFilter.whitelist_rules
         CommandFilter.blacklist_rules].
    split; [apply truthy_iff |]. split; [reflexivity |].
    split; [reflexivity |]. split; [| split].
    + intros p Hin Hp. apply in_or_app. left. apply in_map, filter_In.
      split; [exact Hin | unfold fails; now rewrite Hp].
    + intros p Hin Hp. apply in_or_app. right. apply in_or_app. left.
      apply in_map, filter_In.
      split; [exact Hin | unfold fails; now rewrite Hp].
    + intros Hne Hall. split; [now apply Hnone |].
      split; [now apply truthy_iff |].
      intros command Hdeny. rewrite is_allowed_eq. cbv zeta.
      cbn [CommandFilter.whitelist_enabled CommandFilter.whitelist_rules
           CommandFilter.blacklist_rules].
      apply find_none_iff in Hdeny. rewrite Hdeny.
      apply truthy_iff in Hne. rewrite Hne, (Hnone Hall). reflexivity.
  - intros Hno. apply crash_of_none in Hno.
    eexists. eexists. now apply init_ok.
  - intros before p after e Hp Hbefore He. rewrite init_fst.
    fold patterns.
    assert (Hc : crash_of compile patterns = Some e).
    { apply crash_of_some. exists before, p, after.
      split; [exact Hp |]. split; [now apply crash_of_none | exact He]. }
    now rewrite Hc.
Qed.

(** C3, the claim as written fails. With the one allow pattern ["("],
    which raises [re.error], no allow rule is left, yet the allow list
    is active and [ls], which no deny rule matches, is refused. *)
Lemma C3_uncompiled_whitelist_stays_active :
  let config := {| CommandFilter.whitelist := ["("];
                   CommandFilter.blacklist := [] |} in
  exists self log,
    CommandFilter.__init__ compile_table config = (Ok self, log)
    /\ CommandFilter.whitelist_rules self = []
    /\ CommandFilter.blacklist_rules self = []
    /\ CommandFilter.whitelist_enabled self = true
    /\ CommandFilter.is_allowed self "ls" = (false, "命令不在白名单中", None)
    /\ ~ (CommandFilter.whitelist_enabled self = true
          <-> CommandFilter.whitelist_rules self <> []).
Proof.
  cbv zeta. eexists. eexists. split; [reflexivity |].
  repeat split; try reflexivity.
  intros [H _]. now apply H.
Qed.

(** C3 at a configuration whose two allow patterns both raise
    [re.error], and at one whose deny pattern makes [re.compile] raise
    [OverflowError]: the first gives a filter that refuses [ls -l], the
    second gives no filter. *)
Lemma C3_whitelist_enabled_witness :
  (exists self log,
     CommandFilter.__init__
       compile_table {| CommandFilter.whitelist := ["("; "["];
                        CommandFilter.blacklist := ["^\s*shutdown"] |}
     = (Ok self, log)
     /\ CommandFilter.is_allowed self "ls -l"
        = (false, "命令不在白名单中", None))
  /\ fst (CommandFilter.__init__
            compile_table
            {| CommandFilter.whitelist := ["df"];
               CommandFilter.blacklist := ["^\s*shutdown";
                                           "a{99999999999999999999}"] |})
     = Raise (Exn.mk Exn.Other "the repetition number is too large").
Proof.
  split.
  - destruct (C3_whitelist_enabled
                compile_table
                {| CommandFilter.whitelist := ["("; "["];
                   CommandFilter.blacklist := ["^\s*shutdown"] |})
      as (Hbuilt & Hreturns & _).
    destruct Hreturns as (self & log & Hinit).
    { intros p e [<- | [<- | [<- | []]]]; discriminate. }
    exists self, log. split; [exact Hinit |].
    destruct (Hbuilt self log Hinit) as (_ & _ & _ & Hblack & _ & _ & H).
    apply H.
    + discriminate.
    + intros p [<- | [<- | []]]; reflexivity.
    + rewrite Hblack. intros rule [<- | []]. reflexivity.
  - destruct (C3_whitelist_enabled
                compile_table
                {| CommandFilter.whitelist := ["df"];
                   CommandFilter.blacklist := ["^\s*shutdown";
                                               "a{99999999999999999999}"] |})
      as (_ & _ & Hraises).
    apply (Hraises ["df"; "^\s*shutdown"] "a{99999999999999999999}" []).
    + reflexivity.
    + intros q e' [<- | [<- | []]]; discriminate.
    + reflexivity.
Defined.

(* ================================================================== *)
(** * CommandFilter: the cut at the first [#] *)

Section CommentCut.

Variable c : ascii.
Hypothesis c_not_space : Py.isspace c = false.

Let one : string := String c "".

Lemma contains_char_app (u w : string) :
  Py.contains one (u ++ w) = Py.contains one u || Py.contains one w.
Proof.
  induction u as [|a u IH].
  - simpl. destruct w; reflexivity.
  - cbn [append Py.contains Py.startswith one]. fold one. rewrite IH.
    now rewrite !andb_true_r, orb_assoc.
Qed.


Lemma split_0_app_l (u w : string) :
  Py.contains one u = true -> Py.split_0 c (u ++ w) = Py.split_0 c u.
Proof.
  induction u as [|a u IH]; [discriminate |].
  cbn [append Py.contains Py.startswith Py.split_0 one]. fold one.
  rewrite andb_true_r, Ascii.eqb_sym.
  destruct (Ascii.eqb a c); [reflexivity |].
  simpl. intros H. now rewrite IH.
Qed.


Lemma split_0_clean (s : string) : Py.contains one (Py.split_0 c s) = false.
Proof.
  induction s as [|a s IH]; [reflexivity |].
  cbn [Py.split_0]. destruct (Ascii.eqb a c) eqn:E; [reflexivity |].
  cbn [Py.contains Py.startswith one]. fold one.
  now rewrite andb_true_r, Ascii.eqb_sym, E, IH.
Qed.




End CommentCut.

Section StripFacts.

Lemma rstrip_split (x : string) :
  exists w, x = Py.rstrip x ++ w /\ all_space w = true.
Proof.
  induction x as [|a t [w [Ht Hw]]]; [now exists "" |].
  cbn [Py.rstrip]. destruct (Py.rstrip t) as [|b r] eqn:E.
  - simpl in Ht. subst t. destruct (Py.isspace a) eqn:Ea.
    + exists (String a w). simpl. now rewrite Ea, Hw.
    + now exists w.
  - exists w. simpl. split; [now rewrite Ht at 1 | exact Hw].
Qed.








End StripFacts.

Section CutTheorem.






End CutTheorem.

Section AssignmentCut.







End AssignmentCut.




(* ================================================================== *)
(** * The executors *)

(** C7. For every command, environment map and working directory, and
    whatever the operating system or the SSH connection does, both
    executors return an [ExecuteResult] and raise nothing. An exception
    of the spawn, of [communicate] or of [exec_command] becomes the
    result with empty [stdout], the description of the exception in
    [stderr] and exit code 1; the local exit code is the one reported,
    and 0 when none is reported; the execution time is the difference
    of the clock readings taken after and before the call. *)
Theorem C7_executors_never_raise (sys : Sys.t) (w : World)
        (command : string) (env : option (Dict.t string))
        (cwd : option string) (ssh_client : SessionManager.Conn) :
  let elapsed := (Sys.clock sys (S (reads w)) - Sys.clock sys (reads w))%Z in
  let n := List.length (trace w) in
  (exists r w', LocalExecutor.execute_command sys command env cwd w
                = (Ok r, w'))
  /\ fst (LocalExecutor.execute_command sys command env cwd w)
     = Ok match Sys.create_subprocess_shell sys n command
                  (exec_env sys env) cwd with
          | Raise e => failure "本地命令执行失败: " e elapsed
          | Ok process =>
              match Sys.communicate process with
              | Raise e => failure "本地命令执行失败: " e elapsed
              | Ok (out, err) =>
                  {| stdout := Sys.decode sys out;
                     stderr := Sys.decode sys err;
                     exit_code := match Sys.returncode process with
                                  | Some code => code
                                  | None => 0%Z
                                  end;
                     execution_time := elapsed |}
              end
          end
  /\ (exists r w', SSHExecutor.execute_command sys ssh_client command env w
                   = (Ok r, w'))
  /\ fst (SSHExecutor.execute_command sys ssh_client command env w)
     = Ok match Sys.exec_command sys n ssh_client
                  (SSHExecutor.env_str env ++ command) with
          | Raise e => failure "SSH命令执行失败: " e elapsed
          | Ok (out, err, code) =>
              {| stdout := Sys.decode sys out;
                 stderr := Sys.decode sys err;
                 exit_code := code;
                 execution_time := elapsed |}
          end.
Proof.
  intros elapsed n.
  assert (Henv : match env with
                 | Some e => if CommandFilter.truthy e
                             then Dict.update (Sys.environ sys) e
                             else Sys.environ sys
                 | None => Sys.environ sys
                 end = exec_env sys env)
    by (destruct env as [[|kv e]|]; reflexivity).
  assert (Hlocal : fst (LocalExecutor.execute_command sys command env cwd w)
     = Ok match Sys.create_subprocess_shell sys n command
                  (exec_env sys env) cwd with
          | Raise e => failure "本地命令执行失败: " e elapsed
          | Ok process =>
              match Sys.communicate process with
              | Raise e => failure "本地命令执行失败: " e elapsed
              | Ok (out, err) =>
                  {| stdout := Sys.decode sys out;
                     stderr := Sys.decode sys err;
                     exit_code := match Sys.returncode process with
                                  | Some code => code
                                  | None => 0%Z
                                  end;
                     execution_time := elapsed |}
              end
          end).
  { unfold LocalExecutor.execute_command, bind, try_except, time_time, moment,
      emit, lift, ret. cbn [reads trace]. rewrite Henv. fold n.
    destruct (Sys.create_subprocess_shell sys n command (exec_env sys env) cwd)
      as [process|e]; [| reflexivity].
    destruct (Sys.communicate process) as [[out err]|e]; [| reflexivity].
    cbn [fst snd reads]. fold elapsed. do 2 f_equal.
    destruct (Sys.returncode process) as [code|]; [| reflexivity].
    destruct (code =? 0)%Z eqn:E; [| reflexivity].
    apply Z.eqb_eq in E. now subst code. }
  assert (Hssh : fst (SSHExecutor.execute_command sys ssh_client command env w)
     = Ok match Sys.exec_command sys n ssh_client
                  (SSHExecutor.env_str env ++ command) with
          | Raise e => failure "SSH命令执行失败: " e elapsed
          | Ok (out, err, code) =>
              {| stdout := Sys.decode sys out;
                 stderr := Sys.decode sys err;
                 exit_code := code;
                 execution_time := elapsed |}
          end).
  { unfold SSHExecutor.execute_command, bind, try_except, time_time, moment,
      emit, lift, ret. cbn [reads trace]. fold n.
    destruct (Sys.exec_command sys n ssh_client
                (SSHExecutor.env_str env ++ command))
      as [[[out err] code]|e]; reflexivity. }
  repeat split.
  - destruct (LocalExecutor.execute_command sys command env cwd w)
      as [[r|e] w'] eqn:E; [now exists r, w' | discriminate Hlocal].
  - exact Hlocal.
  - destruct (SSHExecutor.execute_command sys ssh_client command env w)
      as [[r|e] w'] eqn:E; [now exists r, w' | discriminate Hssh].
  - exact Hssh.
Qed.

(* ================================================================== *)
(** * The session store *)

Section StoreFacts.

Variable close : SessionManager.Conn -> result unit.

Lemma init_store_ok (session_timeout : Z) :
  store_ok (SessionManager.__init__ session_timeout).
Proof. repeat constructor. Qed.

Lemma get_del_other {V : Type} (d : Dict.t V) (k k' : string) :
  k <> k' -> Dict.get (Dict.del d k') k = Dict.get d k.
Proof.
  intros Hk. induction d as [|[k0 v] d IH]; [reflexivity |]. simpl.
  destruct (String.eqb k' k0) eqn:E'.
  - apply String.eqb_eq in E' as <-.
    destruct (String.eqb k k') eqn:E; [| reflexivity].
    apply String.eqb_eq in E. contradiction.
  - simpl. now rewrite IH.
Qed.

Lemma get_set_same {V : Type} (d : Dict.t V) (k : string) (v : V) :
  Dict.get (Dict.set d k v) k = Some v.
Proof.
  induction d as [|[k0 v0] d IH]; simpl.
  - now rewrite String.eqb_refl.
  - destruct (String.eqb k k0) eqn:E; simpl; rewrite E; [reflexivity | exact IH].
Qed.

Lemma get_in {V : Type} (d : Dict.t V) (k : string) (v : V) :
  Dict.get d k = Some v -> In (k, v) d.
Proof.
  induction d as [|[k0 v0] d IH]; [discriminate |]. simpl.
  destruct (String.eqb k k0) eqn:E.
  - apply String.eqb_eq in E as ->. intros H. injection H as ->. now left.
  - intros H. right. now apply IH.
Qed.

Lemma get_none_keys {V : Type} (d : Dict.t V) (k : string) :
  ~ In k (Dict.keys d) -> Dict.get d k = None.
Proof.
  induction d as [|[k0 v0] d IH]; [reflexivity |]. simpl. intros H.
  destruct (String.eqb k k0) eqn:E.
  - apply String.eqb_eq in E. exfalso. apply H. left. now symmetry.
  - apply IH. intros Hin. apply H. now right.
Qed.

Lemma in_get {V : Type} (d : Dict.t V) (k : string) (v : V) :
  NoDup (Dict.keys d) -> In (k, v) d -> Dict.get d k = Some v.
Proof.
  induction d as [|[k0 v0] d IH]; [intros _ []|]. simpl.
  intros Hnd [H | H].
  - injection H as -> ->. now rewrite String.eqb_refl.
  - inversion Hnd as [|? ? Hk0 Hd]; subst.
    destruct (String.eqb k k0) eqn:E.
    + apply String.eqb_eq in E as ->. exfalso. apply Hk0.
      change k0 with (fst (k0, v)). now apply in_map.
    + now apply IH.
Qed.

Lemma cleanup_session_eq (self : SessionManager.t)
      (d : Dict.t SessionManager.Session) (sid : string) :
  SessionManager._cleanup_session close (with_sessions self d) sid
  = match Dict.get d sid with
    | Some session =>
        (with_sessions self (Dict.del d sid), client_of (sid, session))
    | None => (with_sessions self d, [])
    end.
Proof.
  unfold SessionManager._cleanup_session, client_of, with_sessions.
  cbn [SessionManager.sessions SessionManager.session_timeout
       SessionManager.next_obj snd].
  destruct (Dict.get d sid) as [session|]; [| reflexivity].
  destruct (SessionManager.ssh_client session) as [client|]; [| reflexivity].
  now destruct (close client).
Qed.

(** Cleaning keys that the head of the store does not bear leaves the
    head where it is. *)
Lemma cleanup_all_skip (self : SessionManager.t) (k : string)
      (v : SessionManager.Session) (d : Dict.t SessionManager.Session)
      (sids : list string) :
  ~ In k sids ->
  SessionManager.cleanup_all close (with_sessions self ((k, v) :: d)) sids
  = (with_sessions self
       ((k, v) :: SessionManager.sessions
                    (fst (SessionManager.cleanup_all
                            close (with_sessions self d) sids))),
     snd (SessionManager.cleanup_all close (with_sessions self d) sids)).
Proof.
  revert d. induction sids as [|sid sids IH]; intros d Hk.
  - reflexivity.
  - assert (Hsid : String.eqb sid k = false).
    { apply String.eqb_neq. intros ->. apply Hk. now left. }
    assert (Hk' : ~ In k sids) by (intros H; apply Hk; now right).
    cbn [SessionManager.cleanup_all]. rewrite !cleanup_session_eq.
    cbn [Dict.get Dict.del]. rewrite Hsid.
    destruct (Dict.get d sid) as [session|] eqn:Eg.
    + rewrite (IH (Dict.del d sid) Hk').
      now destruct (SessionManager.cleanup_all
                      close (with_sessions self (Dict.del d sid)) sids).
    + rewrite (IH d Hk').
      now destruct (SessionManager.cleanup_all
                      close (with_sessions self d) sids).
Qed.

(** The sweep removes the sessions that satisfy [p] and closes their
    clients, in the order of the store. *)
Lemma cleanup_all_filter (self : SessionManager.t)
      (p : string * SessionManager.Session -> bool)
      (d : Dict.t SessionManager.Session) :
  NoDup (Dict.keys d) ->
  SessionManager.cleanup_all close (with_sessions self d)
                             (map fst (filter p d))
  = (with_sessions self (filter (fun kv => negb (p kv)) d),
     flat_map client_of (filter p d)).
Proof.
  induction d as [|[k v] d IH]; intros Hnd; [reflexivity |].
  inversion Hnd as [|? ? Hk Hd]; subst. cbn [filter].
  destruct (p (k, v)) eqn:Ep; cbn [negb map fst flat_map].
  - cbn [SessionManager.cleanup_all]. rewrite cleanup_session_eq.
    cbn [Dict.get Dict.del]. rewrite String.eqb_refl.
    now rewrite (IH Hd).
  - rewrite cleanup_all_skip.
    + now rewrite (IH Hd).
    + intros Hin. apply Hk. apply in_map_iff in Hin as [[k' v'] [E Hin]].
      simpl in E. subst k'. apply filter_In in Hin as [Hin _].
      change k with (fst (k, v')). now apply in_map.
Qed.

End StoreFacts.

Section GetSessionFacts.

Variable close : SessionManager.Conn -> result unit.

Lemma get_session_eq (self : SessionManager.t) (now : Z)
      (session_id : string) (host username : option string) :
  NoDup (Dict.keys (SessionManager.sessions self)) ->
  SessionManager.get_session close self now session_id host username
  = match Dict.get (kept self now) session_id with
    | None =>
        (fresh_session self now host username,
         {| SessionManager.sessions :=
              Dict.set (kept self now) session_id
                       (fresh_session self now host username);
            SessionManager.session_timeout :=
              SessionManager.session_timeout self;
            SessionManager.next_obj := S (SessionManager.next_obj self) |},
         swept self now)
    | Some old =>
        (SessionManager.touch old now,
         {| SessionManager.sessions :=
              Dict.set (kept self now) session_id
                       (SessionManager.touch old now);
            SessionManager.session_timeout :=
              SessionManager.session_timeout self;
            SessionManager.next_obj := SessionManager.next_obj self |},
         swept self now)
    end.
Proof.
  intros Hnd. unfold SessionManager.get_session,
    SessionManager.expired_sessions.
  assert (Hself : self = with_sessions self (SessionManager.sessions self))
    by now destruct self.
  rewrite Hself at 1.
  rewrite (cleanup_all_filter close self _ _ Hnd).
  cbn [with_sessions SessionManager.sessions SessionManager.session_timeout
       SessionManager.next_obj].
  fold (kept self now).
  now destruct (Dict.get (kept self now) session_id).
Qed.

Lemma get_kept (self : SessionManager.t) (now : Z) (session_id : string)
      (old : SessionManager.Session) :
  NoDup (Dict.keys (SessionManager.sessions self)) ->
  Dict.get (SessionManager.sessions self) session_id = Some old ->
  Dict.get (kept self now) session_id
  = if SessionManager.is_expired self now old then None else Some old.
Proof.
  unfold kept. generalize (SessionManager.is_expired self now) as p.
  intros p. induction (SessionManager.sessions self) as [|[k v] d IH];
    [discriminate |].
  intros Hnd. inversion Hnd as [|? ? Hk Hd]; subst. cbn [Dict.get filter snd].
  destruct (String.eqb session_id k) eqn:E.
  - apply String.eqb_eq in E as ->. intros H. injection H as ->.
    destruct (p old); cbn [negb Dict.get].
    + apply get_none_keys. intros Hin. apply Hk.
      apply in_map_iff in Hin as [[k' v'] [Ek Hin]]. simpl in Ek. subst k'.
      apply filter_In in Hin as [Hin _]. change k with (fst (k, v')).
      now apply in_map.
    + now rewrite String.eqb_refl.
  - intros H. destruct (p v); cbn [negb Dict.get]; [| rewrite E]; now apply IH.
Qed.




Lemma set_absent {V : Type} (d : Dict.t V) (k : string) (v : V) :
  Dict.get d k = None -> Dict.set d k v = (d ++ [(k, v)])%list.
Proof.
  induction d as [|[k0 v0] d IH]; [reflexivity |]. simpl.
  destruct (String.eqb k k0); [discriminate |]. intros H. now rewrite IH.
Qed.

Lemma get_none_not_key {V : Type} (d : Dict.t V) (k : string) :
  Dict.get d k = None -> ~ In k (Dict.keys d).
Proof.
  induction d as [|[k0 v0] d IH]; [intros _ [] |]. simpl.
  destruct (String.eqb k k0) eqn:E; [discriminate |].
  intros H [-> | Hin]; [now rewrite String.eqb_refl in E | now apply IH].
Qed.

Lemma keys_set_present {V : Type} (d : Dict.t V) (k : string) (v old : V) :
  Dict.get d k = Some old -> Dict.keys (Dict.set d k v) = Dict.keys d.
Proof.
  induction d as [|[k0 v0] d IH]; [discriminate |]. simpl.
  destruct (String.eqb k k0); [reflexivity |]. intros H. simpl.
  f_equal. now apply IH.
Qed.



Lemma nodup_keys_filter {V : Type} (p : string * V -> bool) (d : Dict.t V) :
  NoDup (Dict.keys d) -> NoDup (Dict.keys (filter p d)).
Proof.
  induction d as [|[k v] d IH]; [trivial |]. cbn [Dict.keys map filter fst].
  intros H. inversion H as [|? ? Hk Hd]; subst.
  destruct (p (k, v)); [| now apply IH].
  cbn [map fst]. constructor; [| now apply IH].
  intros Hin. apply Hk. apply in_map_iff in Hin as [[k' v'] [E Hin]].
  simpl in E. subst k'. apply filter_In in Hin as [Hin _].
  change k with (fst (k, v')). now apply in_map.
Qed.


End GetSessionFacts.

Section GetSessionSpec.

Variables close close' : SessionManager.Conn -> result unit.

Lemma not_expired_iff (self : SessionManager.t) (now : Z)
      (s : SessionManager.Session) :
  SessionManager.is_expired self now s = false
  <-> (now - SessionManager.last_used s
       <= SessionManager.session_timeout self)%Z.
Proof. unfold SessionManager.is_expired. apply Z.ltb_ge. Qed.



End GetSessionSpec.



(* ================================================================== *)
(** * The tool [execute_command] *)

Section ExecuteFacts.

Lemma occurs_app_r (p a b : string) : occurs p b -> occurs p (a ++ b).
Proof.
  intros [u [v ->]]. exists (a ++ u), v. now rewrite append_assoc.
Qed.

Lemma occurs_app_l (p a b : string) : occurs p a -> occurs p (a ++ b).
Proof.
  intros [u [v ->]]. exists u, (v ++ b). now rewrite !append_assoc.
Qed.

Lemma warning_mentions_force (command danger_type : string) :
  occurs "force_execute=true"
         (TerminalMCPServer.warning_msg command danger_type)
  /\ occurs "危险命令警告"
            (TerminalMCPServer.warning_msg command danger_type)
  /\ occurs command (TerminalMCPServer.warning_msg command danger_type).
Proof.
  unfold TerminalMCPServer.warning_msg. repeat split.
  - do 14 apply occurs_app_r. apply occurs_app_l.
    exists "**如需执行此命令，请确认后使用 `", "` 参数重新提交。**".
    reflexivity.
  - apply occurs_app_l. exists "⚠️ **", "**". reflexivity.
  - do 4 apply occurs_app_r. apply occurs_app_l. exists "", "".
    now rewrite append_nil_r.
Qed.

Lemma check_dangerous_category (command : string) :
  fst (CommandFilter.check_dangerous_command command) = true ->
  CommandFilter.check_dangerous_command command
  = (true, CommandFilter.deletion_command).
Proof.
  unfold CommandFilter.check_dangerous_command.
  destruct (Re.re_match _ _); [| discriminate].
  now destruct (existsb _ _).
Qed.

End ExecuteFacts.

(** C5. For every call of [execute_command] without [force_execute]
    whose command [check_dangerous_command] flags, whatever the filter
    would decide, the call returns at once the confirmation answer:
    [isError] false, [requires_confirmation] true, the command under
    [dangerous_command], and a text that warns of the dangerous command
    and tells to resubmit with [force_execute=true]. The world is left
    as it was: no session is resolved, no clock read, no executor
    invoked. [rm -rf /] is such a command, also under a filter that
    denies everything. *)
Theorem C5_confirmation_before_execution (sys : Sys.t)
        (self : TerminalMCPServer.t) (args : Args) (command : string)
        (w : World) :
  arg_command args = Some command ->
  TerminalMCPServer.default (arg_force_execute args) false = false ->
  fst (CommandFilter.check_dangerous_command command) = true ->
  TerminalMCPServer._execute_command sys self args w
  = (Ok (confirmation command), w)
  /\ isError (confirmation command) = false
  /\ requires_confirmation (confirmation command) = Some true
  /\ occurs "force_execute=true" (text (confirmation command))
  /\ occurs "危险命令警告" (text (confirmation command))
  /\ existsb is_execution
       (trace (snd (TerminalMCPServer._execute_command sys self args w)))
     = existsb is_execution (trace w)
  /\ fst (CommandFilter.check_dangerous_command "rm -rf /") = true
  /\ allowed (CommandFilter.is_allowed deny_all "rm -rf /") = false.
Proof.
  intros Hc Hf Hd. apply check_dangerous_category in Hd.
  assert (E : TerminalMCPServer._execute_command sys self args w
              = (Ok (confirmation command), w)).
  { unfold TerminalMCPServer._execute_command, try_except, bind.
    rewrite Hc. cbn [ret]. now rewrite Hf, Hd. }
  split; [exact E |]. rewrite E.
  destruct (warning_mentions_force command CommandFilter.deletion_command)
    as [H1 [H2 _]].
  repeat split; assumption.
Qed.

(** C5 at [rm -rf /] with no [force_execute], under the filter that
    denies everything, in a world where nothing has happened yet. *)
Lemma C5_confirmation_before_execution_witness :
  TerminalMCPServer._execute_command
    example_sys {| TerminalMCPServer.command_filter := deny_all |}
    (just_command "rm -rf /" None) empty_world
  = (Ok (confirmation "rm -rf /"), empty_world).
Proof.
  exact (proj1 (C5_confirmation_before_execution
                  example_sys
                  {| TerminalMCPServer.command_filter := deny_all |}
                  (just_command "rm -rf /" None) "rm -rf /" empty_world
                  eq_refl eq_refl eq_refl)).
Defined.

(* ================================================================== *)
(** * Computations that always return *)

Section MonadFacts.

Lemma total_ret {A : Type} (a : A) : total (ret a).
Proof. intros w. now exists a, w. Qed.

Lemma total_bind {A B : Type} (m : M A) (k : A -> M B) :
  total m -> (forall a, total (k a)) -> total (bind m k).
Proof.
  intros Hm Hk w. destruct (Hm w) as [a [w1 E]]. unfold bind. rewrite E.
  apply Hk.
Qed.

Lemma total_try {A : Type} (m : M A) (h : Exn.t -> M A) :
  (forall e, total (h e)) -> total (try_except m h).
Proof.
  intros Hh w. unfold try_except. destruct (m w) as [[a|e] w1].
  - now exists a, w1.
  - apply Hh.
Qed.

Lemma total_time (sys : Sys.t) : total (time_time sys).
Proof. intros w. eexists. eexists. reflexivity. Qed.

Lemma total_emit (ev : Event) : total (emit ev).
Proof. intros w. eexists. eexists. reflexivity. Qed.

Lemma total_emit_all (evs : list Event) : total (emit_all evs).
Proof.
  induction evs as [|ev evs IH]; [apply total_ret |].
  cbn [emit_all]. apply total_bind; [apply total_emit | intros _; exact IH].
Qed.

Lemma total_mutate (o : nat)
      (f : SessionManager.Session -> SessionManager.Session) :
  total (TerminalMCPServer.mutate_session o f).
Proof. intros w. eexists. eexists. reflexivity. Qed.

Lemma total_get_session (sys : Sys.t) (session_id : string)
      (host username : option string) :
  total (TerminalMCPServer.get_session sys session_id host username).
Proof.
  intros w. unfold TerminalMCPServer.get_session, bind, time_time, moment,
              get_manager. cbn [session_manager trace].
  destruct (SessionManager.get_session _ _ _ _ _ _) as [[session sm'] closed].
  unfold put_manager.
  destruct (total_emit_all (map EvClose closed)
              {| reads := S (reads w); trace := trace w;
                 session_manager := sm';
                 active_streams := active_streams w;
                 next_conn := next_conn w |}) as [[] [w1 E]].
  cbn [reads trace session_manager active_streams next_conn].
  rewrite E. now exists session, w1.
Qed.

Lemma total_local_execute (sys : Sys.t) (command : string)
      (env : option (Dict.t string)) (cwd : option string) :
  total (LocalExecutor.execute_command sys command env cwd).
Proof.
  unfold LocalExecutor.execute_command.
  apply total_bind; [apply total_time | intros start_time].
  apply total_try. intros e.
  apply total_bind; [apply total_time | intros now]. apply total_ret.
Qed.

Lemma total_remote (sys : Sys.t) (session : SessionManager.Session)
      (command host username : string) (password key_file : option string)
      (port : Z) (env : Dict.t string) :
  total (TerminalMCPServer._execute_remote_command
           sys session command host username password key_file port env).
Proof.
  unfold TerminalMCPServer._execute_remote_command.
  apply total_try. intros e. apply total_ret.
Qed.

Lemma total_run_command (sys : Sys.t) (command : string) (args : Args) :
  total (TerminalMCPServer.run_command sys command args).
Proof.
  unfold TerminalMCPServer.run_command.
  apply total_bind; [apply total_get_session | intros session].
  destruct (truthy_str (arg_host args)).
  - destruct (negb (truthy_str (arg_username args))); [apply total_ret |].
    apply total_bind; [apply total_remote | intros r; apply total_ret].
  - apply total_bind; [| intros r; apply total_ret].
    unfold TerminalMCPServer._execute_local_command.
    apply total_bind; [apply total_mutate | intros _].
    apply total_bind; [apply total_local_execute | intros r].
    apply total_bind; [apply total_mutate | intros _]. apply total_ret.
Qed.

End MonadFacts.

(* ================================================================== *)
(** * The dispatcher and the notifications *)

Section DispatchFacts.

Variable sys : Sys.t.
Variable server : TerminalMCPServer.t.

Lemma total_execute_command (args : Args) :
  total (TerminalMCPServer._execute_command sys server args).
Proof.
  unfold TerminalMCPServer._execute_command. apply total_try.
  intros e. apply total_ret.
Qed.

Lemma call_tool_answers (params : Params) (w : World) :
  exists r w',
    TerminalMCPServer._handle_call_tool sys server params w = (Ok r, w')
    /\ resp_id r = None.
Proof.
  unfold TerminalMCPServer._handle_call_tool.
  destruct (TerminalMCPServer.is_name (name params) "execute_command"
            || TerminalMCPServer.is_name (name params) "execute").
  - destruct (total_execute_command (arguments params) w) as [r [w' E]].
    unfold bind. rewrite E. cbn [ret]. now eexists; eexists.
  - destruct (TerminalMCPServer.is_name (name params) "get_tools");
      cbn [ret]; now eexists; eexists.
Qed.

Lemma with_id_resp (request_id : option Id) (r : Response) :
  resp_id r = None ->
  resp_id (TerminalMCPServer.with_id request_id r)
  = option_map Some request_id.
Proof. now destruct request_id. Qed.

(** Every request but the [ping] without an id is answered. *)
Lemma handle_request_answers (request : Request) (w : World) :
  TerminalMCPServer.is_name (method request) "ping" = false
  \/ req_id request <> None ->
  exists r w',
    TerminalMCPServer.handle_request sys server request w = (Ok (Some r), w')
    /\ resp_id r = option_map Some (req_id request).
Proof.
  intros H. unfold TerminalMCPServer.handle_request, try_except.
  destruct (TerminalMCPServer.is_name (method request) "initialize").
  { unfold bind, TerminalMCPServer._handle_initialize, ret.
    eexists; eexists. split; [reflexivity | now apply with_id_resp]. }
  destruct (TerminalMCPServer.is_name (method request) "tools/list").
  { unfold bind, TerminalMCPServer._handle_list_tools, ret.
    eexists; eexists. split; [reflexivity | now apply with_id_resp]. }
  destruct (TerminalMCPServer.is_name (method request) "tools/call").
  { destruct (call_tool_answers (params request) w) as [r [w' [E Hr]]].
    unfold bind. rewrite E. cbn [ret].
    eexists; eexists. split; [reflexivity | now apply with_id_resp]. }
  destruct (TerminalMCPServer.is_name (method request) "ping").
  { destruct H as [H | H]; [discriminate |].
    destruct (req_id request) as [i|]; [| contradiction].
    unfold bind, TerminalMCPServer._handle_ping, time_time, ret.
    eexists; eexists. split; reflexivity. }
  cbn [ret]. eexists; eexists. split; [reflexivity | now apply with_id_resp].
Qed.

Lemma handle_request_ping (request : Request) (w : World) :
  TerminalMCPServer.is_name (method request) "ping" = true ->
  TerminalMCPServer.handle_request sys server request w
  = match req_id request with
    | None => (Ok None, w)
    | Some i =>
        (Ok (Some {| payload := PResult (RPong (Sys.clock sys (reads w)));
                     resp_id := Some (Some i) |}),
         snd (time_time sys w))
    end.
Proof.
  intros H. unfold TerminalMCPServer.handle_request, try_except.
  destruct (method request) as [m|]; [| discriminate].
  cbn [TerminalMCPServer.is_name] in *. apply String.eqb_eq in H. subst m.
  cbn [String.eqb Ascii.eqb Bool.eqb].
  now destruct (req_id request).
Qed.

Lemma total_broadcast_loop (items : list (string * Chan))
      (message : Response) (dead : list string) :
  total (SSETransport.broadcast_loop sys items message dead).
Proof.
  revert dead. induction items as [|[stream_id response] rest IH];
    intros dead; [apply total_ret |].
  cbn [SSETransport.broadcast_loop].
  apply total_bind; [| intros d; apply IH].
  apply total_try. intros e.
  destruct (Exn.is_connection_error e); [apply total_ret |].
  destruct (SSETransport.mentions_closed e); apply total_ret.
Qed.

Lemma total_broadcast (message : Response) :
  total (SSETransport._broadcast_message sys message).
Proof.
  unfold SSETransport._broadcast_message.
  apply total_bind; [intros w; now eexists; eexists | intros streams].
  destruct (negb (CommandFilter.truthy streams)); [apply total_ret |].
  apply total_bind; [apply total_broadcast_loop | intros dead].
  apply total_bind; [intros w; now eexists; eexists | intros streams'].
  intros w. now eexists; eexists.
Qed.

End DispatchFacts.

Section TransportFacts.

Variable sys : Sys.t.
Variable server : TerminalMCPServer.t.

(** One turn of the stdio loop on a line that parses to [request]. *)
Lemma on_line_eq (loads : string -> result Request) (line : string)
      (request : Request) (w : World) :
  Py.strip line <> "" ->
  loads (Py.strip line) = Ok request ->
  StdioTransport.on_line sys server loads line w
  = match TerminalMCPServer.handle_request sys server request w with
    | (Ok (Some r), w') => (Ok tt, after_print w' r)
    | (Ok None, w') => (Ok tt, w')
    | (Raise _, w') => (Ok tt, w')
    end.
Proof.
  intros Hne Hl. unfold StdioTransport.on_line, try_except.
  destruct line as [|a l]; [now elim Hne |]. cbv zeta.
  destruct (Py.strip (String a l)) as [|b t] eqn:E; [now elim Hne |].
  rewrite Hl. unfold bind.
  now destruct (TerminalMCPServer.handle_request sys server request w)
    as [[[r|]|e] w'].
Qed.

(** The POST handler on a request object that has the two keys. *)
Lemma post_valid (data : Request) (w : World) :
  jsonrpc data = Some "2.0" ->
  method_field data <> Missing ->
  SSETransport._handle_mcp_message sys server data w
  = match TerminalMCPServer.handle_request sys server data w with
    | (Ok None, w') => (Ok {| SSETransport.status := 204;
                              SSETransport.body := None |}, w')
    | (Ok (Some r), w') =>
        let r' := match resp_id r with
                  | None => TerminalMCPServer.with_id (req_id data) r
                  | Some _ => r
                  end in
        (Ok {| SSETransport.status := 200; SSETransport.body := Some r' |},
         snd ((if CommandFilter.truthy (active_streams w')
               then SSETransport._broadcast_message sys r'
               else ret tt) w'))
    | (Raise e, w') =>
        (Ok match Exn.class e with
            | Exn.JSONDecodeError =>
                {| SSETransport.status := 400;
                   SSETransport.body :=
                     Some {| payload :=
                               PError (-32700) ("Parse error: " ++ Exn.str e);
                             resp_id := Some None |} |}
            | Exn.ValueError =>
                {| SSETransport.status := 400;
                   SSETransport.body :=
                     Some (SSETransport.error_body
                             (-32600) ("Invalid Request: " ++ Exn.str e)
                             data) |}
            | _ =>
                {| SSETransport.status := 500;
                   SSETransport.body :=
                     Some (SSETransport.error_body
                             (-32603) ("Internal error: " ++ Exn.str e)
                             data) |}
            end, w')
    end.
Proof.
  intros Hj Hm. unfold SSETransport._handle_mcp_message, try_except.
  rewrite Hj.
  assert (Hk : match method_field data with
               | Missing =>
                   raise (Exn.mk Exn.ValueError "缺少 method 字段")
               | Null | Value _ => ret tt
               end = ret tt)
    by (destruct (method_field data); [contradiction | |]; reflexivity).
  rewrite Hk.
  unfold bind at 1. cbn [ret]. unfold bind at 1. cbn [ret].
  unfold bind at 1.
  destruct (TerminalMCPServer.handle_request sys server data w)
    as [[[r|]|e] w'].
  - cbv zeta. unfold bind at 1, get_streams at 1.
    set (r' := match resp_id r with
               | None => TerminalMCPServer.with_id (req_id data) r
               | Some _ => r
               end).
    cbn [active_streams]. unfold bind.
    assert (Ht : total (if CommandFilter.truthy (active_streams w')
                        then SSETransport._broadcast_message sys r'
                        else ret tt))
      by (destruct (CommandFilter.truthy _);
          [apply total_broadcast | apply total_ret]).
    destruct (Ht w') as [[] [w'' E]]. rewrite E. reflexivity.
  - reflexivity.
  - now destruct (Exn.class e).
Qed.

(** The same for a request whose method is a value. *)
Lemma post_eq (data : Request) (w : World) :
  jsonrpc data = Some "2.0" ->
  method data <> None ->
  SSETransport._handle_mcp_message sys server data w
  = match TerminalMCPServer.handle_request sys server data w with
    | (Ok None, w') => (Ok {| SSETransport.status := 204;
                              SSETransport.body := None |}, w')
    | (Ok (Some r), w') =>
        let r' := match resp_id r with
                  | None => TerminalMCPServer.with_id (req_id data) r
                  | Some _ => r
                  end in
        (Ok {| SSETransport.status := 200; SSETransport.body := Some r' |},
         snd ((if CommandFilter.truthy (active_streams w')
               then SSETransport._broadcast_message sys r'
               else ret tt) w'))
    | (Raise e, w') =>
        (Ok match Exn.class e with
            | Exn.JSONDecodeError =>
                {| SSETransport.status := 400;
                   SSETransport.body :=
                     Some {| payload :=
                               PError (-32700) ("Parse error: " ++ Exn.str e);
                             resp_id := Some None |} |}
            | Exn.ValueError =>
                {| SSETransport.status := 400;
                   SSETransport.body :=
                     Some (SSETransport.error_body
                             (-32600) ("Invalid Request: " ++ Exn.str e)
                             data) |}
            | _ =>
                {| SSETransport.status := 500;
                   SSETransport.body :=
                     Some (SSETransport.error_body
                             (-32603) ("Internal error: " ++ Exn.str e)
                             data) |}
            end, w')
    end.
Proof.
  intros Hj Hm. apply post_valid; [exact Hj |].
  unfold method in Hm. destruct (method_field data);
    [now elim Hm | now elim Hm | discriminate].
Qed.

End TransportFacts.

(** C2 (as the code has it). A [ping] without an id is the one request
    the dispatcher does not answer: [handle_request] returns [None] and
    leaves the world as it was, the stdio loop prints nothing for it,
    and the POST handler answers 204 without a body. A [ping] with an
    id is answered with the pong result, the clock reading as its
    timestamp, under that id. Every other request is answered, with or
    without an id: the response bears the id of the request when there
    is one and no id key otherwise, the stdio loop prints it as one
    line, and the POST handler returns it with the status 200. *)
Theorem C2_only_ping_is_a_notification (sys : Sys.t)
        (server : TerminalMCPServer.t) (request : Request) (w : World)
        (loads : string -> result Request) (line : string) :
  let answer := TerminalMCPServer.handle_request sys server request w in
  let parsed := Py.strip line <> "" /\ loads (Py.strip line) = Ok request in
  let posted := jsonrpc request = Some "2.0" /\ method request <> None in
  (TerminalMCPServer.is_name (method request) "ping" = true ->
   req_id request = None ->
   answer = (Ok None, w)
   /\ (parsed -> StdioTransport.on_line sys server loads line w = (Ok tt, w))
   /\ (jsonrpc request = Some "2.0" ->
       SSETransport._handle_mcp_message sys server request w
       = (Ok {| SSETransport.status := 204; SSETransport.body := None |}, w)))
  /\ (TerminalMCPServer.is_name (method request) "ping" = true ->
      forall i, req_id request = Some i ->
        fst answer
        = Ok (Some {| payload := PResult (RPong (Sys.clock sys (reads w)));
                      resp_id := Some (Some i) |}))
  /\ (TerminalMCPServer.is_name (method request) "ping" = false
      \/ req_id request <> None ->
      exists r w',
        answer = (Ok (Some r), w')
        /\ resp_id r = option_map Some (req_id request)
        /\ (parsed ->
            StdioTransport.on_line sys server loads line w
            = (Ok tt, after_print w' r))
        /\ (posted ->
            exists w'',
              SSETransport._handle_mcp_message sys server request w
              = (Ok {| SSETransport.status := 200;
                       SSETransport.body := Some r |}, w''))).
Proof.
  intros answer parsed posted. split; [| split].
  - intros Hp Hid.
    assert (E : answer = (Ok None, w)).
    { subst answer. rewrite (handle_request_ping sys server request w Hp).
      now rewrite Hid. }
    split; [exact E |]. split.
    + intros [Hne Hl]. rewrite (on_line_eq sys server loads line request w
                                           Hne Hl).
      fold answer. now rewrite E.
    + intros Hj. rewrite post_eq; [fold answer; now rewrite E | exact Hj |].
      destruct (method request); [discriminate | discriminate Hp].
  - intros Hp i Hid. subst answer.
    rewrite (handle_request_ping sys server request w Hp). now rewrite Hid.
  - intros H.
    destruct (handle_request_answers sys server request w H)
      as [r [w' [E Hr]]].
    exists r, w'. fold answer in E. split; [exact E |]. split; [exact Hr |].
    split.
    + intros [Hne Hl]. rewrite (on_line_eq sys server loads line request w
                                           Hne Hl).
      fold answer. now rewrite E.
    + intros [Hj Hm]. rewrite (post_eq sys server request w Hj Hm).
      fold answer. rewrite E. cbv zeta.
      assert (Hr' : match resp_id r with
                    | None => TerminalMCPServer.with_id (req_id request) r
                    | Some _ => r
                    end = r).
      { rewrite Hr. now destruct (req_id request). }
      rewrite Hr'. now eexists.
Qed.

(** C2, the claim as written fails: an [initialize] request without an
    id is answered by the dispatcher with a response that has no id,
    the stdio loop prints that response, and the POST handler returns
    it with the status 200. *)
Lemma C2_initialize_without_id_is_answered :
  req_id initialize_notification = None
  /\ fst (TerminalMCPServer.handle_request
            example_sys example_server initialize_notification empty_world)
     = Ok (Some {| payload := PResult RInitialize; resp_id := None |})
  /\ StdioTransport.printed
       (snd (StdioTransport.on_line example_sys example_server example_loads
                                    initialize_line empty_world))
     = [{| payload := PResult RInitialize; resp_id := None |}]
  /\ fst (SSETransport._handle_mcp_message
            example_sys example_server initialize_notification empty_world)
     = Ok {| SSETransport.status := 200;
             SSETransport.body :=
               Some {| payload := PResult RInitialize; resp_id := None |} |}.
Proof. repeat split. Qed.

(** C2 at a [ping] without an id that comes in on the line
    [{"jsonrpc": "2.0", "method": "ping"}]. *)
Lemma C2_only_ping_is_a_notification_witness :
  TerminalMCPServer.handle_request
    example_sys example_server ping_notification empty_world
  = (Ok None, empty_world)
  /\ StdioTransport.on_line example_sys example_server example_loads
                            ping_line empty_world
     = (Ok tt, empty_world)
  /\ SSETransport._handle_mcp_message
       example_sys example_server ping_notification empty_world
     = (Ok {| SSETransport.status := 204; SSETransport.body := None |},
        empty_world).
Proof.
  destruct (proj1 (C2_only_ping_is_a_notification
                     example_sys example_server ping_notification empty_world
                     example_loads ping_line) eq_refl eq_refl)
    as [H1 [H2 H3]].
  split; [exact H1 |]. split.
  - apply H2. split; [discriminate | reflexivity].
  - now apply H3.
Defined.

(* ================================================================== *)
(** * The broadcast over the SSE streams *)

Section BroadcastFacts.

Variable sys : Sys.t.
Variable message : Response.

Lemma with_events_nil (w : World) : with_events w [] = w.
Proof. destruct w. unfold with_events. cbn. now rewrite app_nil_r. Qed.

Lemma with_events_app (w : World) (a b : list Event) :
  with_events (with_events w a) b = with_events w (a ++ b).
Proof. unfold with_events. cbn. now rewrite app_assoc. Qed.

(** One turn of the loop. *)
Lemma broadcast_step (stream_id : string) (response : Chan)
      (dead : list string) (w : World) :
  let f := fate_at sys (List.length (trace w)) response message in
  try_except
    (bind moment
       (fun n =>
          if negb (Sys.is_connection_alive sys n response)
          then ret (dead ++ [stream_id])%list
          else bind (SSETransport._send_sse_message sys response message)
                    (fun _ => ret dead)))
    (fun e =>
       if Exn.is_connection_error e then ret (dead ++ [stream_id])%list
       else if SSETransport.mentions_closed e
            then ret (dead ++ [stream_id])%list
            else ret dead) w
  = (Ok (dead ++ dropped [(stream_id, response, f)])%list,
     with_events w (event_of message (stream_id, response, f))).
Proof.
  intros f. subst f. unfold fate_at, try_except, bind, moment,
    SSETransport._send_sse_message, dropped, event_of.
  cbn [fst snd].
  destruct (Sys.is_connection_alive sys (List.length (trace w)) response);
    cbn [negb].
  - unfold bind, moment.
    destruct (Sys.write sys (List.length (trace w)) response message)
      as [[]|e].
    + cbn. now rewrite app_nil_r.
    + unfold emit, raise. cbn [fst snd].
      destruct (Exn.is_connection_error e); cbn [orb]; [reflexivity |].
      destruct (SSETransport.mentions_closed e); cbn;
        [reflexivity | now rewrite app_nil_r].
  - cbn. now rewrite with_events_nil.
Qed.

Lemma broadcast_loop_spec (items : list (string * Chan))
      (dead : list string) (w : World) :
  exists fates,
    map fst fates = items
    /\ Forall (fun x => exists n, snd x = fate_at sys n (snd (fst x)) message)
              fates
    /\ SSETransport.broadcast_loop sys items message dead w
       = (Ok (dead ++ dropped fates)%list,
          with_events w (flat_map (event_of message) fates)).
Proof.
  revert dead w. induction items as [|[stream_id response] rest IH];
    intros dead w.
  - exists []. cbn. rewrite app_nil_r, with_events_nil. now repeat split.
  - cbn [SSETransport.broadcast_loop]. unfold bind at 1.
    rewrite broadcast_step.
    set (f := fate_at sys (List.length (trace w)) response message).
    destruct (IH (dead ++ dropped [(stream_id, response, f)])%list
                 (with_events w (event_of message (stream_id, response, f))))
      as [fates [Hm [Hf E]]].
    exists ((stream_id, response, f) :: fates). split; [| split].
    + cbn. now rewrite Hm.
    + constructor; [now exists (List.length (trace w)) | exact Hf].
    + rewrite E, with_events_app, <- app_assoc. f_equal. f_equal.
      unfold dropped. cbn [filter snd]. now destruct (stays f).
Qed.




End BroadcastFacts.

Section BroadcastTheorem.


End BroadcastTheorem.

(** The whole of [_broadcast_message]. *)
Lemma broadcast_eq (sys : Sys.t) (message : Response) (w : World) :
  exists fates : list (string * Chan * fate),
    map fst fates = active_streams w
    /\ Forall (fun x => exists n, snd x = fate_at sys n (snd (fst x)) message)
              fates
    /\ SSETransport._broadcast_message sys message w
       = (Ok tt,
          {| reads := reads w;
             trace := (trace w ++ flat_map (event_of message) fates)%list;
             session_manager := session_manager w;
             active_streams :=
               SSETransport.remove_dead (active_streams w) (dropped fates);
             next_conn := next_conn w |}).
Proof.
  unfold SSETransport._broadcast_message, bind at 1, get_streams.
  destruct (active_streams w) as [|item rest] eqn:Es.
  - exists []. split; [reflexivity |]. split; [constructor |].
    cbn. rewrite app_nil_r. destruct w. cbn in Es. now subst.
  - cbn [CommandFilter.truthy negb]. rewrite <- Es.
    destruct (broadcast_loop_spec sys message (active_streams w) [] w)
      as [fates [Hm [Hf E]]].
    exists fates. split; [exact Hm |]. split; [exact Hf |].
    unfold bind. rewrite E. reflexivity.
Qed.




(* ================================================================== *)
(** * Further properties of the command filter *)

Section FilterExtras.

Lemma contains_strip (c : ascii) (x : string) :
  Py.contains (String c "") x = false ->
  Py.contains (String c "") (Py.strip x) = false.
Proof.
  intros H. unfold Py.strip.
  destruct (lstrip_split x) as [w [Hx _]].
  destruct (rstrip_split (Py.lstrip x)) as [w' [Hl _]].
  rewrite Hx, Hl, !contains_char_app in H.
  apply orb_false_iff in H as [_ H]. now apply orb_false_iff in H as [H _].
Qed.

Lemma find_app {A : Type} (p : A -> bool) (l1 l2 : list A) :
  find p (l1 ++ l2)%list
  = match find p l1 with Some x => Some x | None => find p l2 end.
Proof.
  induction l1 as [|a l1 IH]; [reflexivity |]. cbn [app find].
  now destruct (p a).
Qed.

Lemma compiled_app (compile : string -> Re.Compile)
      (l1 l2 : list string) :
  compiled compile (l1 ++ l2)%list
  = (compiled compile l1 ++ compiled compile l2)%list.
Proof. unfold compiled. apply flat_map_app. Qed.

Lemma compiled_patterns (compile : string -> Re.Compile)
      (patterns : list string) :
  crash_of compile patterns = None ->
  map fst (compiled compile patterns)
  = filter (fun p => negb (fails compile p)) patterns.
Proof.
  induction patterns as [|p rest IH]; [reflexivity |].
  unfold compiled, fails in *. cbn [flat_map filter crash_of].
  destruct (compile p); cbn [negb app map fst]; intros H;
    try discriminate; now rewrite IH.
Qed.

Lemma compiled_paired (compile : string -> Re.Compile)
      (patterns : list string) (p : string) (regex : Re.Pattern) :
  In (p, regex) (compiled compile patterns) ->
  In p patterns /\ compile p = Re.Compiled regex.
Proof.
  unfold compiled. intros H. apply in_flat_map in H as [q [Hq H]].
  destruct (compile q) as [r| |e] eqn:E; try now inversion H.
  destruct H as [H | []]. injection H as -> ->. now split.
Qed.

Lemma compiled_length (compile : string -> Re.Compile)
      (patterns : list string) :
  crash_of compile patterns = None ->
  List.length (compiled compile patterns)
  + List.length (filter (fails compile) patterns)
  = List.length patterns.
Proof.
  induction patterns as [|p rest IH]; [reflexivity |].
  unfold compiled, fails in *. cbn [flat_map filter crash_of].
  destruct (compile p); cbn [app List.length]; intros H;
    try discriminate; specialize (IH H); lia.
Qed.

Lemma compiled_all_fail (compile : string -> Re.Compile)
      (patterns : list string) :
  (forall p, In p patterns -> compile p = Re.Error) ->
  compiled compile patterns = [] /\ crash_of compile patterns = None.
Proof.
  induction patterns as [|p l IH]; [now split |]. intros Hall.
  unfold compiled. cbn [flat_map crash_of].
  rewrite (Hall p (or_introl eq_refl)). apply IH.
  intros q Hq. apply Hall. now right.
Qed.

(** A construction that was ended logged nothing but the patterns
    dropped until then. *)
Lemma init_abort_log (compile : string -> Re.Compile)
      (config : CommandFilter.Config) (e : Exn.t) :
  fst (CommandFilter.__init__ compile config) = Raise e ->
  forall entry,
    In entry (snd (CommandFilter.__init__ compile config)) ->
    exists p, entry = CommandFilter.WhitelistCompileError p
              \/ entry = CommandFilter.BlacklistCompileError p.
Proof.
  unfold CommandFilter.__init__. cbv zeta.
  destruct (CommandFilter.compile_rules compile
              (CommandFilter.whitelist config)) as [[wr|we] wf].
  - destruct (CommandFilter.compile_rules compile
                (CommandFilter.blacklist config)) as [[br|be] bf];
      cbn [fst snd]; [discriminate |].
    intros _ entry Hin. apply in_app_or in Hin as [Hin | Hin];
      apply in_map_iff in Hin as [p [<- _]]; exists p; auto.
  - cbn [fst snd]. intros _ entry Hin.
    apply in_map_iff in Hin as [p [<- _]]. exists p. auto.
Qed.

End FilterExtras.

(** X1. The text the two checks work on never holds a [#] and never
    starts or ends with white space: trimming it again changes nothing. *)
Theorem X1_normal_form_is_trimmed_and_comment_free (command : string) :
  let m := CommandFilter._extract_main_command command in
  Py.contains "#" m = false /\ Py.strip m = m /\ no_lead m = true.
Proof.
  intros m. subst m. rewrite extract_normal_form. repeat split.
  - apply (contains_strip CommandFilter.hash).
    apply (split_0_clean CommandFilter.hash).
  - apply strip_idem.
  - apply strip_no_lead.
Qed.

(** X2. Each rule a filter that was built keeps pairs a configured
    pattern with the regular expression compiled from that very
    pattern, the rules stand in the configured order, and the patterns
    that raised [re.error] are the only ones left out: rules and
    failures add up to the patterns. *)
Theorem X2_rules_pair_pattern_and_regex (compile : string -> Re.Compile)
        (config : CommandFilter.Config) (self : CommandFilter.t)
        (log : list CommandFilter.LogEntry) :
  CommandFilter.__init__ compile config = (Ok self, log) ->
  (forall p regex,
     In (p, regex) (CommandFilter.blacklist_rules self) ->
     In p (CommandFilter.blacklist config) /\ compile p = Re.Compiled regex)
  /\ (forall p regex,
        In (p, regex) (CommandFilter.whitelist_rules self) ->
        In p (CommandFilter.whitelist config)
        /\ compile p = Re.Compiled regex)
  /\ map fst (CommandFilter.blacklist_rules self)
     = filter (fun p => negb (fails compile p)) (CommandFilter.blacklist config)
  /\ map fst (CommandFilter.whitelist_rules self)
     = filter (fun p => negb (fails compile p)) (CommandFilter.whitelist config)
  /\ List.length (CommandFilter.blacklist_rules self)
     + List.length (filter (fails compile) (CommandFilter.blacklist config))
     = List.length (CommandFilter.blacklist config)
  /\ CommandFilter.blacklist_patterns self = CommandFilter.blacklist config
  /\ CommandFilter.whitelist_patterns self = CommandFilter.whitelist config.
Proof.
  intros Hinit.
  destruct (init_inv compile config self log Hinit) as (Hc & -> & _).
  rewrite crash_of_app in Hc.
  destruct (crash_of compile (CommandFilter.whitelist config)) eqn:Hw;
    [discriminate |].
  unfold built.
  cbn [CommandFilter.blacklist_rules CommandFilter.whitelist_rules
       CommandFilter.blacklist_patterns CommandFilter.whitelist_patterns].
  repeat split; try (now apply compiled_patterns);
    try (now apply compiled_length);
    intros; eapply compiled_paired; eassumption.
Qed.

(** X2 at the policy of the examples: the allow rules stand in the
    order of the configured allow patterns, none of which was
    dropped. *)
Lemma X2_rules_pair_pattern_and_regex_witness :
  map fst (CommandFilter.whitelist_rules example_filter)
  = ["ifconfig"; "ip"; "df"]
  /\ List.length (CommandFilter.blacklist_rules example_filter)
     + List.length (filter (fails compile_table)
                           (CommandFilter.blacklist example_config))
     = 2.
Proof.
  assert (Hinit : CommandFilter.__init__ compile_table example_config
                  = (Ok example_filter,
                     snd (CommandFilter.__init__ compile_table
                                                 example_config)))
    by reflexivity.
  destruct (X2_rules_pair_pattern_and_regex
              compile_table example_config example_filter _ Hinit)
    as (_ & _ & _ & Hwhite & Hcount & _).
  split.
  - rewrite Hwhite. reflexivity.
  - exact Hcount.
Defined.

(** X3. The summary line is logged exactly when the construction
    returns. Then the log holds it with the counts of the filter and,
    exactly when some deny pattern raised [re.error], the security
    warning with the number of those patterns; allow patterns that
    raise [re.error] never bring that warning. A construction ended by
    another exception of [re.compile] logs neither line: its log holds
    nothing but the patterns dropped until then. *)
Theorem X3_blacklist_warning (compile : string -> Re.Compile)
        (config : CommandFilter.Config) :
  let r := CommandFilter.__init__ compile config in
  let failed :=
    List.length (filter (fails compile) (CommandFilter.blacklist config)) in
  ((exists n1 n2 n3 n4 enabled,
      In (CommandFilter.InitInfo n1 n2 n3 n4 enabled) (snd r))
   <-> exists self, fst r = Ok self)
  /\ (forall self,
        fst r = Ok self ->
        In (CommandFilter.InitInfo
              (List.length (CommandFilter.blacklist_rules self))
              (List.length (CommandFilter.blacklist config))
              (List.length (CommandFilter.whitelist_rules self))
              (List.length (CommandFilter.whitelist config))
              (CommandFilter.whitelist_enabled self)) (snd r)
        /\ (forall k, In (CommandFilter.BlacklistWarning k) (snd r)
                      <-> k = failed /\ 0 < failed))
  /\ (forall e,
        fst r = Raise e ->
        forall entry,
          In entry (snd r) ->
          exists p, entry = CommandFilter.WhitelistCompileError p
                    \/ entry = CommandFilter.BlacklistCompileError p).
Proof.
  intros r failed.
  assert (Hok : forall self,
            fst r = Ok self ->
            In (CommandFilter.InitInfo
                  (List.length (CommandFilter.blacklist_rules self))
                  (List.length (CommandFilter.blacklist config))
                  (List.length (CommandFilter.whitelist_rules self))
                  (List.length (CommandFilter.whitelist config))
                  (CommandFilter.whitelist_enabled self)) (snd r)
            /\ (forall k, In (CommandFilter.BlacklistWarning k) (snd r)
                          <-> k = failed /\ 0 < failed)).
  { intros self Hself.
    assert (Hinit : r = (Ok self, snd r))
      by (destruct r as [x l]; cbn [fst snd] in *; now subst).
    destruct (init_inv compile config self (snd r) Hinit)
      as (Hc & -> & Hlog).
    rewrite Hlog. unfold build_log, built. cbv zeta.
    cbn [CommandFilter.blacklist_rules CommandFilter.whitelist_rules
         CommandFilter.whitelist_enabled].
    rewrite crash_of_app in Hc.
    destruct (crash_of compile (CommandFilter.whitelist config));
      [discriminate |].
    pose proof (compiled_length compile (CommandFilter.blacklist config) Hc)
      as Hl.
    fold failed in Hl. split.
    - apply in_or_app. right. apply in_or_app. right. apply in_or_app.
      left. now left.
    - intros k. rewrite !in_app_iff, !in_map_iff. split.
      + intros [[x [E _]] | [[x [E _]] | [[E | []] | H]]];
          try discriminate.
        destruct (_ <? _) eqn:Elt; [| inversion H].
        apply Nat.ltb_lt in Elt. destruct H as [H | []].
        injection H as <-. lia.
      + intros [-> Hpos]. right. right. right.
        destruct (_ <? _) eqn:Elt.
        * left. f_equal. lia.
        * apply Nat.ltb_ge in Elt. lia. }
  split; [| split; [exact Hok |]].
  - split.
    + intros (n1 & n2 & n3 & n4 & enabled & Hin).
      destruct (fst r) as [self|e] eqn:E; [now exists self |].
      destruct (init_abort_log compile config e E _ Hin) as [p [H | H]];
        discriminate.
    + intros [self Hself]. destruct (Hok self Hself) as [Hin _].
      do 5 eexists. exact Hin.
  - intros e He. exact (init_abort_log compile config e He).
Qed.

(** X4. Deny patterns appended to the blacklist of a configuration
    whose filter was built. If [re.compile] raises something else than
    [re.error] on one of them, no filter is built: the construction
    ends with the exception of the first such pattern. Otherwise a
    filter is built, and it never allows a command the first filter
    refused, it leaves the decision as it was for every command an
    earlier deny rule already matched (the rule reported stays the
    first one that matches), and it decides every command as before
    when each appended pattern raises [re.error]. *)
Theorem X4_appended_deny_rules (compile : string -> Re.Compile)
        (white black more : list string) (first : CommandFilter.t)
        (command : string) :
  filter_of compile white black = Ok first ->
  (forall e, crash_of compile more = Some e ->
             filter_of compile white (black ++ more)%list = Raise e)
  /\ (crash_of compile more = None ->
      exists second,
        filter_of compile white (black ++ more)%list = Ok second)
  /\ (forall second,
        filter_of compile white (black ++ more)%list = Ok second ->
        let before := CommandFilter.is_allowed first command in
        let after := CommandFilter.is_allowed second command in
        (allowed after = true -> allowed before = true)
        /\ (denied_by_rule before = true -> after = before)
        /\ ((forall p, In p more -> compile p = Re.Error) ->
            after = before)).
Proof.
  intros Hfirst. destruct (filter_of_inv _ _ _ _ Hfirst) as [-> Hc].
  assert (Hext : crash_of compile (white ++ black ++ more)%list
                 = crash_of compile more).
  { rewrite app_assoc, crash_of_app. now rewrite Hc. }
  split; [| split].
  - intros e He. unfold filter_of. rewrite init_fst.
    cbn [CommandFilter.whitelist CommandFilter.blacklist].
    now rewrite Hext, He.
  - intros Hm. eexists. unfold filter_of. rewrite init_fst.
    cbn [CommandFilter.whitelist CommandFilter.blacklist].
    now rewrite Hext, Hm.
  - intros second Hsecond.
    destruct (filter_of_inv _ _ _ _ Hsecond) as [-> _].
    intros before after. subst before after.
    rewrite !is_allowed_eq. cbv zeta. unfold built.
    cbn [CommandFilter.blacklist_rules CommandFilter.whitelist_rules
         CommandFilter.whitelist_enabled CommandFilter.whitelist
         CommandFilter.blacklist].
    rewrite compiled_app, find_app.
    set (m := CommandFilter._extract_main_command command).
    destruct (find (fun rule => deny_matches rule m)
                   (compiled compile black)) as [rule|] eqn:E1.
    + split; [tauto | split; intros; reflexivity].
    + split; [| split].
      * destruct (find (fun rule => deny_matches rule m)
                       (compiled compile more)); [discriminate | trivial].
      * destruct (CommandFilter.truthy white);
          [destruct (existsb _ _) |]; discriminate.
      * intros Hall.
        now rewrite (proj1 (compiled_all_fail compile more Hall)).
Qed.

(** X4 at the policy of the examples with one more deny pattern:
    [shutdown now] was denied by [^\s*shutdown] and still is; with a
    deny pattern whose repeat count is too large no filter is built. *)
Lemma X4_appended_deny_rules_witness :
  (exists first second,
     filter_of compile_table ["df"] ["^\s*shutdown"] = Ok first
     /\ filter_of compile_table ["df"] ["^\s*shutdown"; ".*;\s*rm\s+-rf"]
        = Ok second
     /\ CommandFilter.is_allowed second "shutdown now"
        = CommandFilter.is_allowed first "shutdown now")
  /\ filter_of compile_table ["df"]
               ["^\s*shutdown"; "a{99999999999999999999}"]
     = Raise (Exn.mk Exn.Other "the repetition number is too large").
Proof.
  assert (Hfirst : filter_of compile_table ["df"] ["^\s*shutdown"]
                   = Ok (built compile_table
                               {| CommandFilter.whitelist := ["df"];
                                  CommandFilter.blacklist :=
                                    ["^\s*shutdown"] |}))
    by reflexivity.
  split.
  - destruct (X4_appended_deny_rules
                compile_table ["df"] ["^\s*shutdown"] [".*;\s*rm\s+-rf"]
                _ "shutdown now" Hfirst)
      as (_ & Hbuilt & Hsame).
    destruct (Hbuilt eq_refl) as [second Hsecond].
    eexists. exists second. split; [exact Hfirst |].
    split; [exact Hsecond |].
    exact (proj1 (proj2 (Hsame second Hsecond)) eq_refl).
  - destruct (X4_appended_deny_rules
                compile_table ["df"] ["^\s*shutdown"]
                ["a{99999999999999999999}"] _ "ls" Hfirst)
      as (Hraise & _).
    now apply Hraise.
Defined.

(* ================================================================== *)
(** * Further properties of the session store and the executors *)

Section DictFacts.

Lemma get_del_same {V : Type} (d : Dict.t V) (k : string) :
  NoDup (Dict.keys d) -> Dict.get (Dict.del d k) k = None.
Proof.
  induction d as [|[k0 v0] d IH]; [reflexivity |]. intros Hnd.
  inversion Hnd as [|? ? Hk0 Hd]; subst. cbn [Dict.del].
  destruct (String.eqb k k0) eqn:E.
  - apply String.eqb_eq in E as ->. now apply get_none_keys.
  - cbn [Dict.get]. rewrite E. now apply IH.
Qed.

Lemma get_set {V : Type} (d : Dict.t V) (k k' : string) (v : V) :
  Dict.get (Dict.set d k' v) k
  = if String.eqb k k' then Some v else Dict.get d k.
Proof.
  induction d as [|[k0 v0] d IH]; cbn [Dict.set Dict.get].
  - reflexivity.
  - destruct (String.eqb k' k0) eqn:E'; cbn [Dict.get].
    + apply String.eqb_eq in E' as <-. now destruct (String.eqb k k').
    + rewrite IH. destruct (String.eqb k k0) eqn:E; [| reflexivity].
      apply String.eqb_eq in E as ->.
      destruct (String.eqb k0 k') eqn:E2; [| reflexivity].
      apply String.eqb_eq in E2 as ->. now rewrite String.eqb_refl in E'.
Qed.

(** [d.update(other)]: the entries of [other] win. *)
Lemma get_update {V : Type} (d other : Dict.t V) (k : string) :
  NoDup (Dict.keys other) ->
  Dict.get (Dict.update d other) k
  = match Dict.get other k with
    | Some v => Some v
    | None => Dict.get d k
    end.
Proof.
  unfold Dict.update. revert d.
  induction other as [|[k0 v0] other IH]; intros d Hnd; [reflexivity |].
  inversion Hnd as [|? ? Hk0 Hd]; subst. cbn [fold_left fst snd Dict.get].
  rewrite (IH _ Hd), get_set.
  destruct (String.eqb k k0) eqn:E; [| reflexivity].
  apply String.eqb_eq in E as ->. now rewrite (get_none_keys other k0 Hk0).
Qed.

Lemma keys_set_nodup {V : Type} (d : Dict.t V) (k : string) (v : V) :
  NoDup (Dict.keys d) -> NoDup (Dict.keys (Dict.set d k v)).
Proof.
  intros Hnd. destruct (Dict.get d k) as [old|] eqn:E.
  - now rewrite (keys_set_present d k v old E).
  - rewrite (set_absent d k v E). unfold Dict.keys. rewrite map_app.
    apply NoDup_app; [exact Hnd | |].
    + constructor; [intros [] | constructor].
    + intros x Hx [Hk | []]. subst x. now apply (get_none_not_key d k E).
Qed.

Lemma keys_update_nodup {V : Type} (d other : Dict.t V) :
  NoDup (Dict.keys d) -> NoDup (Dict.keys (Dict.update d other)).
Proof.
  unfold Dict.update. revert d.
  induction other as [|[k0 v0] other IH]; intros d Hnd; [exact Hnd |].
  cbn [fold_left]. apply IH. now apply keys_set_nodup.
Qed.

(** A write through a session reference, seen from a key of the store. *)
Lemma get_mutate (self : SessionManager.t) (o : nat)
      (f : SessionManager.Session -> SessionManager.Session) (sid : string) :
  Dict.get (SessionManager.sessions (SessionManager.mutate self o f)) sid
  = option_map (fun s => if SessionManager.obj s =? o then f s else s)
               (Dict.get (SessionManager.sessions self) sid).
Proof.
  unfold SessionManager.mutate. cbn [SessionManager.sessions].
  induction (SessionManager.sessions self) as [|[k0 s0] d IH];
    [reflexivity |].
  cbn [map fst snd].
  destruct (SessionManager.obj s0 =? o) eqn:E; cbn [Dict.get];
    destruct (String.eqb sid k0); cbn [option_map];
    try rewrite E; try reflexivity; exact IH.
Qed.

End DictFacts.

(** X5. Cleaning up a session closes the client it holds, if any,
    takes the session out of the store whether or not that [close]
    raises, and leaves every other session as it is. Cleaning up an id
    the store does not hold does nothing, so a second clean-up of the
    same id closes nothing. *)
Theorem X5_cleanup_session (close : SessionManager.Conn -> result unit)
        (self : SessionManager.t) (session_id : string) :
  NoDup (Dict.keys (SessionManager.sessions self)) ->
  let r := SessionManager._cleanup_session close self session_id in
  snd r = session_clients (Dict.get (SessionManager.sessions self) session_id)
  /\ Dict.get (SessionManager.sessions (fst r)) session_id = None
  /\ (forall other, other <> session_id ->
        Dict.get (SessionManager.sessions (fst r)) other
        = Dict.get (SessionManager.sessions self) other)
  /\ SessionManager._cleanup_session close (fst r) session_id = (fst r, [])
  /\ (Dict.get (SessionManager.sessions self) session_id = None ->
      r = (self, [])).
Proof.
  intros Hnd r. subst r.
  pose proof (get_del_same _ session_id Hnd) as Hdel.
  assert (Hr : SessionManager._cleanup_session close self session_id
               = match Dict.get (SessionManager.sessions self) session_id with
                 | Some session =>
                     (with_sessions self
                        (Dict.del (SessionManager.sessions self) session_id),
                      session_clients (Some session))
                 | None => (self, [])
                 end).
  { unfold SessionManager._cleanup_session, with_sessions, session_clients.
    destruct (Dict.get (SessionManager.sessions self) session_id)
      as [session|]; [| reflexivity].
    destruct (SessionManager.ssh_client session) as [client|];
      [now destruct (close client) | reflexivity]. }
  rewrite Hr.
  destruct (Dict.get (SessionManager.sessions self) session_id)
    as [session|] eqn:E; cbn [fst snd].
  - split; [reflexivity |]. split; [exact Hdel |]. split.
    + intros other Ho. cbn [with_sessions SessionManager.sessions].
      now apply get_del_other.
    + split; [| discriminate]. unfold SessionManager._cleanup_session.
      cbn [with_sessions SessionManager.sessions]. now rewrite Hdel.
  - split; [reflexivity |]. split; [exact E |]. split; [reflexivity |].
    split; [| reflexivity]. unfold SessionManager._cleanup_session.
    now rewrite E.
Qed.

(** X5 at the store that holds one session with the client 7, whose
    [close] raises. *)
Lemma X5_cleanup_session_witness :
  snd (SessionManager._cleanup_session
         (fun _ => Raise (Exn.mk Exn.OSError "Socket is closed"))
         (session_manager world_seven) "default")
  = [7]
  /\ Dict.get (SessionManager.sessions
                 (fst (SessionManager._cleanup_session
                         (fun _ => Raise (Exn.mk Exn.OSError "Socket is closed"))
                         (session_manager world_seven) "default")))
              "default"
     = None.
Proof.
  assert (Hnd : NoDup (Dict.keys (SessionManager.sessions
                                    (session_manager world_seven))))
    by (constructor; [intros [] | constructor]).
  destruct (X5_cleanup_session
              (fun _ => Raise (Exn.mk Exn.OSError "Socket is closed"))
              (session_manager world_seven) "default" Hnd)
    as (H1 & H2 & _).
  split; [exact H1 | exact H2].
Defined.

Section ExecutorExtras.

Variable sys : Sys.t.

Lemma env_str_cons (kv : string * string) (rest : Dict.t string) :
  SSHExecutor.env_str (Some (kv :: rest))
  = export_of kv ++ SSHExecutor.env_str (Some rest).
Proof.
  unfold SSHExecutor.env_str, export_of.
  destruct rest as [|kv' rest]; cbn [map join].
  - now rewrite append_nil_r, !append_assoc.
  - now rewrite !append_assoc.
Qed.

Lemma env_str_exports (env : Dict.t string) (command : string) :
  SSHExecutor.env_str (Some env) ++ command
  = fold_right (fun kv acc => export_of kv ++ acc) command env.
Proof.
  induction env as [|kv rest IH]; [reflexivity |].
  rewrite env_str_cons, append_assoc. cbn [fold_right]. now rewrite IH.
Qed.

Lemma ssh_execute_world (client : SessionManager.Conn) (command : string)
      (env : option (Dict.t string)) (w : World) :
  snd (SSHExecutor.execute_command sys client command env w)
  = after_call w (EvExecCommand client (SSHExecutor.env_str env ++ command)).
Proof.
  unfold SSHExecutor.execute_command, bind, try_except, time_time, moment,
    emit, lift, ret, after_call. cbn.
  now destruct (Sys.exec_command sys _ client _).
Qed.

Lemma local_execute_world (command : string) (env : option (Dict.t string))
      (cwd : option string) (w : World) :
  snd (LocalExecutor.execute_command sys command env cwd w)
  = after_call w (EvSpawn command (exec_env sys env) cwd).
Proof.
  assert (He : match env with
               | Some e => if CommandFilter.truthy e
                           then Dict.update (Sys.environ sys) e
                           else Sys.environ sys
               | None => Sys.environ sys
               end = exec_env sys env)
    by (destruct env as [[|? ?]|]; reflexivity).
  unfold LocalExecutor.execute_command, bind, try_except, time_time, moment,
    emit, lift, ret, after_call. cbn. rewrite He.
  destruct (Sys.create_subprocess_shell sys _ command _ cwd) as [p|e];
    [| reflexivity].
  now destruct (Sys.communicate p).
Qed.

Lemma exec_env_get (env : Dict.t string) (k : string) :
  NoDup (Dict.keys env) ->
  Dict.get (exec_env sys (Some env)) k
  = overlay (Dict.get env k) (Dict.get (Sys.environ sys) k).
Proof.
  intros Hnd. destruct env as [|kv rest]; [reflexivity |].
  unfold exec_env, overlay. now apply get_update.
Qed.

End ExecutorExtras.

(** X6. The remote executor sends one command over the connection it
    is given, whatever [exec_command] then does: the command with one
    [export K='V'; ] before it for each entry of [env], in the order of
    the dictionary, and the bare command when [env] is missing or
    empty. It reads the clock twice, and touches neither the sessions
    nor the streams. *)
Theorem X6_remote_command_line (sys : Sys.t) (client : SessionManager.Conn)
        (command : string) (env : option (Dict.t string)) (w : World) :
  let w' := snd (SSHExecutor.execute_command sys client command env w) in
  let full := fold_right (fun kv acc => export_of kv ++ acc) command
                         (TerminalMCPServer.default env []) in
  trace w' = (trace w ++ [EvExecCommand client full])%list
  /\ reads w' = S (S (reads w))
  /\ session_manager w' = session_manager w
  /\ active_streams w' = active_streams w
  /\ next_conn w' = next_conn w.
Proof.
  intros w' full. subst w' full. rewrite ssh_execute_world.
  unfold after_call. cbn [trace reads session_manager active_streams next_conn].
  repeat split. destruct env as [env|]; cbn [TerminalMCPServer.default].
  - now rewrite env_str_exports.
  - reflexivity.
Qed.

(** X7. The local executor spawns one shell, with the command and the
    working directory it is given, also when the spawn then fails. The
    shell gets the environment of the server overlaid by [env]: a
    variable of [env] has the value [env] gives it, any other variable
    the value the server process has for it. The clock is read twice,
    and neither the sessions nor the streams are touched. *)
Theorem X7_local_environment (sys : Sys.t) (command : string)
        (env : Dict.t string) (cwd : option string) (w : World) :
  NoDup (Dict.keys env) ->
  let w' := snd (LocalExecutor.execute_command sys command (Some env) cwd w) in
  exists shell_env,
    trace w' = (trace w ++ [EvSpawn command shell_env cwd])%list
    /\ (forall k v, Dict.get env k = Some v -> Dict.get shell_env k = Some v)
    /\ (forall k, Dict.get env k = None ->
          Dict.get shell_env k = Dict.get (Sys.environ sys) k)
    /\ reads w' = S (S (reads w))
    /\ session_manager w' = session_manager w
    /\ active_streams w' = active_streams w.
Proof.
  intros Hnd w'. subst w'. rewrite local_execute_world.
  exists (exec_env sys (Some env)). unfold after_call.
  cbn [trace reads session_manager active_streams].
  split; [reflexivity |]. split; [| split; [| repeat split]].
  - intros k v Hk. now rewrite exec_env_get, Hk.
  - intros k Hk. now rewrite exec_env_get, Hk.
Qed.

(** X7 on the machine of the examples, for [LANG=C]. *)
Lemma X7_local_environment_witness :
  exists shell_env,
    trace (snd (LocalExecutor.execute_command
                  example_sys "env" (Some [("LANG", "C")]) None empty_world))
    = [EvSpawn "env" shell_env None]
    /\ Dict.get shell_env "LANG" = Some "C"
    /\ Dict.get shell_env "PATH" = Some "/usr/bin:/bin".
Proof.
  assert (Hnd : NoDup (Dict.keys [("LANG", "C")]))
    by (constructor; [intros [] | constructor]).
  destruct (X7_local_environment example_sys "env" [("LANG", "C")] None
                                 empty_world Hnd)
    as (shell_env & Ht & Hin & Hout & _).
  exists shell_env. split; [exact Ht |]. split.
  - now apply Hin.
  - now rewrite Hout.
Defined.

(** X8. A local call merges [env] into the environment the session
    keeps: the shell is spawned once, and a variable has there the
    value of [env], else the value the session kept from earlier calls,
    else the value of the server process. Whatever the shell does, the
    merged environment is what the session (every key under which the
    store holds that session object) keeps afterwards, and the other
    sessions are as they were. *)
Theorem X8_session_environment (sys : Sys.t)
        (session : SessionManager.Session) (command : string)
        (env : Dict.t string) (cwd : option string) (w : World) :
  NoDup (Dict.keys env) ->
  NoDup (Dict.keys (SessionManager.local_env session)) ->
  let r := TerminalMCPServer._execute_local_command
             sys session command env cwd w in
  let kept_env := Dict.update (SessionManager.local_env session) env in
  exists shell_env,
    (exists result, fst r = Ok result)
    /\ trace (snd r) = (trace w ++ [EvSpawn command shell_env cwd])%list
    /\ (forall k,
          Dict.get shell_env k
          = overlay (Dict.get env k)
              (overlay (Dict.get (SessionManager.local_env session) k)
                       (Dict.get (Sys.environ sys) k)))
    /\ (forall k,
          Dict.get kept_env k
          = overlay (Dict.get env k)
                    (Dict.get (SessionManager.local_env session) k))
    /\ (forall sid s,
          Dict.get (SessionManager.sessions (session_manager w)) sid = Some s ->
          Dict.get (SessionManager.sessions (session_manager (snd r))) sid
          = Some (if SessionManager.obj s =? SessionManager.obj session
                  then SessionManager.set_local_env kept_env s
                  else s)).
Proof.
  intros Henv Hses r kept_env. subst r.
  exists (exec_env sys (Some kept_env)).
  assert (Hk : forall k,
             Dict.get kept_env k
             = overlay (Dict.get env k)
                       (Dict.get (SessionManager.local_env session) k))
    by (intros k; unfold kept_env, overlay; now apply get_update).
  unfold TerminalMCPServer._execute_local_command,
    TerminalMCPServer.mutate_session, bind, get_manager, put_manager, ret.
  fold kept_env.
  set (w1 := {| reads := reads w; trace := trace w;
                session_manager :=
                  SessionManager.mutate (session_manager w)
                    (SessionManager.obj session)
                    (SessionManager.set_local_env kept_env);
                active_streams := active_streams w;
                next_conn := next_conn w |}).
  cbn beta iota.
  destruct (total_local_execute sys command (Some kept_env) cwd w1)
    as (result & w2 & Hrun).
  pose proof (local_execute_world sys command (Some kept_env) cwd w1) as Hw.
  rewrite Hrun in Hw |- *. cbn [snd] in Hw. subst w2.
  cbn [fst snd trace session_manager after_call w1].
  split; [now exists result |]. split; [reflexivity |]. split.
  - intros k. rewrite exec_env_get
      by (apply keys_update_nodup; exact Hses).
    rewrite Hk. now destruct (Dict.get env k).
  - split; [exact Hk |]. intros sid s Hs.
    rewrite !get_mutate, Hs. cbn [option_map].
    destruct (SessionManager.obj s =? SessionManager.obj session) eqn:E;
      [| now rewrite E].
    cbn [SessionManager.set_local_env SessionManager.obj]. now rewrite E.
Qed.

(** X8 for the session of [world_seven], which kept [LANG=C], and a
    call with [TERM=dumb]. *)
Lemma X8_session_environment_witness :
  exists shell_env,
    trace (snd (TerminalMCPServer._execute_local_command
                  example_sys session_seven "env" [("TERM", "dumb")] None
                  world_seven))
    = [EvSpawn "env" shell_env None]
    /\ Dict.get shell_env "LANG" = Some "C"
    /\ Dict.get shell_env "TERM" = Some "dumb".
Proof.
  assert (Henv : NoDup (Dict.keys [("TERM", "dumb")]))
    by (constructor; [intros [] | constructor]).
  assert (Hses : NoDup (Dict.keys (SessionManager.local_env session_seven)))
    by (constructor; [intros [] | constructor]).
  destruct (X8_session_environment example_sys session_seven "env"
              [("TERM", "dumb")] None world_seven Henv Hses)
    as (shell_env & _ & Ht & Hget & _).
  exists shell_env. split; [exact Ht |]. split.
  - now rewrite Hget.
  - now rewrite Hget.
Defined.

(* ================================================================== *)
(** * Further properties of the remote execution *)

Section RemoteExtras.

Variable sys : Sys.t.

Lemma total_ssh_execute (client : SessionManager.Conn) (command : string)
      (env : option (Dict.t string)) :
  total (SSHExecutor.execute_command sys client command env).
Proof.
  intros w.
  unfold SSHExecutor.execute_command, bind, try_except, time_time, moment,
    emit, lift, ret. cbn.
  destruct (Sys.exec_command sys _ client _); eauto.
Qed.

(** A remote call that needs a connection: the client is made only
    when [paramiko] is there. *)
Lemma remote_new_client (session : SessionManager.Session)
      (command host username : string) (password key_file : option string)
      (port : Z) (env : Dict.t string) (w : World) :
  needs_connection sys w session = true ->
  TerminalMCPServer._execute_remote_command
    sys session command host username password key_file port env w
  = try_except
      (bind (bind (TerminalMCPServer.create_ssh_client
                     sys host username key_file password port)
                  (fun client' =>
                     bind (TerminalMCPServer.mutate_session
                             (SessionManager.obj session)
                             (SessionManager.set_ssh_client client'))
                          (fun _ => ret client')))
            (fun ssh_client =>
               SSHExecutor.execute_command sys ssh_client command (Some env)))
      (fun e =>
         ret {| stdout := "";
                stderr := "远程命令执行失败: " ++ Exn.str e;
                exit_code := 1%Z;
                execution_time := 0%Z |})
      w.
Proof.
  intros Hneed. unfold needs_connection in Hneed.
  unfold TerminalMCPServer._execute_remote_command.
  unfold try_except, bind at 1, moment. cbv beta iota.
  destruct (SessionManager.ssh_client session) as [client|];
    [| reflexivity].
  apply Bool.negb_true_iff in Hneed. now rewrite Hneed.
Qed.

(** Without [paramiko] the call ends before anything is done. *)
Lemma remote_unavailable (session : SessionManager.Session)
      (command host username : string) (password key_file : option string)
      (port : Z) (env : Dict.t string) (w : World) :
  needs_connection sys w session = true ->
  Sys.ssh_available sys = false ->
  TerminalMCPServer._execute_remote_command
    sys session command host username password key_file port env w
  = (Ok (failure "远程命令执行失败: "
                 (Exn.mk Exn.Other
                    "SSH功能不可用，请安装paramiko: pip install paramiko")
                 0%Z), w).
Proof.
  intros Hneed Hssh. rewrite (remote_new_client _ _ _ _ _ _ _ _ w Hneed).
  unfold TerminalMCPServer.create_ssh_client. rewrite Hssh.
  cbn [negb]. unfold try_except, bind, raise, ret. reflexivity.
Qed.

(** The world after a connection was attempted for [session]. *)
Lemma remote_connect (session : SessionManager.Session)
      (command host username : string) (password key_file : option string)
      (port : Z) (env : Dict.t string) (w : World) :
  needs_connection sys w session = true ->
  Sys.ssh_available sys = true ->
  TerminalMCPServer._execute_remote_command
    sys session command host username password key_file port env w
  = match Sys.create_ssh_client sys (List.length (trace w)) host username
                                key_file password port with
    | Ok _ =>
        SSHExecutor.execute_command sys (next_conn w) command (Some env)
          {| reads := reads w;
             trace := (trace w ++ [EvConnect host username port])%list;
             session_manager :=
               SessionManager.mutate (session_manager w)
                 (SessionManager.obj session)
                 (SessionManager.set_ssh_client (next_conn w));
             active_streams := active_streams w;
             next_conn := S (next_conn w) |}
    | Raise e =>
        (Ok (failure "远程命令执行失败: "
               match Sys.close sys
                       (List.length
                          (trace w ++ [EvConnect host username port])%list)
                       (next_conn w) with
               | Ok _ => Exn.mk Exn.Other ("SSH连接失败: " ++ Exn.str e)
               | Raise e' => e'
               end 0%Z),
         {| reads := reads w;
            trace := ((trace w ++ [EvConnect host username port])
                      ++ [EvClose (next_conn w)])%list;
            session_manager := session_manager w;
            active_streams := active_streams w;
            next_conn := S (next_conn w) |})
    end.
Proof.
  intros Hneed Hssh. rewrite (remote_new_client _ _ _ _ _ _ _ _ w Hneed).
  destruct w as [rd tr sm st nc].
  cbn [reads trace session_manager active_streams next_conn].
  unfold TerminalMCPServer.create_ssh_client,
    TerminalMCPServer.mutate_session.
  rewrite Hssh. cbn [negb].
  unfold try_except, bind, new_client, moment, emit, raise, ret, get_manager,
    put_manager.
  cbn [reads trace session_manager active_streams next_conn].
  destruct (Sys.create_ssh_client sys (List.length tr) host username
                                  key_file password port) as [u|e].
  - cbn [reads trace session_manager active_streams next_conn].
    match goal with
    | |- context [SSHExecutor.execute_command sys ?c command ?e ?w1] =>
        destruct (total_ssh_execute c command e w1) as (r & w' & Hrun)
    end.
    now rewrite Hrun.
  - cbn [reads trace session_manager active_streams next_conn].
    now destruct (Sys.close sys _ nc).
Qed.

Lemma remote_reuse (session : SessionManager.Session)
      (command host username : string) (password key_file : option string)
      (port : Z) (env : Dict.t string) (w : World)
      (client : SessionManager.Conn) :
  SessionManager.ssh_client session = Some client ->
  Sys.transport_active sys (List.length (trace w)) client = true ->
  TerminalMCPServer._execute_remote_command
    sys session command host username password key_file port env w
  = SSHExecutor.execute_command sys client command (Some env) w.
Proof.
  intros Hc Ha. unfold TerminalMCPServer._execute_remote_command.
  rewrite Hc. unfold try_except, bind at 1, moment. cbv beta iota.
  rewrite Ha. unfold bind at 1, ret at 1. cbv beta iota.
  destruct (total_ssh_execute client command (Some env) w)
    as (r & w' & Hrun).
  now rewrite Hrun.
Qed.

End RemoteExtras.

(** X9. When the session holds a client whose transport is alive, a
    remote call sends the command over that client and opens no
    connection: the host, user name, password, key file and port of the
    call play no part, so a call that names another host runs on the
    connection the session already has. The session store is left as
    it was. *)
Theorem X9_live_client_is_reused (sys : Sys.t)
        (session : SessionManager.Session) (command host username : string)
        (password key_file : option string) (port : Z) (env : Dict.t string)
        (w : World) (client : SessionManager.Conn) :
  SessionManager.ssh_client session = Some client ->
  Sys.transport_active sys (List.length (trace w)) client = true ->
  let r := TerminalMCPServer._execute_remote_command
             sys session command host username password key_file port env w in
  r = SSHExecutor.execute_command sys client command (Some env) w
  /\ (forall host' username' password' key_file' port',
        TerminalMCPServer._execute_remote_command
          sys session command host' username' password' key_file' port' env w
        = r)
  /\ trace (snd r)
     = (trace w
        ++ [EvExecCommand client
              (SSHExecutor.env_str (Some env) ++ command)])%list
  /\ session_manager (snd r) = session_manager w
  /\ next_conn (snd r) = next_conn w.
Proof.
  intros Hc Ha r. subst r.
  rewrite (remote_reuse sys session command host username password key_file
                        port env w client Hc Ha).
  split; [reflexivity |]. split.
  - intros. now apply remote_reuse.
  - rewrite ssh_execute_world. unfold after_call.
    cbn [trace session_manager next_conn]. now repeat split.
Qed.

(** X9 for the session that holds the live client 7, and a call that
    names the host [beta]. *)
Lemma X9_live_client_is_reused_witness :
  trace (snd (TerminalMCPServer._execute_remote_command
                online_sys session_seven "uptime" "beta" "guest" None None
                22%Z [] world_seven))
  = [EvExecCommand 7 "uptime"].
Proof.
  assert (Hc : SessionManager.ssh_client session_seven = Some 7)
    by reflexivity.
  assert (Ha : Sys.transport_active online_sys
                 (List.length (trace world_seven)) 7 = true)
    by reflexivity.
  destruct (X9_live_client_is_reused online_sys session_seven "uptime" "beta"
              "guest" None None 22%Z [] world_seven 7 Hc Ha)
    as (_ & _ & Ht & _).
  exact Ht.
Defined.

(** X10. With [paramiko] there: when the session holds no client, or
    one whose transport is not alive, and the connection succeeds, a
    remote call opens one connection to the host, user name and port of
    the call and then sends the command over the new client; the new
    client takes the place of the old one in the session (under every
    key that holds that session object), the other sessions are as they
    were, and the old client is not closed. The call returns a
    result. *)
Theorem X10_new_connection (sys : Sys.t)
        (session : SessionManager.Session) (command host username : string)
        (password key_file : option string) (port : Z) (env : Dict.t string)
        (w : World) :
  Sys.ssh_available sys = true ->
  needs_connection sys w session = true ->
  Sys.create_ssh_client sys (List.length (trace w)) host username key_file
                        password port = Ok tt ->
  let r := TerminalMCPServer._execute_remote_command
             sys session command host username password key_file port env w in
  (exists result, fst r = Ok result)
  /\ trace (snd r)
     = (trace w
        ++ [EvConnect host username port;
            EvExecCommand (next_conn w)
              (SSHExecutor.env_str (Some env) ++ command)])%list
  /\ next_conn (snd r) = S (next_conn w)
  /\ (forall sid s,
        Dict.get (SessionManager.sessions (session_manager w)) sid = Some s ->
        Dict.get (SessionManager.sessions (session_manager (snd r))) sid
        = Some (if SessionManager.obj s =? SessionManager.obj session
                then SessionManager.set_ssh_client (next_conn w) s
                else s)).
Proof.
  intros Hssh Hneed Hconn r. subst r.
  rewrite (remote_connect sys session command host username password key_file
                          port env w Hneed Hssh), Hconn.
  match goal with
  | |- context [SSHExecutor.execute_command sys ?c command ?e ?w1] =>
      destruct (total_ssh_execute sys c command e w1) as (res & w' & Hrun);
      pose proof (ssh_execute_world sys c command e w1) as Hw
  end.
  rewrite Hrun in Hw |- *. cbn [snd] in Hw. subst w'.
  unfold after_call. cbn [fst snd trace next_conn session_manager].
  split; [now exists res |]. split; [now rewrite <- app_assoc |].
  split; [reflexivity |].
  intros sid s Hs. now rewrite get_mutate, Hs.
Qed.

(** X10 for a session without a client, on the machine whose
    connections succeed. *)
Lemma X10_new_connection_witness :
  trace (snd (TerminalMCPServer._execute_remote_command
                online_sys session_zero "uptime" "alpha" "root" None None
                22%Z [] empty_world))
  = [EvConnect "alpha" "root" 22%Z; EvExecCommand 0 "uptime"].
Proof.
  assert (Hssh : Sys.ssh_available online_sys = true) by reflexivity.
  assert (Hneed : needs_connection online_sys empty_world session_zero = true)
    by reflexivity.
  assert (Hconn : Sys.create_ssh_client online_sys
                    (List.length (trace empty_world)) "alpha" "root" None None
                    22%Z = Ok tt)
    by reflexivity.
  destruct (X10_new_connection online_sys session_zero "uptime" "alpha" "root"
              None None 22%Z [] empty_world Hssh Hneed Hconn)
    as (_ & Ht & _).
  exact Ht.
Defined.

(** X11. When a connection is needed and no client can be had, the
    remote call still returns a result: empty [stdout], exit code 1,
    execution time 0 and a [stderr] that starts with the prefix of the
    remote call. Without [paramiko] the text says so, and nothing was
    done: no connection attempted, no client made, the world as it
    was. With [paramiko], when [connect] raises, one connection was
    attempted and the half-made client closed; [stderr] carries the
    text of the exception of [connect] behind the prefix of the
    connection when that [close()] returns, and the text of what
    [close()] raised when it raises; no command was sent, the clock was
    not read, and the session keeps what it had. *)
Theorem X11_connection_failure (sys : Sys.t)
        (session : SessionManager.Session) (command host username : string)
        (password key_file : option string) (port : Z) (env : Dict.t string)
        (w : World) :
  needs_connection sys w session = true ->
  let r := TerminalMCPServer._execute_remote_command
             sys session command host username password key_file port env w in
  (Sys.ssh_available sys = false ->
   fst r = Ok {| stdout := "";
                 stderr := "远程命令执行失败: "
                           ++ "SSH功能不可用，请安装paramiko: pip install paramiko";
                 exit_code := 1%Z;
                 execution_time := 0%Z |}
   /\ snd r = w)
  /\ (forall e,
        Sys.ssh_available sys = true ->
        Sys.create_ssh_client sys (List.length (trace w)) host username
                              key_file password port = Raise e ->
        fst r = Ok {| stdout := "";
                      stderr :=
                        "远程命令执行失败: "
                        ++ match Sys.close sys
                                   (List.length
                                      (trace w
                                       ++ [EvConnect host username port])%list)
                                   (next_conn w) with
                           | Ok _ => "SSH连接失败: " ++ Exn.str e
                           | Raise e' => Exn.str e'
                           end;
                      exit_code := 1%Z;
                      execution_time := 0%Z |}
        /\ trace (snd r)
           = (trace w
              ++ [EvConnect host username port; EvClose (next_conn w)])%list
        /\ reads (snd r) = reads w
        /\ session_manager (snd r) = session_manager w
        /\ next_conn (snd r) = S (next_conn w)).
Proof.
  intros Hneed r. subst r. split.
  - intros Hssh.
    rewrite (remote_unavailable sys session command host username password
                                key_file port env w Hneed Hssh).
    now split.
  - intros e Hssh Hconn.
    rewrite (remote_connect sys session command host username password
                            key_file port env w Hneed Hssh), Hconn.
    cbn [fst snd trace reads session_manager next_conn].
    split; [| split; [now rewrite <- app_assoc | now repeat split]].
    unfold failure.
    now destruct (Sys.close sys _ (next_conn w)).
Qed.

(** X11 on the machine that refuses every connection, and on the same
    machine without [paramiko]. *)
Lemma X11_connection_failure_witness :
  trace (snd (TerminalMCPServer._execute_remote_command
                example_sys session_zero "uptime" "alpha" "root" None None
                22%Z [] empty_world))
  = [EvConnect "alpha" "root" 22%Z; EvClose 0]
  /\ TerminalMCPServer._execute_remote_command
       offline_sys session_zero "uptime" "alpha" "root" None None 22%Z []
       empty_world
     = (Ok {| stdout := "";
              stderr := "远程命令执行失败: "
                        ++ "SSH功能不可用，请安装paramiko: pip install paramiko";
              exit_code := 1%Z;
              execution_time := 0%Z |}, empty_world).
Proof.
  split.
  - assert (Hneed : needs_connection example_sys empty_world session_zero
                    = true)
      by reflexivity.
    assert (Hconn : Sys.create_ssh_client example_sys
                      (List.length (trace empty_world)) "alpha" "root" None
                      None 22%Z
                    = Raise (Exn.mk Exn.OSError "Connection refused"))
      by reflexivity.
    destruct (X11_connection_failure example_sys session_zero "uptime" "alpha"
                "root" None None 22%Z [] empty_world Hneed)
      as (_ & Hfail).
    destruct (Hfail _ eq_refl Hconn) as (_ & Ht & _).
    exact Ht.
  - assert (Hneed : needs_connection offline_sys empty_world session_zero
                    = true)
      by reflexivity.
    destruct (X11_connection_failure offline_sys session_zero "uptime" "alpha"
                "root" None None 22%Z [] empty_world Hneed)
      as (Hoff & _).
    destruct (Hoff eq_refl) as [Hr Hw].
    rewrite <- Hr, <- Hw. apply surjective_pairing.
Defined.

(* ================================================================== *)
(** * Further properties of the tool [execute_command] *)

Section ToolExtras.

Variable sys : Sys.t.
Variable server : TerminalMCPServer.t.

(** A [tools/call] request is answered by [_handle_call_tool]. *)
Lemma handle_call_eq (request : Request) (w : World) :
  TerminalMCPServer.is_name (method request) "tools/call" = true ->
  TerminalMCPServer.handle_request sys server request w
  = match TerminalMCPServer._handle_call_tool sys server (params request) w
    with
    | (Ok r, w') =>
        (Ok (Some (TerminalMCPServer.with_id (req_id request) r)), w')
    | (Raise e, w') =>
        (Ok (Some (TerminalMCPServer.with_id (req_id request)
                     {| payload :=
                          PError (-32603) ("Internal error: " ++ Exn.str e);
                        resp_id := None |})), w')
    end.
Proof.
  intros Hm. unfold TerminalMCPServer.handle_request.
  destruct (method request) as [m|]; [| discriminate].
  cbn [TerminalMCPServer.is_name] in Hm. apply String.eqb_eq in Hm. subst m.
  cbn [TerminalMCPServer.is_name String.eqb Ascii.eqb Bool.eqb].
  unfold try_except, bind, ret.
  now destruct (TerminalMCPServer._handle_call_tool sys server
                  (params request) w) as [[r|e] w'].
Qed.

Lemma execute_call_eq (request : Request) (w : World) :
  calls_execute request = true ->
  TerminalMCPServer.handle_request sys server request w
  = match TerminalMCPServer._execute_command
            sys server (arguments (params request)) w with
    | (Ok result, w') =>
        (Ok (Some {| payload := PResult (RTool result);
                     resp_id := option_map Some (req_id request) |}), w')
    | (Raise e, w') =>
        (Ok (Some (TerminalMCPServer.with_id (req_id request)
                     {| payload :=
                          PError (-32603) ("Internal error: " ++ Exn.str e);
                        resp_id := None |})), w')
    end.
Proof.
  unfold calls_execute. intros H. apply Bool.andb_true_iff in H as [Hm Hn].
  rewrite (handle_call_eq request w Hm).
  unfold TerminalMCPServer._handle_call_tool. rewrite Hn.
  unfold bind, ret.
  destruct (TerminalMCPServer._execute_command
              sys server (arguments (params request)) w) as [[result|e] w'];
    [| reflexivity].
  now destruct (req_id request).
Qed.

End ToolExtras.

(** X12. A [tools/call] request for [execute_command] (or [execute])
    whose arguments lack [command] is answered with a tool result, not
    with a JSON-RPC error: [isError] is true and the text names the
    missing key. The answer bears the id of the request, and the world
    is as it was: no check is made, no session resolved, nothing
    executed. It is the same with [force_execute]. *)
Theorem X12_missing_command (sys : Sys.t) (server : TerminalMCPServer.t)
        (request : Request) (w : World) :
  calls_execute request = true ->
  arg_command (arguments (params request)) = None ->
  TerminalMCPServer.handle_request sys server request w
  = (Ok (Some {| payload :=
                   PResult (RTool (tool_error "命令执行失败: 'command'"));
                 resp_id := option_map Some (req_id request) |}), w).
Proof.
  intros Hcall Hcmd. rewrite (execute_call_eq sys server request w Hcall).
  unfold TerminalMCPServer._execute_command, try_except, bind, raise, ret.
  now rewrite Hcmd.
Qed.

(** X12 for a forced call without a command. *)
Lemma X12_missing_command_witness :
  fst (TerminalMCPServer.handle_request
         example_sys example_server
         (call_execute
            {| arg_command := None; arg_host := None; arg_username := None;
               arg_password := None; arg_key_file := None; arg_port := None;
               arg_session := None; arg_env := None; arg_cwd := None;
               arg_force_execute := Some true |}
            (Some (IdInt 1)))
         empty_world)
  = Ok (Some {| payload :=
                  PResult (RTool (tool_error "命令执行失败: 'command'"));
                resp_id := Some (Some (IdInt 1)) |}).
Proof.
  rewrite X12_missing_command; reflexivity.
Defined.

(** X13. For a call without [force_execute] whose command needs no
    confirmation, the filter decides. A command [is_allowed] refuses
    is answered with [isError] true and the reason of the refusal (the
    deny pattern that matched, or that the command is not in the allow
    list) after the words for a refused command, and the world is as it
    was: no session is resolved and nothing is executed. A command
    [is_allowed] accepts is executed exactly as [force_execute] would
    execute it. *)
Theorem X13_filter_decides (sys : Sys.t) (self : TerminalMCPServer.t)
        (args : Args) (command : string) (w : World) :
  arg_command args = Some command ->
  TerminalMCPServer.default (arg_force_execute args) false = false ->
  fst (CommandFilter.check_dangerous_command command) = false ->
  let d := CommandFilter.is_allowed
             (TerminalMCPServer.command_filter self) command in
  (allowed d = false ->
   TerminalMCPServer._execute_command sys self args w
   = (Ok (tool_error ("命令被拒绝执行: " ++ snd (fst d))), w))
  /\ (allowed d = true ->
      TerminalMCPServer._execute_command sys self args w
      = TerminalMCPServer.run_command sys command args w).
Proof.
  intros Hcmd Hforce Hsafe d. subst d.
  unfold TerminalMCPServer._execute_command, try_except, bind.
  rewrite Hcmd. cbn [ret]. rewrite Hforce. cbn [negb].
  destruct (CommandFilter.check_dangerous_command command)
    as [needs danger]. cbn [fst] in Hsafe. subst needs.
  destruct (CommandFilter.is_allowed
              (TerminalMCPServer.command_filter self) command)
    as [[ok reason] rule].
  unfold allowed. cbn [fst snd]. split; intros ->; cbn [negb].
  - reflexivity.
  - destruct (total_run_command sys command args w) as (r & w' & Hrun).
    now rewrite Hrun.
Qed.

(** X13 for [ls] under the policy of the examples, whose allow list
    does not match it. *)
Lemma X13_filter_decides_witness :
  TerminalMCPServer._execute_command
    example_sys example_server (just_command "ls" None) empty_world
  = (Ok (tool_error "命令被拒绝执行: 命令不在白名单中"), empty_world).
Proof.
  assert (H1 : arg_command (just_command "ls" None) = Some "ls")
    by reflexivity.
  assert (H2 : TerminalMCPServer.default
                 (arg_force_execute (just_command "ls" None)) false = false)
    by reflexivity.
  assert (H3 : fst (CommandFilter.check_dangerous_command "ls") = false)
    by reflexivity.
  destruct (X13_filter_decides example_sys example_server
              (just_command "ls" None) "ls" empty_world H1 H2 H3)
    as [Hdenied _].
  exact (Hdenied eq_refl).
Defined.

Section RunExtras.

Variable sys : Sys.t.

Lemma emit_all_eq (evs : list Event) (w : World) :
  emit_all evs w = (Ok tt, with_events w evs).
Proof.
  revert w. induction evs as [|ev evs IH]; intros w; cbn [emit_all].
  - unfold ret. now rewrite with_events_nil.
  - unfold bind, emit. rewrite IH. unfold with_events.
    cbn [reads trace session_manager active_streams next_conn].
    now rewrite <- app_assoc.
Qed.

(** The call of [get_session] by the server, in full. *)
Lemma get_session_world (session_id : string) (host username : option string)
      (w : World) :
  let r := SessionManager.get_session
             (Sys.close sys (List.length (trace w))) (session_manager w)
             (Sys.clock sys (reads w)) session_id host username in
  TerminalMCPServer.get_session sys session_id host username w
  = (Ok (fst (fst r)),
     {| reads := S (reads w);
        trace := (trace w ++ map EvClose (snd r))%list;
        session_manager := snd (fst r);
        active_streams := active_streams w;
        next_conn := next_conn w |}).
Proof.
  intros r. subst r.
  unfold TerminalMCPServer.get_session, bind, time_time, moment, get_manager.
  cbn [session_manager trace reads].
  destruct (SessionManager.get_session _ _ _ _ _ _) as [[session sm'] closed].
  unfold put_manager. cbn [reads trace session_manager active_streams
                           next_conn fst snd].
  rewrite emit_all_eq. unfold ret, with_events.
  now cbn [reads trace session_manager active_streams next_conn].
Qed.

(** The session returned is the one stored, used now. *)
Lemma get_session_stored (close : SessionManager.Conn -> result unit)
      (self : SessionManager.t) (now : Z) (session_id : string)
      (host username : option string) :
  let r := SessionManager.get_session close self now session_id
                                      host username in
  Dict.get (SessionManager.sessions (snd (fst r))) session_id
  = Some (fst (fst r))
  /\ SessionManager.last_used (fst (fst r)) = now.
Proof.
  unfold SessionManager.get_session.
  destruct (SessionManager.cleanup_all close self
              (SessionManager.expired_sessions self now)) as [self1 closed].
  destruct (Dict.get (SessionManager.sessions self1) session_id);
    cbn [fst snd SessionManager.sessions SessionManager.last_used
         SessionManager.touch];
    split; try reflexivity; apply get_set_same.
Qed.

Lemma local_execute_exit (command : string) (env : option (Dict.t string))
      (cwd : option string) (w : World) :
  exists result,
    fst (LocalExecutor.execute_command sys command env cwd w) = Ok result
    /\ exit_code result
       = local_exit sys (List.length (trace w)) command (exec_env sys env) cwd.
Proof.
  assert (He : match env with
               | Some e => if CommandFilter.truthy e
                           then Dict.update (Sys.environ sys) e
                           else Sys.environ sys
               | None => Sys.environ sys
               end = exec_env sys env)
    by (destruct env as [[|? ?]|]; reflexivity).
  unfold LocalExecutor.execute_command, bind, try_except, time_time, moment,
    emit, lift, ret, local_exit. cbn. rewrite He.
  destruct (Sys.create_subprocess_shell sys _ command _ cwd) as [p|e];
    [| eexists; split; reflexivity].
  destruct (Sys.communicate p) as [data|e];
    [| eexists; split; reflexivity].
  eexists. split; [reflexivity |]. cbn [exit_code].
  destruct (Sys.returncode p) as [code|]; [| reflexivity].
  destruct (code =? 0)%Z eqn:E; [| reflexivity].
  apply Z.eqb_eq in E. now subst.
Qed.

Lemma format_output_tail (result : ExecuteResult) :
  exists head,
    TerminalMCPServer.format_output sys result
    = head ++ status_lines sys result.
Proof.
  unfold TerminalMCPServer.format_output, status_lines.
  destruct (TerminalMCPServer.is_blank (stdout result));
    destruct (TerminalMCPServer.is_blank (stderr result));
    cbn [List.app join].
  - now exists "".
  - exists (("标准错误:" ++ nl ++ stderr result) ++ nl ++ nl).
    now rewrite !append_assoc.
  - exists (("标准输出:" ++ nl ++ stdout result) ++ nl ++ nl).
    now rewrite !append_assoc.
  - exists (("标准输出:" ++ nl ++ stdout result) ++ (nl ++ nl)
            ++ ("标准错误:" ++ nl ++ stderr result) ++ nl ++ nl).
    now rewrite !append_assoc.
Qed.

End RunExtras.

(** X14. A call that names a host but no user name (missing or empty)
    is answered with [isError] true and the text that asks for the
    user name. By then the session was resolved: the clock was read
    once, the sessions idle for too long were swept and their clients
    closed, and the store holds a session under the id of the call,
    used at that reading. Nothing else happened: no connection was
    opened and no command sent or spawned. *)
Theorem X14_remote_needs_username (sys : Sys.t) (command : string)
        (args : Args) (w : World) :
  truthy_str (arg_host args) = true ->
  truthy_str (arg_username args) = false ->
  let session_id := TerminalMCPServer.default (arg_session args) "default" in
  let r := TerminalMCPServer.run_command sys command args w in
  fst r = Ok (tool_error "远程执行需要提供username参数")
  /\ snd r = snd (TerminalMCPServer.get_session
                    sys session_id (arg_host args) (arg_username args) w)
  /\ reads (snd r) = S (reads w)
  /\ (exists session,
        Dict.get (SessionManager.sessions (session_manager (snd r)))
                 session_id = Some session
        /\ SessionManager.last_used session = Sys.clock sys (reads w))
  /\ (exists closed, trace (snd r) = (trace w ++ map EvClose closed)%list)
  /\ next_conn (snd r) = next_conn w.
Proof.
  intros Hhost Huser session_id r.
  pose proof (get_session_world sys session_id (arg_host args)
                                (arg_username args) w) as Hs.
  cbv zeta in Hs.
  assert (E : r = (Ok (tool_error "远程执行需要提供username参数"),
                   snd (TerminalMCPServer.get_session
                          sys session_id (arg_host args)
                          (arg_username args) w))).
  { subst r. unfold TerminalMCPServer.run_command. cbv zeta.
    fold session_id. unfold bind. rewrite Hs, Hhost, Huser.
    reflexivity. }
  rewrite E. cbn [fst snd]. rewrite Hs.
  cbn [fst snd reads trace session_manager next_conn].
  split; [reflexivity |]. split; [reflexivity |]. split; [reflexivity |].
  split; [| split; [eexists; reflexivity | reflexivity]].
  destruct (get_session_stored
              (Sys.close sys (List.length (trace w))) (session_manager w)
              (Sys.clock sys (reads w)) session_id (arg_host args)
              (arg_username args)) as [Hget Hused].
  eexists. split; [exact Hget | exact Hused].
Qed.

(** X14 for a call to the host [alpha] without a user name. *)
Lemma X14_remote_needs_username_witness :
  fst (TerminalMCPServer.run_command
         online_sys "uptime" remote_without_user empty_world)
  = Ok (tool_error "远程执行需要提供username参数")
  /\ trace (snd (TerminalMCPServer.run_command
                   online_sys "uptime" remote_without_user empty_world))
     = [].
Proof.
  assert (H1 : truthy_str (arg_host remote_without_user) = true)
    by reflexivity.
  assert (H2 : truthy_str (arg_username remote_without_user) = false)
    by reflexivity.
  destruct (X14_remote_needs_username online_sys "uptime"
              remote_without_user empty_world H1 H2)
    as (Hr & Hw & _).
  split; [exact Hr |]. rewrite Hw. reflexivity.
Defined.

(** X15. A call that names no host (missing or empty) is run by the
    local executor and always answered with a tool result: its text
    ends with the exit code and the execution time, and [isError] is
    true exactly when the exit code is not 0, that is when the spawn
    of the command (after the sweep of the sessions, in the working
    directory of the call and the merged environment of its session)
    or its [communicate] raised (exit code 1) or the shell returned a
    code other than 0. What the command wrote to [stderr] does not
    make it an error. *)
Theorem X15_local_tool_result (sys : Sys.t) (command : string) (args : Args)
        (w : World) :
  truthy_str (arg_host args) = false ->
  exists result w',
    TerminalMCPServer.run_command sys command args w
    = (Ok {| text := TerminalMCPServer.format_output sys result;
             isError := negb (exit_code result =? 0)%Z;
             requires_confirmation := None;
             dangerous_command := None |}, w')
    /\ exit_code result
       = local_exit sys
           (List.length
              (trace w ++ map EvClose (snd (session_for sys args w)))%list)
           command (exec_env sys (Some (merged_env sys args w)))
           (arg_cwd args)
    /\ (exists head,
          TerminalMCPServer.format_output sys result
          = head ++ status_lines sys result).
Proof.
  intros Hhost.
  pose proof (get_session_world
                sys (TerminalMCPServer.default (arg_session args) "default")
                (arg_host args) (arg_username args) w) as Hs.
  cbv zeta in Hs. fold (session_for sys args w) in Hs.
  unfold TerminalMCPServer.run_command. rewrite Hhost.
  unfold bind at 1. rewrite Hs.
  unfold TerminalMCPServer._execute_local_command,
    TerminalMCPServer.mutate_session.
  unfold bind, get_manager, put_manager, ret.
  match goal with
  | |- context [LocalExecutor.execute_command sys command ?e ?c ?w2] =>
      destruct (local_execute_exit sys command e c w2) as (result & Hr & Hx);
      destruct (LocalExecutor.execute_command sys command e c w2)
        as [res w3] eqn:Hrun
  end.
  cbn [fst] in Hr. subst res.
  eexists result, _. split; [reflexivity |]. split; [exact Hx |].
  apply format_output_tail.
Qed.

(** X15 on the machine of the examples, whose shells exit with 0. *)
Lemma X15_local_tool_result_witness :
  exists result w',
    TerminalMCPServer.run_command
      example_sys "ls" (just_command "ls" None) empty_world
    = (Ok {| text := TerminalMCPServer.format_output example_sys result;
             isError := negb (exit_code result =? 0)%Z;
             requires_confirmation := None;
             dangerous_command := None |}, w')
    /\ exit_code result = 0%Z.
Proof.
  assert (H : truthy_str (arg_host (just_command "ls" None)) = false)
    by reflexivity.
  destruct (X15_local_tool_result example_sys "ls" (just_command "ls" None)
                                  empty_world H)
    as (result & w' & Hrun & Hexit & _).
  exists result, w'. split; [exact Hrun | exact Hexit].
Defined.

(* ================================================================== *)
(** * What the dispatcher leaves alone *)

Section BackendFacts.

Ltac still := intros w; exists []; cbn; rewrite app_nil_r; auto.

Lemma bo_ret {A : Type} (a : A) : backend_only (ret a).
Proof. still. Qed.

Lemma bo_raise {A : Type} (e : Exn.t) : backend_only (@raise A e).
Proof. still. Qed.

Lemma bo_moment : backend_only moment.
Proof. still. Qed.

Lemma bo_time (sys : Sys.t) : backend_only (time_time sys).
Proof. still. Qed.

Lemma bo_new_client : backend_only new_client.
Proof. still. Qed.

Lemma bo_mutate (o : nat)
      (f : SessionManager.Session -> SessionManager.Session) :
  backend_only (TerminalMCPServer.mutate_session o f).
Proof. still. Qed.

Lemma bo_emit (ev : Event) :
  is_backend ev = true -> backend_only (emit ev).
Proof. intros H w. exists [ev]. cbn. rewrite H. auto. Qed.

Lemma bo_bind {A B : Type} (m : M A) (k : A -> M B) :
  backend_only m -> (forall a, backend_only (k a)) -> backend_only (bind m k).
Proof.
  intros Hm Hk w. destruct (Hm w) as (e1 & T1 & F1 & S1). unfold bind.
  destruct (m w) as [[a|e] w1]; cbn [snd] in *.
  - destruct (Hk a w1) as (e2 & T2 & F2 & S2). exists (e1 ++ e2)%list.
    rewrite T2, T1, app_assoc, forallb_app, F1, F2, S2, S1. auto.
  - exists e1. auto.
Qed.

Lemma bo_try {A : Type} (m : M A) (h : Exn.t -> M A) :
  backend_only m -> (forall e, backend_only (h e)) ->
  backend_only (try_except m h).
Proof.
  intros Hm Hh w. destruct (Hm w) as (e1 & T1 & F1 & S1). unfold try_except.
  destruct (m w) as [[a|e] w1]; cbn [snd] in *.
  - exists e1. auto.
  - destruct (Hh e w1) as (e2 & T2 & F2 & S2). exists (e1 ++ e2)%list.
    rewrite T2, T1, app_assoc, forallb_app, F1, F2, S2, S1. auto.
Qed.

Lemma closes_backend (closed : list SessionManager.Conn) :
  forallb is_backend (map EvClose closed) = true.
Proof. induction closed as [|c closed IH]; [reflexivity | exact IH]. Qed.

Variable sys : Sys.t.

Lemma bo_get_session (session_id : string) (host username : option string) :
  backend_only (TerminalMCPServer.get_session sys session_id host username).
Proof.
  intros w. rewrite get_session_world. cbv zeta.
  eexists. cbn [snd trace active_streams]. split; [reflexivity |].
  split; [apply closes_backend | reflexivity].
Qed.

Lemma bo_local_execute (command : string) (env : option (Dict.t string))
      (cwd : option string) :
  backend_only (LocalExecutor.execute_command sys command env cwd).
Proof.
  intros w. rewrite local_execute_world. eexists. unfold after_call.
  cbn [trace active_streams]. split; [reflexivity |]. now split.
Qed.

Lemma bo_ssh_execute (client : SessionManager.Conn) (command : string)
      (env : option (Dict.t string)) :
  backend_only (SSHExecutor.execute_command sys client command env).
Proof.
  intros w. rewrite ssh_execute_world. eexists. unfold after_call.
  cbn [trace active_streams]. split; [reflexivity |]. now split.
Qed.

Lemma bo_create_ssh_client (host username : string)
      (key_file password : option string) (port : Z) :
  backend_only (TerminalMCPServer.create_ssh_client
                  sys host username key_file password port).
Proof.
  unfold TerminalMCPServer.create_ssh_client.
  destruct (negb (Sys.ssh_available sys)); [apply bo_raise |].
  apply bo_bind; [apply bo_new_client | intros client].
  apply bo_bind; [apply bo_moment | intros n].
  apply bo_bind; [now apply bo_emit | intros _].
  destruct (Sys.create_ssh_client sys n host username key_file password port);
    [apply bo_ret |].
  apply bo_bind; [apply bo_moment | intros n'].
  apply bo_bind; [now apply bo_emit | intros _].
  destruct (Sys.close sys n' client); apply bo_raise.
Qed.

Lemma bo_remote (session : SessionManager.Session)
      (command host username : string) (password key_file : option string)
      (port : Z) (env : Dict.t string) :
  backend_only (TerminalMCPServer._execute_remote_command
                  sys session command host username password key_file port
                  env).
Proof.
  assert (Hnew : backend_only
                   (bind (TerminalMCPServer.create_ssh_client
                            sys host username key_file password port)
                      (fun client' =>
                         bind (TerminalMCPServer.mutate_session
                                 (SessionManager.obj session)
                                 (SessionManager.set_ssh_client client'))
                              (fun _ => ret client')))).
  { apply bo_bind; [apply bo_create_ssh_client | intros client'].
    apply bo_bind; [apply bo_mutate | intros _; apply bo_ret]. }
  unfold TerminalMCPServer._execute_remote_command.
  apply bo_try; [| intros e; apply bo_ret].
  apply bo_bind; [apply bo_moment | intros n].
  apply bo_bind; [| intros client; apply bo_ssh_execute].
  destruct (SessionManager.ssh_client session) as [client|]; [| exact Hnew].
  destruct (Sys.transport_active sys n client); [apply bo_ret | exact Hnew].
Qed.

Lemma bo_run_command (command : string) (args : Args) :
  backend_only (TerminalMCPServer.run_command sys command args).
Proof.
  unfold TerminalMCPServer.run_command.
  apply bo_bind; [apply bo_get_session | intros session].
  destruct (truthy_str (arg_host args)).
  - destruct (negb (truthy_str (arg_username args))); [apply bo_ret |].
    apply bo_bind; [apply bo_remote | intros r; apply bo_ret].
  - apply bo_bind; [| intros r; apply bo_ret].
    unfold TerminalMCPServer._execute_local_command.
    apply bo_bind; [apply bo_mutate | intros _].
    apply bo_bind; [apply bo_local_execute | intros r].
    apply bo_bind; [apply bo_mutate | intros _]. apply bo_ret.
Qed.

Variable server : TerminalMCPServer.t.

Lemma bo_execute_command (args : Args) :
  backend_only (TerminalMCPServer._execute_command sys server args).
Proof.
  unfold TerminalMCPServer._execute_command.
  apply bo_try; [| intros e; apply bo_ret].
  apply bo_bind;
    [destruct (arg_command args); [apply bo_ret | apply bo_raise] |].
  intros command. cbv zeta.
  repeat match goal with
         | |- backend_only (match ?x with _ => _ end) => destruct x
         end;
    try apply bo_ret; apply bo_run_command.
Qed.

Lemma bo_handle_request (request : Request) :
  backend_only (TerminalMCPServer.handle_request sys server request).
Proof.
  unfold TerminalMCPServer.handle_request.
  apply bo_try; [| intros e; apply bo_ret]. cbv zeta.
  destruct (TerminalMCPServer.is_name (method request) "initialize").
  { apply bo_bind; [apply bo_ret | intros r; apply bo_ret]. }
  destruct (TerminalMCPServer.is_name (method request) "tools/list").
  { apply bo_bind; [apply bo_ret | intros r; apply bo_ret]. }
  destruct (TerminalMCPServer.is_name (method request) "tools/call").
  { apply bo_bind; [| intros r; apply bo_ret].
    unfold TerminalMCPServer._handle_call_tool.
    destruct (TerminalMCPServer.is_name (name (params request))
                                        "execute_command"
              || TerminalMCPServer.is_name (name (params request)) "execute").
    - apply bo_bind; [apply bo_execute_command | intros r; apply bo_ret].
    - destruct (TerminalMCPServer.is_name (name (params request))
                                          "get_tools"); apply bo_ret. }
  destruct (TerminalMCPServer.is_name (method request) "ping");
    [| apply bo_ret].
  destruct (req_id request); [| apply bo_ret].
  apply bo_bind; [| intros r; apply bo_ret].
  unfold TerminalMCPServer._handle_ping.
  apply bo_bind; [apply bo_time | intros t; apply bo_ret].
Qed.

Lemma printed_backend (l evs : list Event) :
  forallb is_backend evs = true ->
  flat_map (fun ev => match ev with EvPrint r => [r] | _ => [] end)
           (l ++ evs)
  = flat_map (fun ev => match ev with EvPrint r => [r] | _ => [] end) l.
Proof.
  intros H. rewrite flat_map_app.
  induction evs as [|ev evs IH]; [now rewrite app_nil_r |].
  cbn [forallb] in H. apply Bool.andb_true_iff in H as [Hev Hevs].
  destruct ev; try discriminate; cbn [flat_map List.app]; now apply IH.
Qed.

Lemma delivered_backend (l evs : list Event) :
  forallb is_backend evs = true ->
  flat_map (fun ev => match ev with EvWrite c _ true => [c] | _ => [] end)
           (l ++ evs)
  = flat_map (fun ev => match ev with EvWrite c _ true => [c] | _ => [] end)
             l.
Proof.
  intros H. rewrite flat_map_app.
  induction evs as [|ev evs IH]; [now rewrite app_nil_r |].
  cbn [forallb] in H. apply Bool.andb_true_iff in H as [Hev Hevs].
  destruct ev; try discriminate; cbn [flat_map List.app]; now apply IH.
Qed.

End BackendFacts.

(** X16. Handling a request, whatever the request and whatever the
    machine does, adds only events of the executors and of the session
    store: shells spawned, connections opened, commands sent over them,
    clients closed. It writes no line to the standard output and
    nothing to a stream, and the set of open streams is as it was:
    answers reach a client through the transport alone. *)
Theorem X16_dispatcher_effects (sys : Sys.t) (server : TerminalMCPServer.t)
        (request : Request) (w : World) :
  let w' := snd (TerminalMCPServer.handle_request sys server request w) in
  (exists evs, trace w' = (trace w ++ evs)%list
               /\ forallb is_backend evs = true)
  /\ active_streams w' = active_streams w
  /\ StdioTransport.printed w' = StdioTransport.printed w
  /\ SSETransport.delivered w' = SSETransport.delivered w.
Proof.
  intros w'. subst w'.
  destruct (bo_handle_request sys server request w) as (evs & T & F & S).
  split; [now exists evs |]. split; [exact S |].
  unfold StdioTransport.printed, SSETransport.delivered. rewrite T.
  split; [now apply printed_backend | now apply delivered_backend].
Qed.

(* ================================================================== *)
(** * Further properties of the two transports *)

Section StdioExtras.

Variable sys : Sys.t.
Variable server : TerminalMCPServer.t.
Variable loads : string -> result Request.

(** One turn of the stdio loop, by cases. *)
Lemma on_line_cases (line : string) (w : World) :
  StdioTransport.on_line sys server loads line w
  = match Py.strip line with
    | EmptyString => (Ok tt, w)
    | _ =>
        match loads (Py.strip line) with
        | Raise e =>
            match Exn.class e with
            | Exn.JSONDecodeError => (Ok tt, after_print w (parse_error e))
            | _ => (Ok tt, w)
            end
        | Ok request =>
            match TerminalMCPServer.handle_request sys server request w with
            | (Ok (Some r), w') => (Ok tt, after_print w' r)
            | (Ok None, w') => (Ok tt, w')
            | (Raise _, w') => (Ok tt, w')
            end
        end
    end.
Proof.
  destruct line as [|a l]; [reflexivity |].
  destruct (Py.strip (String a l)) as [|b t] eqn:E.
  - unfold StdioTransport.on_line, try_except. cbv zeta. now rewrite E.
  - destruct (loads (String b t)) as [request|e] eqn:El.
    + rewrite <- E in El.
      rewrite (on_line_eq sys server loads (String a l) request w);
        [reflexivity | now rewrite E | exact El].
    + unfold StdioTransport.on_line, try_except. cbv zeta.
      rewrite E, El. now destruct (Exn.class e).
Qed.

Lemma printed_after_print (w : World) (r : Response) :
  StdioTransport.printed (after_print w r)
  = (StdioTransport.printed w ++ [r])%list.
Proof.
  unfold StdioTransport.printed, after_print, emit. cbn [snd trace].
  now rewrite flat_map_app.
Qed.

End StdioExtras.

(** X17. One turn of the stdio loop never raises and writes at most
    one line to the standard output, whatever the line and whatever
    the request in it makes the server do. An empty or blank line is
    skipped: [json.loads] is not called and the world is as it was. A
    line on which [json.loads] raises [json.JSONDecodeError] is
    answered with exactly one line, the error -32700 with the text of
    the decoder's exception and the id [null], and nothing else
    happens. Any other exception of [json.loads] is caught by the loop
    and the line is dropped: nothing is written and the world is as it
    was. The set of open streams is never touched. *)
Theorem X17_one_line_per_input (sys : Sys.t) (server : TerminalMCPServer.t)
        (loads : string -> result Request) (line : string) (w : World) :
  let r := StdioTransport.on_line sys server loads line w in
  fst r = Ok tt
  /\ (exists out,
        StdioTransport.printed (snd r)
        = (StdioTransport.printed w ++ out)%list
        /\ List.length out <= 1)
  /\ (Py.strip line = "" -> snd r = w)
  /\ (forall e,
        Py.strip line <> "" -> loads (Py.strip line) = Raise e ->
        Exn.class e = Exn.JSONDecodeError ->
        snd r = after_print w (parse_error e))
  /\ (forall e,
        Py.strip line <> "" -> loads (Py.strip line) = Raise e ->
        Exn.class e <> Exn.JSONDecodeError ->
        snd r = w)
  /\ active_streams (snd r) = active_streams w.
Proof.
  intros r. subst r. rewrite on_line_cases.
  destruct (Py.strip line) as [|b t] eqn:E.
  - cbn [fst snd]. split; [reflexivity |]. split.
    + exists []. rewrite app_nil_r. split; [reflexivity | cbn; lia].
    + split; [reflexivity |].
      split; [intros e Hne; now elim Hne |].
      split; [intros e Hne; now elim Hne | reflexivity].
  - destruct (loads (String b t)) as [request|e] eqn:El.
    + destruct (bo_handle_request sys server request w)
        as (evs & T & F & S).
      assert (Hp : StdioTransport.printed
                     (snd (TerminalMCPServer.handle_request
                             sys server request w))
                   = StdioTransport.printed w)
        by (unfold StdioTransport.printed; rewrite T;
            now apply printed_backend).
      destruct (TerminalMCPServer.handle_request sys server request w)
        as [[[resp|]|e] w']; cbn [fst snd] in *.
      * split; [reflexivity |]. split.
        { exists [resp]. rewrite printed_after_print, Hp.
          split; [reflexivity | cbn; lia]. }
        split; [discriminate |]. split; [intros e _ H; discriminate |].
        split; [intros e _ H; discriminate |].
        exact S.
      * split; [reflexivity |]. split.
        { exists []. rewrite Hp, app_nil_r. split; [reflexivity | cbn; lia]. }
        split; [discriminate |]. split; [intros e _ H; discriminate |].
        split; [intros e _ H; discriminate |].
        exact S.
      * split; [reflexivity |]. split.
        { exists []. rewrite Hp, app_nil_r. split; [reflexivity | cbn; lia]. }
        split; [discriminate |]. split; [intros e' _ H; discriminate |].
        split; [intros e' _ H; discriminate |].
        exact S.
    + assert (Hcases :
        (Exn.class e = Exn.JSONDecodeError
         /\ match Exn.class e with
            | Exn.JSONDecodeError => (Ok tt, after_print w (parse_error e))
            | _ => (Ok tt, w)
            end = (Ok tt, after_print w (parse_error e)))
        \/ (Exn.class e <> Exn.JSONDecodeError
            /\ match Exn.class e with
               | Exn.JSONDecodeError =>
                   (Ok tt, after_print w (parse_error e))
               | _ => (@Ok unit tt, w)
               end = (Ok tt, w))).
      { destruct (Exn.class e);
          try (right; split; [discriminate | reflexivity]).
        left. now split. }
      destruct Hcases as [[Hc ->] | [Hc ->]]; cbn [fst snd].
      * split; [reflexivity |]. split.
        { exists [parse_error e]. rewrite printed_after_print.
          split; [reflexivity | cbn; lia]. }
        split; [discriminate |].
        split; [intros e' _ H; now injection H as -> |].
        split; [| reflexivity].
        intros e' _ H Hne. injection H as ->. now elim Hne.
      * split; [reflexivity |]. split.
        { exists []. rewrite app_nil_r. split; [reflexivity | cbn; lia]. }
        split; [discriminate |].
        split; [| split; [intros; reflexivity | reflexivity]].
        intros e' _ H He'. injection H as ->. now elim Hc.
Qed.

(** X17 for a line that is no JSON, and for a line on which the
    decoder raises another exception. *)
Lemma X17_one_line_per_input_witness :
  StdioTransport.printed
    (snd (StdioTransport.on_line example_sys example_server example_loads
                                 "hello" empty_world))
  = [parse_error
       (Exn.mk Exn.JSONDecodeError
               "Expecting value: line 1 column 1 (char 0)")]
  /\ snd (StdioTransport.on_line example_sys example_server deep_loads
                                 "[[[[" empty_world)
     = empty_world.
Proof.
  split.
  - destruct (X17_one_line_per_input example_sys example_server example_loads
                                     "hello" empty_world)
      as (_ & _ & _ & Herr & _).
    rewrite (Herr (Exn.mk Exn.JSONDecodeError
                     "Expecting value: line 1 column 1 (char 0)"));
      [reflexivity | discriminate | reflexivity | reflexivity].
  - destruct (X17_one_line_per_input example_sys example_server deep_loads
                                     "[[[[" empty_world)
      as (_ & _ & _ & _ & Hdrop & _).
    apply (Hdrop (Exn.mk Exn.RuntimeError
                    "maximum recursion depth exceeded"));
      [discriminate | reflexivity | discriminate].
Defined.

Section PostExtras.

Variable sys : Sys.t.
Variable server : TerminalMCPServer.t.

(** The test [data.get("jsonrpc") != "2.0"]. *)
Lemma jsonrpc_check (j : option string) (e : Exn.t) :
  match j with
  | Some "2.0" => ret tt
  | _ => raise e
  end
  = if match j with Some s => String.eqb s "2.0" | None => false end
    then ret tt else raise e.
Proof.
  destruct j as [s|]; [| reflexivity].
  destruct s as [|[[] [] [] [] [] [] [] []] s]; try reflexivity.
  destruct s as [|[[] [] [] [] [] [] [] []] s]; try reflexivity.
  destruct s as [|[[] [] [] [] [] [] [] []] s]; try reflexivity.
  destruct s; reflexivity.
Qed.

Lemma post_rejects_version (data : Request) (w : World) :
  jsonrpc data <> Some "2.0" ->
  SSETransport._handle_mcp_message sys server data w
  = (Ok {| SSETransport.status := 400;
           SSETransport.body :=
             Some (SSETransport.error_body
                     (-32600) "Invalid Request: 必须指定 jsonrpc: '2.0'"
                     data) |}, w).
Proof.
  intros Hj. unfold SSETransport._handle_mcp_message, try_except.
  rewrite jsonrpc_check.
  destruct (match jsonrpc data with
            | Some s => String.eqb s "2.0"
            | None => false
            end) eqn:E.
  - destruct (jsonrpc data) as [s|]; [| discriminate].
    apply String.eqb_eq in E. now subst.
  - reflexivity.
Qed.

Lemma post_rejects_no_method (data : Request) (w : World) :
  jsonrpc data = Some "2.0" ->
  method_field data = Missing ->
  SSETransport._handle_mcp_message sys server data w
  = (Ok {| SSETransport.status := 400;
           SSETransport.body :=
             Some (SSETransport.error_body
                     (-32600) "Invalid Request: 缺少 method 字段" data) |}, w).
Proof.
  intros Hj Hm. unfold SSETransport._handle_mcp_message, try_except.
  rewrite Hj, Hm. reflexivity.
Qed.

End PostExtras.

Section PostFacts.

Variable sys : Sys.t.
Variable server : TerminalMCPServer.t.

Lemma version_dec (j : option string) : j = Some "2.0" \/ j <> Some "2.0".
Proof.
  destruct j as [s|]; [| right; discriminate].
  destruct (String.eqb_spec s "2.0") as [-> | Hne]; [now left |].
  right. intros H. injection H as H. contradiction.
Qed.

(** The dispatcher returns, with an answer or with [None]. *)
Lemma handle_request_returns (request : Request) (w : World) :
  exists a w',
    TerminalMCPServer.handle_request sys server request w = (Ok a, w').
Proof.
  destruct (TerminalMCPServer.is_name (method request) "ping") eqn:Hp.
  - rewrite (handle_request_ping sys server request w Hp).
    destruct (req_id request); eexists; eexists; reflexivity.
  - destruct (handle_request_answers sys server request w (or_introl Hp))
      as (r & w' & E & _).
    rewrite E. eexists; eexists; reflexivity.
Qed.

(** The answer of the dispatcher already bears the id of the request. *)
Lemma answer_keeps_id (request_id : option Id) (r : Response) :
  resp_id r = option_map Some request_id ->
  match resp_id r with
  | None => TerminalMCPServer.with_id request_id r
  | Some _ => r
  end = r.
Proof.
  intros H. destruct request_id as [i|]; cbn [option_map] in H; rewrite H;
    reflexivity.
Qed.

End PostFacts.

(** X18. For a POST body that parsed to a JSON object, the handler
    always returns a response, with the status 200, 204 or 400. It is
    400 exactly when [jsonrpc] is not ["2.0"] or the body has no key
    [method]; the version is tested first, the error is -32600 with the
    reason after [Invalid Request: ], its [id] is the id of the request
    ([null] when there is none), and the request is not handled: the
    world is as it was. A body whose [method] is there with the value
    [null] passes the validation: the dispatcher answers it, with the
    status 200 and the error -32601 for the method [None]. A response
    has no body exactly when its status is 204. *)
Theorem X18_post_validation (sys : Sys.t) (server : TerminalMCPServer.t)
        (data : Request) (w : World) :
  let r := SSETransport._handle_mcp_message sys server data w in
  (jsonrpc data <> Some "2.0" ->
   r = (Ok {| SSETransport.status := 400;
              SSETransport.body :=
                Some {| payload :=
                          PError (-32600)
                                 "Invalid Request: 必须指定 jsonrpc: '2.0'";
                        resp_id := Some (req_id data) |} |}, w))
  /\ (jsonrpc data = Some "2.0" -> method_field data = Missing ->
      r = (Ok {| SSETransport.status := 400;
                 SSETransport.body :=
                   Some {| payload :=
                             PError (-32600)
                                    "Invalid Request: 缺少 method 字段";
                           resp_id := Some (req_id data) |} |}, w))
  /\ (jsonrpc data = Some "2.0" -> method_field data = Null ->
      fst r = Ok {| SSETransport.status := 200;
                    SSETransport.body :=
                      Some {| payload :=
                                PError (-32601) "Method not found: None";
                              resp_id := option_map Some (req_id data) |} |})
  /\ (exists h,
        fst r = Ok h
        /\ In (SSETransport.status h) [200; 204; 400]
        /\ (SSETransport.status h = 400
            <-> jsonrpc data <> Some "2.0" \/ method_field data = Missing)
        /\ (SSETransport.status h = 204 <-> SSETransport.body h = None)).
Proof.
  intros r. subst r.
  split; [intros Hj; now rewrite post_rejects_version |].
  split; [intros Hj Hm; now rewrite post_rejects_no_method |].
  split.
  - intros Hj Hm.
    assert (Hm' : method_field data <> Missing) by (rewrite Hm; discriminate).
    assert (E : TerminalMCPServer.handle_request sys server data w
                = (Ok (Some {| payload :=
                                 PError (-32601) "Method not found: None";
                               resp_id := option_map Some (req_id data) |}),
                   w)).
    { unfold TerminalMCPServer.handle_request, try_except. cbv zeta.
      unfold method. rewrite Hm. cbn. now destruct (req_id data). }
    rewrite (post_valid sys server data w Hj Hm'), E.
    cbv zeta. cbn [fst resp_id]. now destruct (req_id data).
  - destruct (version_dec (jsonrpc data)) as [Hj | Hj].
    + assert (Hcases : method_field data = Missing
                       \/ method_field data <> Missing)
        by (destruct (method_field data);
            [now left | right; discriminate | right; discriminate]).
      destruct Hcases as [Hm | Hm].
      * rewrite (post_rejects_no_method sys server data w Hj Hm).
        eexists. split; [reflexivity |].
        cbn [SSETransport.status SSETransport.body].
        split; [cbn; tauto |]. split; split; try discriminate; auto.
      * rewrite (post_valid sys server data w Hj Hm).
        destruct (handle_request_returns sys server data w)
          as (a & w' & E).
        rewrite E. destruct a as [resp|]; cbv zeta; cbn [fst].
        -- eexists. split; [reflexivity |].
           cbn [SSETransport.status SSETransport.body].
           split; [cbn; tauto |]. split; split; try discriminate.
           intros [H | H]; contradiction.
        -- eexists. split; [reflexivity |].
           cbn [SSETransport.status SSETransport.body].
           split; [cbn; tauto |].
           split; split; try discriminate; try reflexivity.
           intros [H | H]; contradiction.
    + rewrite (post_rejects_version sys server data w Hj).
      eexists. split; [reflexivity |].
      cbn [SSETransport.status SSETransport.body].
      split; [cbn; tauto |]. split; split; try discriminate; auto.
Qed.

(** X19. A well-formed POST that is not a [ping] without an id is
    answered with the status 200 and the answer of the dispatcher as
    its body, unchanged; after the request was handled that same
    answer is broadcast over the streams that were open when the
    request came in: each gets its fate, and the only events after the
    dispatcher's are the writes of that answer. The sessions are as
    the dispatcher left them. *)
Theorem X19_post_broadcasts_the_answer (sys : Sys.t)
        (server : TerminalMCPServer.t) (data : Request) (w : World) :
  jsonrpc data = Some "2.0" ->
  method data <> None ->
  TerminalMCPServer.is_name (method data) "ping" = false
  \/ req_id data <> None ->
  let post := SSETransport._handle_mcp_message sys server data w in
  exists r w1 fates,
    TerminalMCPServer.handle_request sys server data w = (Ok (Some r), w1)
    /\ fst post = Ok {| SSETransport.status := 200;
                        SSETransport.body := Some r |}
    /\ map fst fates = active_streams w
    /\ Forall (fun x => exists n, snd x = fate_at sys n (snd (fst x)) r) fates
    /\ trace (snd post) = (trace w1 ++ flat_map (event_of r) fates)%list
    /\ session_manager (snd post) = session_manager w1.
Proof.
  intros Hj Hm Hreq post. subst post.
  destruct (handle_request_answers sys server data w Hreq)
    as (r & w1 & E & Hid).
  destruct (bo_handle_request sys server data w) as (evs & _ & _ & Hs).
  rewrite E in Hs. cbn [snd] in Hs.
  rewrite (post_eq sys server data w Hj Hm), E.
  rewrite (answer_keeps_id (req_id data) r Hid). cbv zeta. cbn [fst snd].
  destruct (broadcast_eq sys r w1) as (fates & Hmap & Hf & Eb).
  exists r, w1, fates. split; [reflexivity |]. split; [reflexivity |].
  split; [now rewrite Hmap |]. split; [exact Hf |].
  destruct (active_streams w1) as [|item rest] eqn:Es;
    cbn [CommandFilter.truthy].
  - apply map_eq_nil in Hmap. subst fates. cbn [ret snd flat_map].
    now rewrite app_nil_r.
  - rewrite Eb. cbn [snd trace session_manager]. now split.
Qed.

(** X19 for an [initialize] request while three streams are open. *)
Lemma X19_post_broadcasts_the_answer_witness :
  exists r w1 (fates : list (string * Chan * fate)),
    TerminalMCPServer.handle_request
      example_sys example_server initialize_notification three_streams
    = (Ok (Some r), w1)
    /\ fst (SSETransport._handle_mcp_message
              example_sys example_server initialize_notification
              three_streams)
       = Ok {| SSETransport.status := 200; SSETransport.body := Some r |}
    /\ map fst fates = [("a", 1); ("b", 2); ("c", 3)].
Proof.
  assert (Hj : jsonrpc initialize_notification = Some "2.0") by reflexivity.
  assert (Hm : method initialize_notification <> None) by discriminate.
  assert (Hp : TerminalMCPServer.is_name (method initialize_notification)
                                         "ping" = false
               \/ req_id initialize_notification <> None)
    by (left; reflexivity).
  destruct (X19_post_broadcasts_the_answer
              example_sys example_server initialize_notification
              three_streams Hj Hm Hp)
    as (r & w1 & fates & H1 & H2 & H3 & _).
  now exists r, w1, fates.
Defined.

(* ================================================================== *)
(** * Further properties of the dispatch *)

Section DispatchExtras.

Variable sys : Sys.t.
Variable server : TerminalMCPServer.t.

Lemma is_name_eq (o : option string) (s : string) :
  TerminalMCPServer.is_name o s = true <-> o = Some s.
Proof.
  destruct o as [x|]; cbn [TerminalMCPServer.is_name].
  - rewrite String.eqb_eq. split; [now intros -> | now intros [= ->]].
  - split; discriminate.
Qed.

End DispatchExtras.

(** X20. How a request is dispatched. In a [tools/call] the name
    [execute] stands for [execute_command]: two calls that differ in
    that name alone have the same answer and the same effects. The
    tool [get_tools] answers what the method [tools/list] answers. A
    [tools/call] that names any other tool, or none, is answered with
    the error -32602 and the name, and a request with any other
    method, or none, with the error -32601 and the method; both bear
    the id of the request, and the world is as it was: the filter and
    the executors are not reached. *)
Theorem X20_dispatch (sys : Sys.t) (server : TerminalMCPServer.t)
        (request : Request) (w : World) :
  (forall request',
     method request = Some "tools/call" ->
     name (params request) = Some "execute" ->
     method request' = Some "tools/call" ->
     name (params request') = Some "execute_command" ->
     arguments (params request') = arguments (params request) ->
     req_id request' = req_id request ->
     TerminalMCPServer.handle_request sys server request' w
     = TerminalMCPServer.handle_request sys server request w)
  /\ (forall request',
        method request = Some "tools/call" ->
        name (params request) = Some "get_tools" ->
        method request' = Some "tools/list" ->
        req_id request' = req_id request ->
        TerminalMCPServer.handle_request sys server request w
        = TerminalMCPServer.handle_request sys server request' w
        /\ TerminalMCPServer.handle_request sys server request w
           = (Ok (Some {| payload := PResult RTools;
                          resp_id := option_map Some (req_id request) |}),
              w))
  /\ (method request = Some "tools/call" ->
      name (params request) <> Some "execute_command" ->
      name (params request) <> Some "execute" ->
      name (params request) <> Some "get_tools" ->
      TerminalMCPServer.handle_request sys server request w
      = (Ok (Some {| payload :=
                       PError (-32602)
                              ("Unknown tool: "
                               ++ TerminalMCPServer.fmt
                                    (name (params request)));
                     resp_id := option_map Some (req_id request) |}), w))
  /\ (method request <> Some "initialize" ->
      method request <> Some "tools/list" ->
      method request <> Some "tools/call" ->
      method request <> Some "ping" ->
      TerminalMCPServer.handle_request sys server request w
      = (Ok (Some {| payload :=
                       PError (-32601)
                              ("Method not found: "
                               ++ TerminalMCPServer.fmt (method request));
                     resp_id := option_map Some (req_id request) |}), w)).
Proof.
  assert (Hno : forall (o : option string) (s : string),
             o <> Some s -> TerminalMCPServer.is_name o s = false).
  { intros o s H. destruct (TerminalMCPServer.is_name o s) eqn:E;
      [| reflexivity].
    apply is_name_eq in E. contradiction. }
  split; [| split; [| split]].
  - intros request' Hm Hn Hm' Hn' Ha Hi.
    assert (Hc : TerminalMCPServer.is_name (method request) "tools/call"
                 = true) by now apply is_name_eq.
    assert (Hc' : TerminalMCPServer.is_name (method request') "tools/call"
                  = true) by now apply is_name_eq.
    rewrite (handle_call_eq sys server request w Hc),
      (handle_call_eq sys server request' w Hc').
    unfold TerminalMCPServer._handle_call_tool.
    rewrite Hn, Hn', Ha, Hi. reflexivity.
  - intros request' Hm Hn Hm' Hi.
    assert (Hc : TerminalMCPServer.is_name (method request) "tools/call"
                 = true) by now apply is_name_eq.
    rewrite (handle_call_eq sys server request w Hc).
    unfold TerminalMCPServer._handle_call_tool. rewrite Hn.
    unfold TerminalMCPServer.handle_request, try_except. rewrite Hm', Hi.
    cbn. now destruct (req_id request).
  - intros Hm H1 H2 H3.
    assert (Hc : TerminalMCPServer.is_name (method request) "tools/call"
                 = true) by now apply is_name_eq.
    rewrite (handle_call_eq sys server request w Hc).
    unfold TerminalMCPServer._handle_call_tool.
    rewrite (Hno _ _ H1), (Hno _ _ H2), (Hno _ _ H3).
    cbn [orb ret]. now destruct (req_id request).
  - intros H1 H2 H3 H4.
    unfold TerminalMCPServer.handle_request, try_except. cbv zeta.
    rewrite (Hno _ _ H1), (Hno _ _ H2), (Hno _ _ H3), (Hno _ _ H4).
    cbn [ret]. now destruct (req_id request).
Qed.

(** X20 for a call of the tool [reboot], which the server does not
    have. *)
Lemma X20_dispatch_witness :
  TerminalMCPServer.handle_request
    example_sys example_server
    {| jsonrpc := Some "2.0"; method_field := Value "tools/call";
       params := {| name := Some "reboot"; arguments := no_args |};
       req_id := Some (IdInt 3) |}
    empty_world
  = (Ok (Some {| payload := PError (-32602) "Unknown tool: reboot";
                 resp_id := Some (Some (IdInt 3)) |}), empty_world).
Proof.
  destruct (X20_dispatch
              example_sys example_server
              {| jsonrpc := Some "2.0"; method_field := Value "tools/call";
                 params := {| name := Some "reboot"; arguments := no_args |};
                 req_id := Some (IdInt 3) |}
              empty_world)
    as (_ & _ & Hunknown & _).
  rewrite Hunknown; [reflexivity | reflexivity | | |]; discriminate.
Defined.

(* ================================================================== *)
(** * The probe of a stream and the credentials of a connection *)

(** X21. The probe of a stream raises nothing, and it says that the
    stream is dead in these cases only: there is no response object,
    or the response has a transport whose [is_closing()] returned
    without raising and which is closing or has [_closed] or
    [_conn_lost] set. A response without a transport counts as alive,
    and so does one whose [is_closing()] raises, even when [_closed] or
    [_conn_lost] is set: the write that follows has to find out. *)
Theorem X21_probe (response : option Probe.StreamResponse) :
  (Probe._is_connection_alive response = false
   <-> response = None
       \/ exists r t,
            response = Some r /\ Probe.transport r = Some t
            /\ (forall e, Probe.is_closing t <> Some (Raise e))
            /\ (Probe.is_closing t = Some (Ok true)
                \/ Probe._closed t = Some true
                \/ Probe._conn_lost t = Some true))
  /\ (forall r, response = Some r -> Probe.transport r = None ->
        Probe._is_connection_alive response = true)
  /\ (forall r t e,
        response = Some r -> Probe.transport r = Some t ->
        Probe.is_closing t = Some (Raise e) ->
        Probe._is_connection_alive response = true).
Proof.
  split; [| split].
  - split.
    + intros H. destruct response as [r|]; [right | now left].
      unfold Probe._is_connection_alive in H.
      destruct r as [[t|]]; cbn [Probe.transport] in *; [| discriminate].
      exists {| Probe.transport := Some t |}, t.
      split; [reflexivity |]. split; [reflexivity |].
      destruct t as [[[[]|e]|] closed lost];
        cbn [Probe.is_closing Probe._closed Probe._conn_lost] in *;
        try discriminate.
      * split; [discriminate | now left].
      * split; [discriminate |].
        destruct closed as [[]|]; [now right; left | |];
          (destruct lost as [[]|]; [now right; right | discriminate
                                    | discriminate]).
      * split; [discriminate |].
        destruct closed as [[]|]; [now right; left | |];
          (destruct lost as [[]|]; [now right; right | discriminate
                                    | discriminate]).
    + intros [-> | (r & t & -> & Ht & Hne & Hc)]; [reflexivity |].
      unfold Probe._is_connection_alive. rewrite Ht.
      destruct (Probe.is_closing t) as [[[]|e]|] eqn:Ec.
      * reflexivity.
      * destruct Hc as [Hc | [Hc | Hc]]; [discriminate | |].
        -- now rewrite Hc.
        -- rewrite Hc. now destruct (Probe._closed t) as [[]|].
      * now elim (Hne e).
      * destruct Hc as [Hc | [Hc | Hc]]; [discriminate | |].
        -- now rewrite Hc.
        -- rewrite Hc. now destruct (Probe._closed t) as [[]|].
  - intros r -> Ht. unfold Probe._is_connection_alive. now rewrite Ht.
  - intros r t e -> Ht Hc. unfold Probe._is_connection_alive.
    now rewrite Ht, Hc.
Qed.

(** X22. How a new connection authenticates. A key file is handed to
    [connect] only if it exists. A key file that is named and, with
    the home directory expanded, exists is used, whatever the
    password. One that is named and does not exist is passed over
    without an error: the connection is then made as if none had been
    named. The password is used only when it is given and not empty,
    and then before any default key; without a usable key file and
    password the first of [id_rsa], [id_ed25519], [id_ecdsa] under
    [~/.ssh] that exists is used, and nothing when none exists. *)
Theorem X22_credentials (os : Credentials.Os) (key_file pass : option string) :
  let kw := Credentials.connect_kwargs os key_file pass in
  (forall p, kw = Some (Credentials.key_filename p) ->
     Credentials.path_exists os p = true)
  /\ (forall k,
        key_file = Some k -> k <> "" ->
        Credentials.expanduser os k <> "" ->
        Credentials.path_exists os (Credentials.expanduser os k) = true ->
        kw = Some (Credentials.key_filename (Credentials.expanduser os k)))
  /\ (forall k,
        key_file = Some k ->
        Credentials.path_exists os (Credentials.expanduser os k) = false ->
        kw = Credentials.connect_kwargs os None pass)
  /\ (forall s, kw = Some (Credentials.password s) ->
        pass = Some s /\ s <> "")
  /\ (forall s, pass = Some s -> s <> "" ->
        Credentials.connect_kwargs os None pass
        = Some (Credentials.password s))
  /\ Credentials.connect_kwargs os None None
     = option_map Credentials.key_filename
         (find (Credentials.path_exists os) (Credentials.default_keys os))
  /\ (Credentials.connect_kwargs os None None = None
      <-> forall p, In p (Credentials.default_keys os) ->
                    Credentials.path_exists os p = false).
Proof.
  intros kw.
  assert (Hdef : forall p,
             Credentials.first_default os = Some (Credentials.key_filename p)
             -> Credentials.path_exists os p = true).
  { unfold Credentials.first_default. intros p H.
    destruct (find (Credentials.path_exists os) (Credentials.default_keys os))
      as [q|] eqn:E; [| discriminate].
    cbn [option_map] in H. injection H as ->.
    now apply find_some in E. }
  assert (Hfall : forall p,
             (if truthy_str pass
              then option_map Credentials.password pass
              else Credentials.first_default os)
             = Some (Credentials.key_filename p) ->
             Credentials.path_exists os p = true).
  { intros p H. destruct (truthy_str pass); [| now apply Hdef].
    destruct pass; discriminate. }
  assert (Hpass : forall s,
             (if truthy_str pass
              then option_map Credentials.password pass
              else Credentials.first_default os)
             = Some (Credentials.password s) ->
             pass = Some s /\ s <> "").
  { intros s H. destruct pass as [[|a q]|]; cbn [truthy_str] in H.
    - unfold Credentials.first_default in H.
      destruct (find _ _); discriminate.
    - cbn [option_map] in H. injection H as <-. split; [reflexivity |].
      discriminate.
    - unfold Credentials.first_default in H.
      destruct (find _ _); discriminate. }
  assert (Hnone : Credentials.connect_kwargs os None pass
                  = if truthy_str pass
                    then option_map Credentials.password pass
                    else Credentials.first_default os) by reflexivity.
  subst kw.
  split; [| split; [| split; [| split; [| split; [| split]]]]].
  - intros p. unfold Credentials.connect_kwargs.
    destruct key_file as [[|a k]|]; cbn [truthy_str option_map].
    + apply Hfall.
    + destruct (Credentials.expanduser os (String a k)) as [|b e] eqn:Ee;
        [apply Hfall |].
      destruct (Credentials.path_exists os (String b e)) eqn:Ex;
        [| apply Hfall].
      now intros [= <-].
    + apply Hfall.
  - intros k -> Hk He Hx. unfold Credentials.connect_kwargs.
    destruct k as [|a k]; [now elim Hk |].
    cbn [truthy_str option_map].
    destruct (Credentials.expanduser os (String a k)) as [|b e];
      [now elim He |].
    now rewrite Hx.
  - intros k -> Hx. rewrite Hnone. unfold Credentials.connect_kwargs.
    destruct k as [|a k]; cbn [truthy_str option_map]; [reflexivity |].
    destruct (Credentials.expanduser os (String a k)) as [|b e];
      [reflexivity |].
    now rewrite Hx.
  - intros s. unfold Credentials.connect_kwargs.
    destruct key_file as [[|a k]|]; cbn [truthy_str option_map].
    + apply Hpass.
    + destruct (Credentials.expanduser os (String a k)) as [|b e];
        [apply Hpass |].
      destruct (Credentials.path_exists os (String b e)); [| apply Hpass].
      discriminate.
    + apply Hpass.
  - intros s -> Hs. rewrite Hnone. destruct s as [|a s]; [now elim Hs |].
    reflexivity.
  - reflexivity.
  - assert (Hnn : Credentials.connect_kwargs os None None
                  = Credentials.first_default os) by reflexivity.
    rewrite Hnn. unfold Credentials.first_default.
    split.
    + intros H p Hp.
      destruct (find (Credentials.path_exists os)
                     (Credentials.default_keys os)) as [q|] eqn:E;
        [discriminate |].
      exact (find_none _ _ E p Hp).
    + intros H.
      destruct (find (Credentials.path_exists os)
                     (Credentials.default_keys os)) as [q|] eqn:E;
        [| reflexivity].
      apply find_some in E as [Hin Hq]. rewrite (H q Hin) in Hq.
      discriminate.
Qed.

(** X22 for a key file that is named and missing, with a password: the
    password is used, though [id_ed25519] is there. *)
Lemma X22_credentials_witness :
  Credentials.connect_kwargs example_os (Some "~/.ssh/work") (Some "secret")
  = Some (Credentials.password "secret").
Proof.
  destruct (X22_credentials example_os (Some "~/.ssh/work") (Some "secret"))
    as (_ & _ & Hmissing & _ & Hpass & _).
  rewrite (Hmissing "~/.ssh/work" eq_refl eq_refl).
  apply Hpass; [reflexivity | discriminate].
Defined.

(* ================================================================== *)
(** * The configuration the server starts with *)

Section ConfigFacts.

Variable compile : string -> Re.Compile.

(** A filter made from no pattern is always built, and lets every
    command pass. *)
Lemma empty_filter_passes :
  exists self,
    fst (CommandFilter.__init__
           compile {| CommandFilter.whitelist := [];
                      CommandFilter.blacklist := [] |})
    = Ok self
    /\ forall command, CommandFilter.is_allowed self command = passes.
Proof. eexists. split; reflexivity. Qed.

(** The server is made exactly when its filter is. *)
Lemma config_init_eq (files : Config.Files) (config_file : string) :
  Config.__init__ files compile config_file
  = let config := Config._load_config files config_file in
    let filter_config :=
      TerminalMCPServer.default
        (Config.command_filter config)
        {| CommandFilter.whitelist := []; CommandFilter.blacklist := [] |} in
    match crash_of compile (CommandFilter.whitelist filter_config
                            ++ CommandFilter.blacklist filter_config)%list with
    | Some e => Raise e
    | None =>
        Ok ({| TerminalMCPServer.command_filter :=
                 built compile filter_config |},
            SessionManager.__init__
              (TerminalMCPServer.default (Config.session_timeout config)
                                         1200%Z))
    end.
Proof.
  unfold Config.__init__. cbv zeta. rewrite init_fst.
  now destruct (crash_of compile _).
Qed.

End ConfigFacts.

(** X23. What the server starts with. A configuration file that is
    there and loads is used as it is; when there is none, the default
    configuration is written and used, and its allow list
    ([ifconfig], [ip], [df]) makes the allow-list check active. When
    loading raises (the file cannot be read or parsed, or the default
    cannot be written) the server starts all the same, with the empty
    configuration: the filter has no rule and no allow list, so
    [is_allowed] lets every command pass, and the session timeout is
    1200. A file that loads but has no [command_filter] key gives the
    same filter. The server starts without a session. It is made
    exactly when [re.compile] raises nothing but [re.error] on the
    patterns of the configuration; else its construction ends with the
    exception of the first such pattern, the allow list first. *)
Theorem X23_configuration (files : Config.Files)
        (compile : string -> Re.Compile) (config_file : string) :
  let config := Config._load_config files config_file in
  let made := Config.__init__ files compile config_file in
  let filter_config :=
    TerminalMCPServer.default
      (Config.command_filter config)
      {| CommandFilter.whitelist := []; CommandFilter.blacklist := [] |} in
  (forall c,
     Config.path_exists files config_file = true ->
     Config.load files config_file = Ok c -> config = c)
  /\ (Config.path_exists files config_file = false ->
      Config.dump files config_file Config.default_config = Ok tt ->
      config = Config.default_config
      /\ forall server sessions,
           made = Ok (server, sessions) ->
           CommandFilter.whitelist_enabled
             (TerminalMCPServer.command_filter server) = true
           /\ CommandFilter.whitelist_patterns
                (TerminalMCPServer.command_filter server)
              = ["ifconfig"; "ip"; "df"]
           /\ List.length (CommandFilter.blacklist_patterns
                             (TerminalMCPServer.command_filter server)) = 42)
  /\ (load_failed files config_file ->
      config = Config.empty
      /\ exists server sessions,
           made = Ok (server, sessions)
           /\ (forall command,
                 CommandFilter.is_allowed
                   (TerminalMCPServer.command_filter server) command
                 = passes)
           /\ SessionManager.session_timeout sessions = 1200%Z)
  /\ (Config.command_filter config = None ->
      exists server sessions,
        made = Ok (server, sessions)
        /\ forall command,
             CommandFilter.is_allowed
               (TerminalMCPServer.command_filter server) command = passes)
  /\ (forall server sessions,
        made = Ok (server, sessions) ->
        SessionManager.sessions sessions = [])
  /\ match crash_of compile (CommandFilter.whitelist filter_config
                             ++ CommandFilter.blacklist filter_config)%list
     with
     | Some e => made = Raise e
     | None => exists server sessions, made = Ok (server, sessions)
     end.
Proof.
  intros config made filter_config.
  assert (Hnone : Config.command_filter config = None ->
                  made
                  = Ok ({| TerminalMCPServer.command_filter :=
                             built compile
                                   {| CommandFilter.whitelist := [];
                                      CommandFilter.blacklist := [] |} |},
                        SessionManager.__init__
                          (TerminalMCPServer.default
                             (Config.session_timeout config) 1200%Z))).
  { intros H. subst made. rewrite config_init_eq. cbv zeta.
    fold config. rewrite H. reflexivity. }
  split; [| split; [| split; [| split; [| split]]]].
  - intros c Hex Hl. subst config. unfold Config._load_config.
    now rewrite Hex, Hl.
  - intros Hex Hd.
    assert (Hc : config = Config.default_config)
      by (subst config; unfold Config._load_config; now rewrite Hex, Hd).
    split; [exact Hc |]. intros server sessions Hmade. subst made.
    rewrite config_init_eq in Hmade. cbv zeta in Hmade. fold config in Hmade.
    rewrite Hc in Hmade.
    destruct (crash_of compile _) in Hmade; [discriminate |].
    injection Hmade as <- _.
    cbn [TerminalMCPServer.command_filter]. unfold built.
    cbn [CommandFilter.whitelist_enabled CommandFilter.whitelist_patterns
         CommandFilter.blacklist_patterns].
    split; [reflexivity |]. split; reflexivity.
  - intros Hfail.
    assert (Hc : config = Config.empty).
    { subst config. unfold Config._load_config.
      destruct Hfail as [[Hex [e He]] | [Hex [e He]]]; now rewrite Hex, He. }
    split; [exact Hc |].
    do 2 eexists. split; [apply Hnone; now rewrite Hc |].
    split; [intros command; reflexivity |]. now rewrite Hc.
  - intros H. do 2 eexists. split; [now apply Hnone |].
    intros command. reflexivity.
  - intros server sessions Hmade. subst made.
    rewrite config_init_eq in Hmade. cbv zeta in Hmade.
    destruct (crash_of compile _) in Hmade; [discriminate |].
    now injection Hmade as _ <-.
  - subst made filter_config. rewrite config_init_eq. cbv zeta. fold config.
    destruct (crash_of compile _); [reflexivity |].
    do 2 eexists. reflexivity.
Qed.

(** X23 where no configuration is found and none can be written: the
    server is made, and the shutdown of the machine passes its
    filter. *)
Lemma X23_configuration_witness :
  exists server sessions,
    Config.__init__ read_only_files compile_table "config.json"
    = Ok (server, sessions)
    /\ CommandFilter.is_allowed
         (TerminalMCPServer.command_filter server) "shutdown -h now"
       = passes.
Proof.
  assert (Hfail : load_failed read_only_files "config.json").
  { right. split; [reflexivity |]. eexists. reflexivity. }
  destruct (X23_configuration read_only_files compile_table "config.json")
    as (_ & _ & Hopen & _).
  destruct (Hopen Hfail) as (_ & server & sessions & Hmade & Hpass & _).
  exists server, sessions. split; [exact Hmade | apply Hpass].
Defined.

(* ================================================================== *)
(** * The environment of a session, from one call to the next *)

Section CarryFacts.

Variable sys : Sys.t.

Lemma local_command_world (session : SessionManager.Session)
      (command : string) (env : Dict.t string) (cwd : option string)
      (w : World) :
  let merged := Dict.update (SessionManager.local_env session) env in
  let f := SessionManager.set_local_env merged in
  snd (TerminalMCPServer._execute_local_command
         sys session command env cwd w)
  = {| reads := S (S (reads w));
       trace := (trace w
                 ++ [EvSpawn command (exec_env sys (Some merged)) cwd])%list;
       session_manager :=
         SessionManager.mutate
           (SessionManager.mutate (session_manager w)
                                  (SessionManager.obj session) f)
           (SessionManager.obj session) f;
       active_streams := active_streams w;
       next_conn := next_conn w |}.
Proof.
  intros merged f.
  unfold TerminalMCPServer._execute_local_command,
    TerminalMCPServer.mutate_session, bind, get_manager, put_manager, ret.
  fold merged. fold f.
  set (w1 := {| reads := reads w; trace := trace w;
                session_manager :=
                  SessionManager.mutate (session_manager w)
                                        (SessionManager.obj session) f;
                active_streams := active_streams w;
                next_conn := next_conn w |}).
  cbn beta iota.
  pose proof (local_execute_world sys command (Some merged) cwd w1) as Hw.
  destruct (total_local_execute sys command (Some merged) cwd w1)
    as (r & w2 & Hrun).
  rewrite Hrun in Hw |- *. cbn [snd] in Hw. subst w2. reflexivity.
Qed.

Lemma run_local_world (command : string) (args : Args) (w : World) :
  truthy_str (arg_host args) = false ->
  let g := session_for sys args w in
  let session := fst (fst g) in
  let f := SessionManager.set_local_env (merged_env sys args w) in
  snd (TerminalMCPServer.run_command sys command args w)
  = {| reads := S (S (S (reads w)));
       trace := ((trace w ++ map EvClose (snd g))
                 ++ [EvSpawn command
                       (exec_env sys (Some (merged_env sys args w)))
                       (arg_cwd args)])%list;
       session_manager :=
         SessionManager.mutate
           (SessionManager.mutate (snd (fst g))
                                  (SessionManager.obj session) f)
           (SessionManager.obj session) f;
       active_streams := active_streams w;
       next_conn := next_conn w |}.
Proof.
  intros Hhost g session f.
  pose proof (get_session_world
                sys (TerminalMCPServer.default (arg_session args) "default")
                (arg_host args) (arg_username args) w) as Hs.
  cbv zeta in Hs. fold (session_for sys args w) in Hs. fold g in Hs.
  fold session in Hs.
  unfold TerminalMCPServer.run_command. cbv zeta. rewrite Hhost.
  unfold bind. rewrite Hs.
  match goal with
  | |- context [TerminalMCPServer._execute_local_command
                  sys session command ?env ?cwd ?w1] =>
      pose proof (local_command_world session command env cwd w1) as Hw;
      destruct (TerminalMCPServer._execute_local_command
                  sys session command env cwd w1) as [[r|e] w2]
  end;
    cbv zeta in Hw; cbn [snd reads trace session_manager active_streams
                           next_conn] in Hw; subst w2; reflexivity.
Qed.

Lemma forall_set {V : Type} (P : string * V -> Prop) (d : Dict.t V)
      (k : string) (v : V) :
  Forall P d -> (forall k', P (k', v)) -> Forall P (Dict.set d k v).
Proof.
  intros Hd Hv. induction d as [|[k0 v0] d IH]; cbn [Dict.set].
  - constructor; [apply Hv | constructor].
  - inversion Hd as [|? ? H0 Hd']; subst.
    destruct (String.eqb k k0); constructor; auto.
Qed.

(** The session a call gets, on a store as Python keeps it. *)
Lemma session_for_facts (args : Args) (w : World) :
  envs_ok (session_manager w) ->
  let g := session_for sys args w in
  let session_id := TerminalMCPServer.default (arg_session args) "default" in
  Dict.get (SessionManager.sessions (snd (fst g))) session_id
  = Some (fst (fst g))
  /\ SessionManager.last_used (fst (fst g)) = Sys.clock sys (reads w)
  /\ SessionManager.session_timeout (snd (fst g))
     = SessionManager.session_timeout (session_manager w)
  /\ NoDup (Dict.keys (SessionManager.local_env (fst (fst g))))
  /\ envs_ok (snd (fst g)).
Proof.
  intros [Hkeys Henvs] g session_id.
  destruct (get_session_stored
              (Sys.close sys (List.length (trace w))) (session_manager w)
              (Sys.clock sys (reads w)) session_id (arg_host args)
              (arg_username args)) as [Hget Hused].
  fold (session_for sys args w) in Hget, Hused. fold g in Hget, Hused.
  split; [exact Hget |]. split; [exact Hused |].
  assert (Hkept : Forall (fun kv => NoDup (Dict.keys (SessionManager.local_env
                                                        (snd kv))))
                         (kept (session_manager w)
                               (Sys.clock sys (reads w)))).
  { unfold kept. eapply incl_Forall; [apply incl_filter | exact Henvs]. }
  assert (Hkk : NoDup (Dict.keys (kept (session_manager w)
                                       (Sys.clock sys (reads w)))))
    by (unfold kept; now apply nodup_keys_filter).
  subst g. unfold session_for in *. fold session_id in Hget, Hused |- *.
  rewrite (get_session_eq _ _ _ _ _ _ Hkeys) in *.
  destruct (Dict.get (kept (session_manager w) (Sys.clock sys (reads w)))
                     session_id) as [old|] eqn:E;
    cbn [fst snd SessionManager.session_timeout SessionManager.sessions].
  - assert (Hold : NoDup (Dict.keys (SessionManager.local_env old))).
    { apply get_in in E. rewrite Forall_forall in Hkept.
      exact (Hkept _ E). }
    split; [reflexivity |]. split; [exact Hold |]. split.
    + cbn [SessionManager.sessions]. now apply keys_set_nodup.
    + cbn [SessionManager.sessions]. apply forall_set; auto.
  - split; [reflexivity |]. split; [constructor |]. split.
    + cbn [SessionManager.sessions]. now apply keys_set_nodup.
    + cbn [SessionManager.sessions]. apply forall_set; auto.
      intros k'. cbn. constructor.
Qed.

(** A session that is there and was used not longer ago than the
    timeout is the one a call gets. *)
Lemma session_for_kept (args : Args) (w : World)
      (old : SessionManager.Session) :
  NoDup (Dict.keys (SessionManager.sessions (session_manager w))) ->
  Dict.get (SessionManager.sessions (session_manager w))
           (TerminalMCPServer.default (arg_session args) "default")
  = Some old ->
  (Sys.clock sys (reads w) - SessionManager.last_used old
   <= SessionManager.session_timeout (session_manager w))%Z ->
  fst (fst (session_for sys args w))
  = SessionManager.touch old (Sys.clock sys (reads w)).
Proof.
  intros Hkeys Hget Hle. unfold session_for.
  rewrite (get_session_eq _ _ _ _ _ _ Hkeys).
  rewrite (get_kept _ _ _ _ Hkeys Hget).
  apply not_expired_iff in Hle. now rewrite Hle.
Qed.

Lemma keys_mutate (self : SessionManager.t) (o : nat)
      (f : SessionManager.Session -> SessionManager.Session) :
  Dict.keys (SessionManager.sessions (SessionManager.mutate self o f))
  = Dict.keys (SessionManager.sessions self).
Proof.
  unfold SessionManager.mutate, Dict.keys. cbn [SessionManager.sessions].
  rewrite map_map. apply map_ext. intros [k s]. cbn [fst snd].
  now destruct (SessionManager.obj s =? o).
Qed.

End CarryFacts.

(** X24. The environment of a session carries over from one local
    call to the next. On a store as Python keeps it, when two local
    calls name the same session and the clock reading of the second
    is not later than that of the first by more than the timeout, a
    variable that the first call set and the second does not set
    again has, in the shell of the second call, the value the first
    call gave it: whatever the commands are and whatever the first
    shell did. *)
Theorem X24_environment_carries_over (sys : Sys.t)
        (command1 command2 : string) (args1 args2 : Args) (w : World)
        (k v : string) :
  envs_ok (session_manager w) ->
  truthy_str (arg_host args1) = false ->
  truthy_str (arg_host args2) = false ->
  TerminalMCPServer.default (arg_session args2) "default"
  = TerminalMCPServer.default (arg_session args1) "default" ->
  NoDup (Dict.keys (TerminalMCPServer.default (arg_env args1) [])) ->
  NoDup (Dict.keys (TerminalMCPServer.default (arg_env args2) [])) ->
  Dict.get (TerminalMCPServer.default (arg_env args1) []) k = Some v ->
  Dict.get (TerminalMCPServer.default (arg_env args2) []) k = None ->
  (Sys.clock sys (3 + reads w) - Sys.clock sys (reads w)
   <= SessionManager.session_timeout (session_manager w))%Z ->
  let w1 := snd (TerminalMCPServer.run_command sys command1 args1 w) in
  let w2 := snd (TerminalMCPServer.run_command sys command2 args2 w1) in
  exists closed shell_env,
    trace w2
    = ((trace w1 ++ map EvClose closed)
       ++ [EvSpawn command2 shell_env (arg_cwd args2)])%list
    /\ Dict.get shell_env k = Some v.
Proof.
  intros Hok Hh1 Hh2 Hsid Hn1 Hn2 Hk1 Hk2 Hclock w1 w2.
  pose proof (run_local_world sys command1 args1 w Hh1) as E1.
  cbv zeta in E1. fold w1 in E1.
  destruct (session_for_facts sys args1 w Hok)
    as (Hget1 & Hused1 & Htime1 & Henv1 & [Hkeys1 Hall1]).
  set (s1 := fst (fst (session_for sys args1 w))) in *.
  set (sm1 := snd (fst (session_for sys args1 w))) in *.
  set (m1 := merged_env sys args1 w) in *.
  assert (Hm1 : NoDup (Dict.keys m1))
    by (unfold m1, merged_env; now apply keys_update_nodup).
  assert (Hm1k : Dict.get m1 k = Some v)
    by (unfold m1, merged_env; rewrite get_update by exact Hn1;
        now rewrite Hk1).
  (* the store after the first call *)
  assert (Hst : Dict.get (SessionManager.sessions (session_manager w1))
                         (TerminalMCPServer.default (arg_session args2)
                                                    "default")
                = Some (SessionManager.set_local_env m1 s1)).
  { rewrite E1. cbn [session_manager]. rewrite !get_mutate, Hsid, Hget1.
    cbn [option_map]. rewrite Nat.eqb_refl.
    cbn [SessionManager.set_local_env SessionManager.obj].
    now rewrite Nat.eqb_refl. }
  assert (Hkeys : NoDup (Dict.keys (SessionManager.sessions
                                      (session_manager w1))))
    by (rewrite E1; cbn [session_manager]; now rewrite !keys_mutate).
  assert (Hr : reads w1 = 3 + reads w) by (rewrite E1; reflexivity).
  assert (Ht : SessionManager.session_timeout (session_manager w1)
               = SessionManager.session_timeout (session_manager w))
    by (rewrite E1; cbn [session_manager]; exact Htime1).
  assert (Hs2 : fst (fst (session_for sys args2 w1))
                = SessionManager.touch
                    (SessionManager.set_local_env m1 s1)
                    (Sys.clock sys (reads w1))).
  { apply session_for_kept; [exact Hkeys | exact Hst |].
    rewrite Ht, Hr. cbn [SessionManager.set_local_env
                           SessionManager.last_used].
    now rewrite Hused1. }
  (* the second call *)
  pose proof (run_local_world sys command2 args2 w1 Hh2) as E2.
  cbv zeta in E2. fold w2 in E2.
  exists (snd (session_for sys args2 w1)),
    (exec_env sys (Some (merged_env sys args2 w1))).
  split; [now rewrite E2 |].
  assert (Hm2 : merged_env sys args2 w1
                = Dict.update m1 (TerminalMCPServer.default (arg_env args2) []))
    by (unfold merged_env at 1; now rewrite Hs2).
  rewrite exec_env_get
    by (rewrite Hm2; now apply keys_update_nodup).
  rewrite Hm2, get_update by exact Hn2. now rewrite Hk2, Hm1k.
Qed.

(** X24 for [LANG=C] set by a first call and a second call that sets
    [TERM] only. *)
Lemma X24_environment_carries_over_witness :
  exists closed shell_env,
    trace (snd (TerminalMCPServer.run_command
                  example_sys "env"
                  (local_call "env" "s1" [("TERM", "dumb")])
                  (snd (TerminalMCPServer.run_command
                          example_sys "true"
                          (local_call "true" "s1" [("LANG", "C")])
                          empty_world))))
    = ((trace (snd (TerminalMCPServer.run_command
                      example_sys "true"
                      (local_call "true" "s1" [("LANG", "C")])
                      empty_world))
        ++ map EvClose closed)
       ++ [EvSpawn "env" shell_env None])%list
    /\ Dict.get shell_env "LANG" = Some "C".
Proof.
  assert (Hok : envs_ok (session_manager empty_world))
    by (split; constructor).
  assert (Hn1 : NoDup (Dict.keys [("LANG", "C")]))
    by (constructor; [intros [] | constructor]).
  assert (Hn2 : NoDup (Dict.keys [("TERM", "dumb")]))
    by (constructor; [intros [] | constructor]).
  assert (Hclock : (Sys.clock example_sys (3 + reads empty_world)
                    - Sys.clock example_sys (reads empty_world)
                    <= SessionManager.session_timeout
                         (session_manager empty_world))%Z)
    by (cbn; lia).
  exact (X24_environment_carries_over
           example_sys "true" "env"
           (local_call "true" "s1" [("LANG", "C")])
           (local_call "env" "s1" [("TERM", "dumb")])
           empty_world "LANG" "C"
           Hok eq_refl eq_refl eq_refl Hn1 Hn2 eq_refl eq_refl Hclock).
Defined.

(* ================================================================== *)
(** * Patterns appended to the allow list *)

(** X25. Allow patterns appended to the allow list of a configuration
    whose filter was built. When [re.compile] raises nothing but
    [re.error] on them a filter is built again (else the construction
    ends with the exception of the first such pattern). Appended to an
    allow list that is not empty they never make the filter refuse a
    command it allowed: the decision stays as it was. Appended to an
    empty allow list they switch the allow-list check on, which can
    only restrict: a command allowed afterwards was allowed before. In
    both cases the decision of a deny rule stays as it was: the allow
    list never overrides a deny rule. *)
Theorem X25_appended_allow_patterns (compile : string -> Re.Compile)
        (white black more : list string) (first : CommandFilter.t)
        (command : string) :
  filter_of compile white black = Ok first ->
  (forall e, crash_of compile more = Some e ->
             filter_of compile (white ++ more)%list black = Raise e)
  /\ (crash_of compile more = None ->
      exists second,
        filter_of compile (white ++ more)%list black = Ok second)
  /\ (forall second,
        filter_of compile (white ++ more)%list black = Ok second ->
        let before := CommandFilter.is_allowed first command in
        let after := CommandFilter.is_allowed second command in
        (white <> [] -> allowed before = true -> after = before)
        /\ (white = [] -> allowed after = true -> allowed before = true)
        /\ (denied_by_rule before = true -> after = before)).
Proof.
  intros Hfirst. destruct (filter_of_inv _ _ _ _ Hfirst) as [-> Hc].
  rewrite crash_of_app in Hc.
  destruct (crash_of compile white) eqn:Hw; [discriminate |].
  assert (Hext : crash_of compile ((white ++ more) ++ black)%list
                 = crash_of compile more).
  { rewrite !crash_of_app, Hw, Hc. now destruct (crash_of compile more). }
  split; [| split].
  - intros e He. unfold filter_of. rewrite init_fst.
    cbn [CommandFilter.whitelist CommandFilter.blacklist].
    now rewrite Hext, He.
  - intros Hm. eexists. unfold filter_of. rewrite init_fst.
    cbn [CommandFilter.whitelist CommandFilter.blacklist].
    now rewrite Hext, Hm.
  - intros second Hsecond.
    destruct (filter_of_inv _ _ _ _ Hsecond) as [-> _].
    intros before after. subst before after.
    rewrite !is_allowed_eq. cbv zeta. unfold built.
    cbn [CommandFilter.blacklist_rules CommandFilter.whitelist_rules
         CommandFilter.whitelist_enabled CommandFilter.whitelist
         CommandFilter.blacklist].
    rewrite compiled_app, existsb_app.
    set (m := CommandFilter._extract_main_command command).
    destruct (find (fun rule => deny_matches rule m)
                   (compiled compile black)) as [rule|] eqn:E1.
    + split; [intros; reflexivity | split; [| intros; reflexivity]].
      unfold allowed. cbn. discriminate.
    + split; [| split].
      * intros Hne. destruct white as [|p white]; [now elim Hne |].
        cbn [List.app CommandFilter.truthy].
        destruct (existsb (fun rule => allow_matches rule m)
                          (compiled compile (p :: white)));
          [reflexivity | discriminate].
      * intros ->. reflexivity.
      * destruct (CommandFilter.truthy white);
          [destruct (existsb _ _) |]; discriminate.
Qed.

(** X25 at the policy of the examples with one more allow pattern:
    [df -h] was allowed and still is. *)
Lemma X25_appended_allow_patterns_witness :
  exists first second,
    filter_of compile_table ["df"] ["^\s*shutdown"] = Ok first
    /\ filter_of compile_table ["df"; "ip"] ["^\s*shutdown"] = Ok second
    /\ CommandFilter.is_allowed second "df -h"
       = CommandFilter.is_allowed first "df -h".
Proof.
  assert (Hfirst : filter_of compile_table ["df"] ["^\s*shutdown"]
                   = Ok (built compile_table
                               {| CommandFilter.whitelist := ["df"];
                                  CommandFilter.blacklist :=
                                    ["^\s*shutdown"] |}))
    by reflexivity.
  destruct (X25_appended_allow_patterns
              compile_table ["df"] ["^\s*shutdown"] ["ip"] _ "df -h" Hfirst)
    as (_ & Hbuilt & Hsame).
  destruct (Hbuilt eq_refl) as [second Hsecond].
  eexists. exists second. split; [exact Hfirst |].
  split; [exact Hsecond |].
  apply (proj1 (Hsame second Hsecond)); [discriminate | reflexivity].
Defined.


(* ================================================================== *)
(** * Forced execution *)

Section ForcedFacts.

Variable sys : Sys.t.






End ForcedFacts.



